(** * FantasyPremierLeague: consensus aggregation and scoring engine

    A shallow embedding of the scoring core of the repository:
    - [fpl_web_scraper.py]: [ScraperAggregator.get_player_consensus_score],
      [get_injury_status], [is_expected_to_start], [scrape_all], and the text
      heuristics of [FantasyFootballScoutScraper];
    - [fpl_scout_scraper.py]: the signals of
      [OfficialPremierLeagueScoutScraper.scrape_player_recommendations];
    - [fpl_recommender.py]: [integrate_web_data], [calculate_player_score],
      [suggest_transfers], [suggest_captain], [suggest_vice_captain], and the
      gameweek that [fetch_fpl_data] sets.

    Modelling conventions.
    - Python floats and ints are exact rationals ([Q]); equality of scores is
      [Qeq] ([==]).  Numeric columns hold finite numbers (no NaN); a column
      built with [Series.map] is a column of [cell]s, NaN where the key is
      missing ([next_opponent], [is_home], [position_name], [team_name]).
      The worked scoring scenario is also replayed on binary64 floats, and
      the two tests of [suggest_vice_captain], one of them on a rounded
      quotient, are made on binary64 floats ([Module Binary64]).
    - Text is 8-bit [string]; case folding is the ASCII one (A-Z to a-z).
    - A Python [dict] is a [gmap]; a list of dicts / a DataFrame is a list of
      records, in row order.  [df.apply] on a frame without rows is pandas'
      trial call on a row of NaN ([probe_raises]).
    - The network is an input: the API payloads are fields of the
      recommender state. *)

From Stdlib Require Import QArith Qminmax Lqa ZArith Lia String Ascii List.
From Stdlib Require Import Sorting.Permutation Sorting.Sorted.
From Stdlib Require Import Floats.PrimFloat.
From Stdlib Require Uint63.
From stdpp Require Import gmap strings list fin_maps.

Local Open Scope string_scope.

(** ** Python numerics on [Q] *)

Definition Qltb (x y : Q) : bool := negb (Qle_bool y x).

(** [min(a, b)] and [max(a, b)] of Python: the first argument is kept unless
    the second is strictly smaller (resp. larger). *)
Definition py_min (a b : Q) : Q := if Qltb b a then b else a.
Definition py_max (a b : Q) : Q := if Qltb a b then b else a.

(** [sum(...)] over a list of numbers. *)
Definition py_sum (l : list Q) : Q := fold_left Qplus l 0%Q.

Definition Q_of_nat (n : nat) : Q := inject_Z (Z.of_nat n).

(** ** Python strings (ASCII) *)

Definition ascii_lower (c : ascii) : ascii :=
  let n := nat_of_ascii c in
  if ((65 <=? n) && (n <=? 90))%nat then ascii_of_nat (n + 32) else c.

(** [s.lower()] *)
Fixpoint str_lower (s : string) : string :=
  match s with
  | EmptyString => EmptyString
  | String c s' => String (ascii_lower c) (str_lower s')
  end.

Fixpoint str_startswith (s p : string) {struct p} : bool :=
  match p, s with
  | EmptyString, _ => true
  | String _ _, EmptyString => false
  | String a p', String b s' => Ascii.eqb a b && str_startswith s' p'
  end.

(** [needle in hay] on two [str] values. *)
Fixpoint str_in (needle hay : string) : bool :=
  str_startswith hay needle ||
  match hay with
  | EmptyString => false
  | String _ hay' => str_in needle hay'
  end.

(** ** Outcomes of a call

    [Raises] is a Python exception leaving the function.  [Unmodelled] marks a
    call whose regular expression lies outside the fragment of [re] embedded
    below; nothing is proved about such calls. *)

Inductive exn := re_error | KeyError | ValueError.

Inductive outcome (A : Type) : Type :=
| Returns (a : A)
| Raises (e : exn)
| Unmodelled.
Arguments Returns {A} a.
Arguments Raises {A} e.
Arguments Unmodelled {A}.

#[global] Instance outcome_ret : MRet outcome := @Returns.
#[global] Instance outcome_bind : MBind outcome := λ A B f m,
  match m with
  | Returns a => f a
  | Raises e => Raises e
  | Unmodelled => Unmodelled
  end.

(** A [for] loop whose body may raise: the accumulator is threaded through. *)
Fixpoint for_each {A S : Type} (l : list A) (body : S → A → outcome S) (s : S)
  : outcome S :=
  match l with
  | [] => Returns s
  | x :: l' => s' ← body s x; for_each l' body s'
  end.

(** One call per row, in row order: [iterrows], and [df.apply(f, axis=1)] on
    a frame that has rows. *)
Fixpoint df_apply {A B : Type} (f : A → outcome B) (l : list A)
  : outcome (list B) :=
  match l with
  | [] => Returns []
  | x :: l' => y ← f x; ys ← df_apply f l'; Returns (y :: ys)
  end.

(** ** The fragment of Python's [re] that is embedded

    [Series.str.contains(pat, case=False, na=False)] is called with pandas'
    default [regex=True]: [pat] is compiled once with [re.IGNORECASE] and
    every cell is tested with [regex.search].  Embedded here:
    - an ordinary character matches itself, ignoring ASCII case;
    - [.] matches any character but a newline;
    - a pattern that starts with a repetition operator ([*], [+], [?]) does
      not compile: [re.error], nothing to repeat;
    - any other pattern holding one of [\ ^ $ * + ? { } [ ] | ( )] is left
      unmodelled. *)

Inductive re_item := ReLit (c : ascii) | ReAny.

Inductive re_compiled :=
| ReOk (items : list re_item)
| ReError
| ReUnsupported.

Definition re_special (c : ascii) : bool :=
  existsb (Ascii.eqb c) (list_ascii_of_string "\^$*+?{}[]|()").

Definition re_repeat (c : ascii) : bool :=
  existsb (Ascii.eqb c) (list_ascii_of_string "*+?").

Fixpoint re_parse (pat : string) : option (list re_item) :=
  match pat with
  | EmptyString => Some []
  | String c pat' =>
      if Ascii.eqb c "." then cons ReAny <$> re_parse pat'
      else if re_special c then None
      else cons (ReLit c) <$> re_parse pat'
  end.

Definition re_compile (pat : string) : re_compiled :=
  match pat with
  | String c _ =>
      if re_repeat c then ReError
      else match re_parse pat with Some items => ReOk items | None => ReUnsupported end
  | EmptyString => ReOk []
  end.

Definition newline : ascii := ascii_of_nat 10.

Definition re_item_match (i : re_item) (c : ascii) : bool :=
  match i with
  | ReLit a => Ascii.eqb (ascii_lower a) (ascii_lower c)
  | ReAny => negb (Ascii.eqb c newline)
  end.

Fixpoint re_match_here (items : list re_item) (s : string) : bool :=
  match items, s with
  | [], _ => true
  | _ :: _, EmptyString => false
  | i :: items', String c s' => re_item_match i c && re_match_here items' s'
  end.

(** [regex.search(s) is not None] *)
Fixpoint re_search (items : list re_item) (s : string) : bool :=
  re_match_here items s ||
  match s with
  | EmptyString => false
  | String _ s' => re_search items s'
  end.

(** [df[df[col].str.contains(pat, case=False, na=False)]] for a string column
    [col]: the rows whose cell the pattern is found in, in row order. *)
Definition str_contains_rows {A : Type} (col : A → string) (pat : string)
  (df : list A) : outcome (list A) :=
  match re_compile pat with
  | ReOk items => Returns (List.filter (λ r, re_search items (col r)) df)
  | ReError => Raises re_error
  | ReUnsupported => Unmodelled
  end.

(** ** Consensus store ([ScraperAggregator.player_data]) *)

Module Rec.
(** One entry of [player_data['recommendations']]. *)
Record t := mk {
  source : string;
  player_name : string;
  recommendation_type : string;
  sentiment : string
}.
End Rec.

Module Injury.
(** One entry of [player_data['injury_news']]. *)
Record t := mk {
  source : string;
  player_name : string;
  status : string
}.
End Injury.

Record PlayerData := {
  recommendations : list Rec.t;
  injury_news : list Injury.t;
  lineups : gmap string (list string)
}.

Record ScraperAggregator := { player_data : PlayerData }.

(** The [avg_sentiment] entry of the consensus dict. *)
Inductive avg_sentiment_t :=
| NoAvgKey                (* the early returns build a dict without the key *)
| AvgNaN                  (* the mean of no number *)
| Avg (q : Q).

Record ConsensusRecord := {
  consensus_score : Q;
  mention_count : nat;
  sentiment : string;
  avg_sentiment : avg_sentiment_t
}.

Definition no_consensus : ConsensusRecord :=
  {| consensus_score := 0; mention_count := 0; sentiment := "neutral";
     avg_sentiment := NoAvgKey |}.

Definition sentiment_scores : gmap string Z :=
  list_to_map [("positive", 1%Z); ("neutral", 0%Z); ("negative", (-1)%Z)].

Definition type_weights : gmap string Q :=
  list_to_map [("captain", 3.0%Q); ("essential", 2.5%Q); ("transfer", 2.0%Q);
               ("differential", 1.5%Q); ("general", 1.0%Q); ("budget", 1.0%Q);
               ("avoid", (-2.0)%Q)].

(** [player_recs['sentiment'].map(sentiment_scores).mean()]: a sentiment that
    is no key of the dict maps to NaN, and [mean] skips NaN. *)
Definition mean_sentiment (player_recs : list Rec.t) : avg_sentiment_t :=
  let vals := omap (λ r, sentiment_scores !! Rec.sentiment r) player_recs in
  match vals with
  | [] => AvgNaN
  | _ => Avg (py_sum (map inject_Z vals) / Q_of_nat (length vals))
  end.

(** [type_weights.get(rec_type, 1.0)] *)
Definition weight_of (rec_type : string) : Q :=
  default 1.0%Q (type_weights !! rec_type).

(** [sentiment_scores.get(rec['sentiment'], 0)] *)
Definition sentiment_mult_of (sentiment : string) : Z :=
  default 0%Z (sentiment_scores !! sentiment).

(** The body of the loop over [player_recs.iterrows()]: the amount added to
    [weighted_score]. *)
Definition vote (rec : Rec.t) : Q :=
  let rec_type := Rec.recommendation_type rec in
  let weight := weight_of rec_type in
  let sentiment_mult := sentiment_mult_of (Rec.sentiment rec) in
  (weight * (inject_Z sentiment_mult + 1))%Q.

Definition overall_sentiment_of (avg : avg_sentiment_t) : string :=
  match avg with
  | Avg a => if Qltb 0.3 a then "positive"
             else if Qltb a (-0.3) then "negative" else "neutral"
  | _ => "neutral"
  end.

Definition get_player_consensus_score (self : ScraperAggregator)
  (player_name : string) : outcome ConsensusRecord :=
  let recs_df := recommendations (player_data self) in
  match recs_df with
  | [] => Returns no_consensus
  | _ =>
    player_recs ← str_contains_rows Rec.player_name player_name recs_df;
    match player_recs with
    | [] => Returns no_consensus
    | _ =>
      let mention_count := length player_recs in
      let avg_sentiment := mean_sentiment player_recs in
      let weighted_score :=
        fold_left (λ acc rec, (acc + vote rec)%Q) player_recs 0%Q in
      let consensus_score :=
        (weighted_score / py_max (Q_of_nat mention_count) 1)%Q in
      Returns {| consensus_score := consensus_score;
                 mention_count := mention_count;
                 sentiment := overall_sentiment_of avg_sentiment;
                 avg_sentiment := avg_sentiment |}
    end
  end.

(** [get_injury_status]: the status of the first matching entry, [None] when
    there is none. *)
Definition get_injury_status (self : ScraperAggregator) (player_name : string)
  : outcome (option string) :=
  let injuries_df := injury_news (player_data self) in
  match injuries_df with
  | [] => Returns None
  | _ =>
    player_injuries ← str_contains_rows Injury.player_name player_name injuries_df;
    match player_injuries with
    | [] => Returns None
    | first :: _ => Returns (Some (Injury.status first))
    end
  end.

(** [is_expected_to_start]: a plain [in] test on lower-cased text, over the
    starters of every team. *)
Definition is_expected_to_start (self : ScraperAggregator) (player_name : string)
  : bool :=
  existsb (λ '(team, players),
             existsb (λ p, str_in (str_lower player_name) (str_lower p)) players)
          (map_to_list (lineups (player_data self))).

Definition rec_salah_captain : Rec.t :=
  Rec.mk "Scout" "Mohamed Salah" "captain" "positive".



(** ** The recommender state ([FPLRecommender])

    The state after [fetch_fpl_data], [fetch_my_team] and
    [prepare_players_dataframe] have run: [self.data], [self.players_df],
    [self.current_team] and [self.budget] are loaded. *)

Module Element.
(** A row of [players_df]: one entry of the API's [elements] with the numeric
    columns that [prepare_players_dataframe] adds. *)
Record t := mk {
  id : Z;
  first_name : string;
  second_name : string;
  element_type : Z;
  team : Z;
  now_cost : Z;
  form_numeric : Q;
  total_points : Z;
  ict_index_numeric : Q;
  selected_by_percent_numeric : Q;
  status : string
}.
End Element.

Module Team.
(** One entry of [data['teams']]. *)
Record t := mk { id : Z; name : string; short_name : string }.
End Team.

Module Fixture.
(** One entry of [data['fixtures']]; [event] is null for an unscheduled match. *)
Record t := mk { event : option Z; team_h : Z; team_a : Z }.
End Fixture.

Module Summary.
(** The [element-summary/<id>/] payload: upcoming fixtures and past matches. *)
Record upcoming := mk_upcoming { difficulty : Z }.
Record past := mk_past { opponent_team : Z; total_points : Z }.
Record t := mk { fixtures : list upcoming; history : list past }.
End Summary.

Record FPLRecommender := {
  players_df : list Element.t;
  teams : list Team.t;
  data_fixtures : list Fixture.t;
  current_gameweek : Z;
  squad_ids : list Z;
  budget : Q;
  use_web_data : bool;
  web_aggregator : option ScraperAggregator;
  (** the API behind [requests.get]; [None] is a failed request *)
  element_summary : Z → option Summary.t
}.

(** A cell of a column built with [Series.map(dict)]: NaN where the key is
    missing. *)
Inductive cell (A : Type) : Type := NaN | Val (a : A).
Arguments NaN {A}.
Arguments Val {A} a.

Definition series_map {K A : Type} `{Countable K} (d : gmap K A) (k : K) : cell A :=
  match d !! k with Some a => Val a | None => NaN end.

(** *** Derived columns of [prepare_players_dataframe] *)

Definition position_map : gmap Z string :=
  list_to_map [(1%Z, "GK"); (2%Z, "DEF"); (3%Z, "MID"); (4%Z, "FWD")].

Definition position_name (p : Element.t) : cell string :=
  series_map position_map (Element.element_type p).

Definition teams_by_name (self : FPLRecommender) : gmap Z string :=
  list_to_map (rev (map (λ t, (Team.id t, Team.name t)) (teams self))).

Definition team_name (self : FPLRecommender) (p : Element.t) : cell string :=
  series_map (teams_by_name self) (Element.team p).

Definition full_name (p : Element.t) : string :=
  Element.first_name p +:+ " " +:+ Element.second_name p.

Definition value (p : Element.t) : Q := (inject_Z (Element.now_cost p) / 10)%Q.

Definition cell_is (c : cell string) (s : string) : bool :=
  match c with Val x => String.eqb x s | NaN => false end.

(** *** The element-summary helpers *)

Definition get_player_fixtures (self : FPLRecommender) (player_id : Z)
  (num_fixtures : nat) : list Summary.upcoming :=
  match element_summary self player_id with
  | Some s => take num_fixtures (Summary.fixtures s)
  | None => []
  end.

(** The argument [next_opponent]: Python's [None], a NaN cell, or a team id. *)
Inductive opponent := NoOpponent | OpponentNaN | Opponent (team : Z).

Definition opponent_of_cell (c : cell Z) : opponent :=
  match c with NaN => OpponentNaN | Val t => Opponent t end.

(** [if next_opponent:] *)
Definition opponent_truthy (o : opponent) : bool :=
  match o with
  | NoOpponent => false
  | OpponentNaN => true
  | Opponent t => negb (t =? 0)%Z
  end.

(** [get_player_history_vs_team(...)['avg_points']] *)
Definition avg_points_vs_team (self : FPLRecommender) (player_id : Z)
  (opponent_team : opponent) : Q :=
  match element_summary self player_id with
  | Some s =>
      let vs_opponent :=
        List.filter (λ h, match opponent_team with
                          | Opponent t => (Summary.opponent_team h =? t)%Z
                          | _ => false
                          end) (Summary.history s) in
      match vs_opponent with
      | [] => 0%Q
      | _ =>
        let total_points :=
          py_sum (map (λ h, inject_Z (Summary.total_points h)) vs_opponent) in
        (total_points / Q_of_nat (length vs_opponent))%Q
      end
  | None => 0%Q
  end.

Definition calculate_fixture_difficulty_score (self : FPLRecommender)
  (player_id : Z) (num_fixtures : nat) : Q :=
  let fixtures := get_player_fixtures self player_id num_fixtures in
  match fixtures with
  | [] => 3.0%Q
  | _ =>
    let total_difficulty :=
      py_sum (map (λ f, inject_Z (Summary.difficulty f)) fixtures) in
    (total_difficulty / Q_of_nat (length fixtures))%Q
  end.

(** ** Player scoring engine *)

Definition status_is (st : option string) (s : string) : bool :=
  match st with Some x => String.eqb x s | None => false end.

(** The adjustments [integrate_web_data] applies to the consensus, once the
    three look-ups have returned. *)
Definition web_score_of (consensus : ConsensusRecord)
  (injury_status : option string) (expected_start : bool) : Q :=
  let web_score := consensus_score consensus in
  let web_score :=
    if status_is injury_status "out" then 0.0%Q
    else if status_is injury_status "doubtful" then (web_score * 0.5)%Q
    else if status_is injury_status "suspended" then 0.0%Q
    else web_score in
  let web_score :=
    if expected_start
       && negb (status_is injury_status "out" || status_is injury_status "suspended")
    then (web_score + 1.5)%Q else web_score in
  let web_score :=
    if (3 <=? mention_count consensus)%nat then (web_score + 1.0)%Q
    else web_score in
  py_max 0 (py_min 10 web_score).

Definition integrate_web_data (self : FPLRecommender) (player_row : Element.t)
  : outcome Q :=
  match use_web_data self, web_aggregator self with
  | true, Some web_aggregator =>
    let player_name := full_name player_row in
    consensus ← get_player_consensus_score web_aggregator player_name;
    injury_status ← get_injury_status web_aggregator player_name;
    let expected_start := is_expected_to_start web_aggregator player_name in
    Returns (web_score_of consensus injury_status expected_start)
  | _, _ => Returns 5.0%Q
  end.

Definition form_score_of (player_row : Element.t) : Q :=
  if Qltb 0 (Element.form_numeric player_row)
  then Element.form_numeric player_row else 0%Q.

Definition historical_score_of (self : FPLRecommender) (player_id : Z)
  (next_opponent : opponent) : Q :=
  if opponent_truthy next_opponent
  then py_min (avg_points_vs_team self player_id next_opponent * 1.5)%Q 10
  else 0%Q.

Definition calculate_player_score (self : FPLRecommender)
  (player_row : Element.t) (next_opponent : opponent) : outcome Q :=
  let player_id := Element.id player_row in
  let form_score := form_score_of player_row in
  let fixture_diff := calculate_fixture_difficulty_score self player_id 5 in
  let fixture_score := ((6 - fixture_diff) / 5 * 10)%Q in
  let historical_score := historical_score_of self player_id next_opponent in
  let total_points := inject_Z (Element.total_points player_row) in
  let points_score := py_min (total_points / 20)%Q 10 in
  let ict_score :=
    if Qltb 0 (Element.ict_index_numeric player_row)
    then py_min (Element.ict_index_numeric player_row / 20)%Q 10 else 0%Q in
  web_score ← integrate_web_data self player_row;
  match use_web_data self, web_aggregator self with
  | true, Some _ =>
    Returns (form_score * 0.25 + fixture_score * 0.20 + historical_score * 0.15
             + points_score * 0.12 + ict_score * 0.08 + web_score * 0.20)%Q
  | _, _ =>
    Returns (form_score * 0.30 + fixture_score * 0.25 + historical_score * 0.20
             + points_score * 0.15 + ict_score * 0.10)%Q
  end.

(** *** Gameweek dictionaries *)

Definition get_fixtures_for_gameweek (self : FPLRecommender) (gameweek : Z)
  : list Fixture.t :=
  List.filter (λ f, match Fixture.event f with
                    | Some e => (e =? gameweek)%Z
                    | None => false
                    end) (data_fixtures self).

Definition team_next_opponent_of (fixtures : list Fixture.t) : gmap Z Z :=
  fold_left (λ d fixture,
               <[Fixture.team_a fixture := Fixture.team_h fixture]>
                 (<[Fixture.team_h fixture := Fixture.team_a fixture]> d))
            fixtures ∅.

(** ** Transfer optimizer *)

Module Scored.
(** A row of [current_squad_df] / [available_players] once the columns
    [next_opponent] and [player_score] are set. *)
Record t := mk {
  row : Element.t;
  next_opponent : cell Z;
  player_score : Q
}.
End Scored.

Module Transfer.
(** One suggestion dict. *)
Record t := mk {
  out_player : string;
  out_player_id : Z;
  out_team : cell string;
  out_price : Q;
  out_score : Q;
  out_form : Q;
  in_player : string;
  in_player_id : Z;
  in_team : cell string;
  in_price : Q;
  in_score : Q;
  in_form : Q;
  position : string;
  improvement : Q;
  cost_diff : Q;
  web_mentions : nat;
  web_sentiment : string
}.
End Transfer.

(** Stable insertion sort: [le x y] says that [x] may stay before [y].
    Python's [list.sort] is stable, also with [reverse=True]; pandas'
    [sort_values] promises no order among equal keys, and nothing below
    depends on that order. *)
Fixpoint insert_sorted {A : Type} (le : A → A → bool) (x : A) (l : list A)
  : list A :=
  match l with
  | [] => [x]
  | y :: l' => if le x y then x :: l else y :: insert_sorted le x l'
  end.

Definition stable_sort {A : Type} (le : A → A → bool) (l : list A) : list A :=
  foldr (insert_sorted le) [] l.

Definition sort_ascending {A : Type} (key : A → Q) : list A → list A :=
  stable_sort (λ x y, Qle_bool (key x) (key y)).

Definition sort_descending {A : Type} (key : A → Q) : list A → list A :=
  stable_sort (λ x y, Qle_bool (key y) (key x)).

(** [l[:k]] *)
Definition py_slice_to {A : Type} (k : Z) (l : list A) : list A :=
  if (0 <=? k)%Z then take (Z.to_nat k) l
  else take (length l - Z.to_nat (- k)) l.

(** [if position_filter:] on an optional string. *)
Definition str_truthy (s : option string) : option string :=
  match s with
  | Some "" => None
  | _ => s
  end.

(** [Series.value_counts()] as a dict; [counts.get(k, 0)] reads it. *)
Definition value_counts (col : list Z) : gmap Z nat :=
  fold_left (λ d k, <[k := S (default 0%nat (d !! k))]> d) col ∅.

Definition get_current_squad_df (self : FPLRecommender) : list Element.t :=
  List.filter (λ p, bool_decide (Element.id p ∈ squad_ids self)) (players_df self).

(** On a frame without rows [df.apply(f, axis=1)] calls [f] once, on a row
    whose cells are all NaN, to learn the shape of the result.  In
    [calculate_player_score] that row reaches [integrate_web_data], where
    [str.contains(nan)] and [nan.lower()] raise as soon as web data is on and
    a store gives them something to look at: a recommendation, an injury
    entry or a listed starter.  Nothing else in the call raises (the two API
    helpers catch everything). *)
Definition probe_raises (self : FPLRecommender) : bool :=
  match use_web_data self, web_aggregator self with
  | true, Some web_aggregator =>
    let data := player_data web_aggregator in
    match recommendations data, injury_news data with
    | [], [] =>
        existsb (λ '(team, players), match players with [] => false | _ => true end)
                (map_to_list (lineups data))
    | _, _ => true
    end
  | _, _ => false
  end.

(** The two assignments [df['next_opponent'] = df['team'].map(...)] and
    [df['player_score'] = df.apply(...)].  On a frame without rows, [apply]
    swallows the exception of its trial call and hands back a copy of the
    frame; assigning that frame to the one column raises [ValueError].  When
    the trial call returns, the new column is empty. *)
Definition score_rows (self : FPLRecommender) (team_next_opponent : gmap Z Z)
  (df : list Element.t) : outcome (list Scored.t) :=
  match df with
  | [] => if probe_raises self then Raises ValueError else Returns []
  | _ =>
    df_apply (λ row,
                let next_opponent := series_map team_next_opponent (Element.team row) in
                player_score ←
                  calculate_player_score self row (opponent_of_cell next_opponent);
                Returns (Scored.mk row next_opponent player_score)) df
  end.

Definition mk_transfer (self : FPLRecommender) (pos : string)
  (out_player in_player : Scored.t) (score_improvement : Q)
  (web_mentions : nat) (web_sentiment : string) : Transfer.t :=
  let o := Scored.row out_player in
  let i := Scored.row in_player in
  {| Transfer.out_player := full_name o;
     Transfer.out_player_id := Element.id o;
     Transfer.out_team := team_name self o;
     Transfer.out_price := value o;
     Transfer.out_score := Scored.player_score out_player;
     Transfer.out_form := Element.form_numeric o;
     Transfer.in_player := full_name i;
     Transfer.in_player_id := Element.id i;
     Transfer.in_team := team_name self i;
     Transfer.in_price := value i;
     Transfer.in_score := Scored.player_score in_player;
     Transfer.in_form := Element.form_numeric i;
     Transfer.position := pos;
     Transfer.improvement := score_improvement;
     Transfer.cost_diff := (value i - value o)%Q;
     Transfer.web_mentions := web_mentions;
     Transfer.web_sentiment := web_sentiment |}.

(** Body of [for _, in_player in affordable.head(10).iterrows()]. *)
Definition consider_in (self : FPLRecommender) (team_counts : gmap Z nat)
  (pos : string) (out_player : Scored.t)
  (transfer_suggestions : list Transfer.t) (in_player : Scored.t)
  : outcome (list Transfer.t) :=
  let in_team := Element.team (Scored.row in_player) in
  let out_team := Element.team (Scored.row out_player) in
  if negb (in_team =? out_team)%Z
     && (3 <=? default 0%nat (team_counts !! in_team))%nat
  then Returns transfer_suggestions
  else
    let score_improvement :=
      (Scored.player_score in_player - Scored.player_score out_player)%Q in
    if Qltb 0.5 score_improvement then
      web ← match web_aggregator self with
            | Some web_aggregator =>
                consensus ← get_player_consensus_score web_aggregator
                              (full_name (Scored.row in_player));
                Returns (mention_count consensus, sentiment consensus)
            | None => Returns (0%nat, "neutral")
            end;
      Returns (transfer_suggestions ++
               [mk_transfer self pos out_player in_player score_improvement
                            web.1 web.2])%list
    else Returns transfer_suggestions.

(** Body of [for _, out_player in pos_current.iterrows()]. *)
Definition consider_out (self : FPLRecommender) (current_squad_df : list Scored.t)
  (pos : string) (pos_available : list Scored.t)
  (transfer_suggestions : list Transfer.t) (out_player : Scored.t)
  : outcome (list Transfer.t) :=
  let selling_price := (inject_Z (Element.now_cost (Scored.row out_player)) / 10)%Q in
  let available_budget := (budget self + selling_price)%Q in
  let affordable :=
    List.filter (λ a, Qle_bool (value (Scored.row a)) available_budget)
                pos_available in
  match affordable with
  | [] => Returns transfer_suggestions
  | _ =>
    let affordable := sort_descending Scored.player_score affordable in
    let team_counts :=
      value_counts (map (λ s, Element.team (Scored.row s)) current_squad_df) in
    for_each (take 10 affordable)
             (consider_in self team_counts pos out_player) transfer_suggestions
  end.

(** Body of [for pos in ['GK', 'DEF', 'MID', 'FWD']]. *)
Definition consider_pos (self : FPLRecommender) (position_filter : option string)
  (current_squad_df available_players : list Scored.t)
  (transfer_suggestions : list Transfer.t) (pos : string)
  : outcome (list Transfer.t) :=
  let skip := match str_truthy position_filter with
              | Some wanted => negb (String.eqb pos wanted)
              | None => false
              end in
  if skip then Returns transfer_suggestions
  else
    let has_pos := λ s, cell_is (position_name (Scored.row s)) pos in
    let pos_current := List.filter has_pos current_squad_df in
    let pos_available := List.filter has_pos available_players in
    let pos_current := sort_ascending Scored.player_score pos_current in
    for_each pos_current
             (consider_out self current_squad_df pos pos_available)
             transfer_suggestions.

Definition suggest_transfers (self : FPLRecommender) (num_transfers : Z)
  (position_filter : option string) : outcome (list Transfer.t) :=
  let current_squad_df := get_current_squad_df self in
  let fixtures := get_fixtures_for_gameweek self (current_gameweek self) in
  let team_next_opponent := team_next_opponent_of fixtures in
  current_squad_df ← score_rows self team_next_opponent current_squad_df;
  let available_players :=
    List.filter (λ p, negb (bool_decide (Element.id p ∈ squad_ids self))
                      && String.eqb (Element.status p) "a") (players_df self) in
  let available_players :=
    match str_truthy position_filter with
    | Some wanted =>
        List.filter (λ p, cell_is (position_name p) wanted) available_players
    | None => available_players
    end in
  available_players ← score_rows self team_next_opponent available_players;
  transfer_suggestions ←
    for_each ["GK"; "DEF"; "MID"; "FWD"]
             (consider_pos self position_filter current_squad_df available_players)
             [];
  let transfer_suggestions :=
    sort_descending Transfer.improvement transfer_suggestions in
  Returns (py_slice_to (num_transfers * 5) transfer_suggestions).

(** ** Binary64 doubles

    Where the code decides on a rounded value, the decision is replayed on
    IEEE 754 doubles.  [of_Z] is the double of a Python [int]; [of_Q] is the
    double that parsing a decimal text gives: the nearest one, for numerators
    and denominators below 2^53.  [calculate_player_score] is transcribed for
    the branch without web data: the same operations in the same order. *)

Module Binary64.
#[local] Set Warnings "-inexact-float".

Definition of_Z (z : Z) : float :=
  match z with
  | Z0 => 0%float
  | Zpos _ => PrimFloat.of_uint63 (Uint63.of_Z z)
  | Zneg p => (- PrimFloat.of_uint63 (Uint63.of_Z (Zpos p)))%float
  end.

Definition of_Q (q : Q) : float := (of_Z (Qnum q) / of_Z (Zpos (Qden q)))%float.

Definition py_min (a b : float) : float := if PrimFloat.ltb b a then b else a.

Definition py_max (a b : float) : float := if PrimFloat.ltb a b then b else a.

Definition fixture_score_of (fixture_diff : float) : float :=
  ((6 - fixture_diff) / 5 * 10)%float.

Definition player_score_no_web (form_numeric fixture_diff historical_score
  total_points ict_index_numeric : float) : float :=
  let form_score := if PrimFloat.ltb 0 form_numeric then form_numeric else 0%float in
  let fixture_score := fixture_score_of fixture_diff in
  let points_score := py_min (total_points / 20)%float 10 in
  let ict_score :=
    if PrimFloat.ltb 0 ict_index_numeric
    then py_min (ict_index_numeric / 20)%float 10 else 0%float in
  (form_score * 0.30 + fixture_score * 0.25 + historical_score * 0.20
   + points_score * 0.15 + ict_score * 0.10)%float.

Definition six_point_four : float := 6.4%float.
End Binary64.

(** ** Captaincy ranker *)

Module Gw.
(** The three dicts [suggest_captain] fills from the gameweek's fixtures. *)
Record dicts := mk {
  team_next_opponent : gmap Z Z;
  opponent_names : gmap Z string;
  is_home : gmap Z bool
}.
Definition empty : dicts := mk ∅ ∅ ∅.
End Gw.

(** [{team['id']: team['short_name'] for team in self.data['teams']}] *)
Definition teams_dict (self : FPLRecommender) : gmap Z string :=
  list_to_map (rev (map (λ t, (Team.id t, Team.short_name t)) (teams self))).

(** Body of [for fixture in fixtures]; [teams_dict[...]] raises on a team id
    that [data['teams']] does not list. *)
Definition add_fixture (self : FPLRecommender) (d : Gw.dicts) (fixture : Fixture.t)
  : outcome Gw.dicts :=
  let h := Fixture.team_h fixture in
  let a := Fixture.team_a fixture in
  let team_next_opponent := <[a := h]> (<[h := a]> (Gw.team_next_opponent d)) in
  match teams_dict self !! a with
  | None => Raises KeyError
  | Some name_a =>
    let opponent_names := <[h := name_a]> (Gw.opponent_names d) in
    match teams_dict self !! h with
    | None => Raises KeyError
    | Some name_h =>
      let opponent_names := <[a := name_h]> opponent_names in
      let is_home := <[a := false]> (<[h := true]> (Gw.is_home d)) in
      Returns (Gw.mk team_next_opponent opponent_names is_home)
    end
  end.

Module Captain.
(** One captain candidate dict; [vice_score] is the key that
    [suggest_vice_captain] adds. *)
Record t := mk {
  player_name : string;
  player_id : Z;
  team : cell string;
  position : cell string;
  price : Q;
  captain_score : Q;
  form : Q;
  opponent : cell string;
  is_home : cell bool;
  fixture_difficulty : Z;
  expected_points : Q;
  is_web_captain : bool;
  total_points : Z;
  selected_by : Q;
  vice_score : option Q
}.
End Captain.

Definition position_multipliers : gmap string Q :=
  list_to_map [("FWD", 1.2%Q); ("MID", 1.1%Q); ("DEF", 0.9%Q); ("GK", 0.5%Q)].

(** [position_multipliers.get(player['position_name'], 1.0)] *)
Definition position_multiplier (pos : cell string) : Q :=
  match pos with
  | Val s => default 1.0%Q (position_multipliers !! s)
  | NaN => 1.0%Q
  end.

(** [if player['is_home']:] — a NaN cell is truthy. *)
Definition cell_truthy (c : cell bool) : bool :=
  match c with Val b => b | NaN => true end.

(** Step 4 of the loop body: the web captaincy score and [is_web_captain]. *)
Definition web_captain_score_of (self : FPLRecommender) (player : Element.t)
  : outcome (Q * bool) :=
  match web_aggregator self with
  | Some web_aggregator =>
    let player_name := full_name player in
    let recs_df := recommendations (player_data web_aggregator) in
    match recs_df with
    | [] => Returns (5.0%Q, false)
    | _ =>
      named ← str_contains_rows Rec.player_name player_name recs_df;
      let captain_recs :=
        List.filter (λ r, String.eqb (Rec.recommendation_type r) "captain") named in
      match captain_recs with
      | _ :: _ =>
        let captain_mentions := length captain_recs in
        Returns (py_min 10 (7 + Q_of_nat captain_mentions * 1.5)%Q, true)
      | [] =>
        consensus ← get_player_consensus_score web_aggregator player_name;
        if (0 <? mention_count consensus)%nat
        then Returns (py_min (consensus_score consensus * 1.2)%Q 10, false)
        else Returns (5.0%Q, false)
      end
    end
  | None => Returns (5.0%Q, false)
  end.

(** Step 1: the score of the next fixture, neutral when there is none. *)
Definition next_fixture_score (self : FPLRecommender) (player : Element.t) : Q :=
  match get_player_fixtures self (Element.id player) 1 with
  | f :: _ => ((6 - inject_Z (Summary.difficulty f)) / 5 * 10)%Q
  | [] => 5.0%Q
  end.

(** The weighted sum followed by the home bonus: the captain score before the
    position multiplier is applied. *)
Definition captain_base (fixture_score form_score historical_score
  web_captain_score : Q) (is_home : cell bool) : Q :=
  let captain_score :=
    (fixture_score * 0.40 + form_score * 0.25 + historical_score * 0.20
     + web_captain_score * 0.15)%Q in
  if cell_truthy is_home then (captain_score + 0.5)%Q else captain_score.

(** Position multiplier, then the premium bonus. *)
Definition captain_finish (captain_score : Q) (pos : cell string) (value : Q) : Q :=
  let captain_score := (captain_score * position_multiplier pos)%Q in
  if Qle_bool 10.0 value then (captain_score + 0.5)%Q else captain_score.

(** Body of [for _, player in current_squad_df.iterrows()]. *)
Definition captain_candidate (self : FPLRecommender) (d : Gw.dicts)
  (player : Element.t) : outcome Captain.t :=
  let player_id := Element.id player in
  let next_opponent := series_map (Gw.team_next_opponent d) (Element.team player) in
  let opponent_name := series_map (Gw.opponent_names d) (Element.team player) in
  let is_home := series_map (Gw.is_home d) (Element.team player) in
  let next_fixture := get_player_fixtures self player_id 1 in
  let fixture_score := next_fixture_score self player in
  let form_score := form_score_of player in
  let historical_score :=
    historical_score_of self player_id (opponent_of_cell next_opponent) in
  web ← web_captain_score_of self player;
  let captain_score :=
    captain_base fixture_score form_score historical_score web.1 is_home in
  let captain_score :=
    captain_finish captain_score (position_name player) (value player) in
  let fixture_ease :=
    match next_fixture with
    | f :: _ => ((6 - inject_Z (Summary.difficulty f)) / 5)%Q
    | [] => 0.5%Q
    end in
  let expected_points :=
    (Element.form_numeric player * fixture_ease
     * position_multiplier (position_name player) * 2)%Q in
  Returns {| Captain.player_name := full_name player;
             Captain.player_id := player_id;
             Captain.team := team_name self player;
             Captain.position := position_name player;
             Captain.price := value player;
             Captain.captain_score := captain_score;
             Captain.form := Element.form_numeric player;
             Captain.opponent := opponent_name;
             Captain.is_home := is_home;
             Captain.fixture_difficulty :=
               match next_fixture with
               | f :: _ => Summary.difficulty f
               | [] => 3%Z
               end;
             Captain.expected_points := expected_points;
             Captain.is_web_captain := web.2;
             Captain.total_points := Element.total_points player;
             Captain.selected_by := Element.selected_by_percent_numeric player;
             Captain.vice_score := None |}.

Definition suggest_captain (self : FPLRecommender) (top_n : Z)
  : outcome (list Captain.t) :=
  let current_squad_df := get_current_squad_df self in
  let fixtures := get_fixtures_for_gameweek self (current_gameweek self) in
  d ← for_each fixtures (add_fixture self) Gw.empty;
  captain_candidates ← df_apply (captain_candidate self d) current_squad_df;
  let captain_candidates :=
    sort_descending Captain.captain_score captain_candidates in
  Returns (py_slice_to top_n captain_candidates).

(** [option['selected_by'] < 5.0], on the double the column holds. *)
Definition low_ownership (option : Captain.t) : bool :=
  PrimFloat.ltb (Binary64.of_Q (Captain.selected_by option)) 5.

(** [option['total_points'] / max(option['form'], 1)]: the quotient is
    rounded to a double before it is compared with 15, so 21 / 1.4 is
    15.000000000000002 and passes the test. *)
Definition consistency (option : Captain.t) : float :=
  (Binary64.of_Z (Captain.total_points option)
   / Binary64.py_max (Binary64.of_Q (Captain.form option)) 1)%float.

(** The value [suggest_vice_captain] stores under [vice_score]. *)
Definition vice_score_of (option : Captain.t) : Q :=
  let vice_score :=
    if low_ownership option
    then (Captain.captain_score option * 0.8)%Q
    else Captain.captain_score option in
  if PrimFloat.ltb 15 (consistency option) then (vice_score + 0.5)%Q else vice_score.

Definition set_vice_score (option : Captain.t) : Captain.t :=
  {| Captain.player_name := Captain.player_name option;
     Captain.player_id := Captain.player_id option;
     Captain.team := Captain.team option;
     Captain.position := Captain.position option;
     Captain.price := Captain.price option;
     Captain.captain_score := Captain.captain_score option;
     Captain.form := Captain.form option;
     Captain.opponent := Captain.opponent option;
     Captain.is_home := Captain.is_home option;
     Captain.fixture_difficulty := Captain.fixture_difficulty option;
     Captain.expected_points := Captain.expected_points option;
     Captain.is_web_captain := Captain.is_web_captain option;
     Captain.total_points := Captain.total_points option;
     Captain.selected_by := Captain.selected_by option;
     Captain.vice_score := Some (vice_score_of option) |}.

(** The sort key [x['vice_score']]; the key is set on every option by then. *)
Definition vice_key (option : Captain.t) : Q :=
  default 0%Q (Captain.vice_score option).

Definition suggest_vice_captain (self : FPLRecommender)
  (captain_choice : option string) : outcome (option Captain.t) :=
  captain_options ← suggest_captain self 15;
  let captain_options :=
    match str_truthy captain_choice with
    | Some captain_choice =>
        List.filter (λ opt, negb (String.eqb (str_lower (Captain.player_name opt))
                                             (str_lower captain_choice)))
                    captain_options
    | None => captain_options
    end in
  let captain_options := map set_vice_score captain_options in
  let captain_options := sort_descending vice_key captain_options in
  Returns (head captain_options).



(** * Specification vocabulary and concrete states *)

(** Web-signal integration is off: the flag is unset or no aggregator is
    loaded. *)
Definition web_disabled (self : FPLRecommender) : Prop :=
  use_web_data self = false ∨ web_aggregator self = None.

(** The player has met the next opponent in no recorded match (or there is no
    next opponent). *)
Definition no_history (self : FPLRecommender) (player_id : Z)
  (next_opponent : opponent) : Prop :=
  ∀ s, element_summary self player_id = Some s →
  ∀ h, h ∈ Summary.history s → next_opponent ≠ Opponent (Summary.opponent_team h).

Definition haaland : Element.t :=
  Element.mk 7 "Erling" "Haaland" 4 13 140 8.0%Q 200 100.0%Q 50.0%Q "a".

(** Five easy fixtures ahead, no match played yet, web integration off. *)
Definition scenario_state : FPLRecommender :=
  {| players_df := [haaland];
     teams := [Team.mk 13 "Man City" "MCI"; Team.mk 1 "Arsenal" "ARS"];
     data_fixtures := [Fixture.mk (Some 1%Z) 13 1];
     current_gameweek := 1;
     squad_ids := [7%Z];
     budget := 0.5%Q;
     use_web_data := false;
     web_aggregator := None;
     element_summary := λ _,
       Some (Summary.mk (replicate 5 (Summary.mk_upcoming 2)) []) |}.

(** A query that holds no character with a meaning in a regular expression:
    the pattern is a plain text. *)
Definition re_plain (pat : string) : bool :=
  forallb (λ c, negb (Ascii.eqb c ".") && negb (re_special c))
          (list_ascii_of_string pat).

(** [stored] holds [name] as a substring, case ignored. *)
Definition ci_contains (name stored : string) : Prop :=
  ∃ pre post, str_lower stored = pre +:+ str_lower name +:+ post.

Definition store_of (recs : list Rec.t) : ScraperAggregator :=
  {| player_data := {| recommendations := recs; injury_news := [];
                       lineups := ∅ |} |}.

Definition salah_store : ScraperAggregator := store_of [rec_salah_captain].

(** The keys of [type_weights] and of [sentiment_scores]. *)
Definition listed_types : list string :=
  ["captain"; "essential"; "transfer"; "differential"; "general"; "budget"; "avoid"].

Definition listed_sentiments : list string := ["positive"; "neutral"; "negative"].

(** Three signals on one player: a type and a sentiment the tables do not
    list, next to two ordinary ones. *)
Definition mixed_store : ScraperAggregator :=
  store_of [Rec.mk "Blog" "Bukayo Saka" "punt" "mixed";
            Rec.mk "Scout" "Bukayo Saka" "essential" "positive";
            Rec.mk "Blog" "Saka" "avoid" "negative";
            Rec.mk "Blog" "Cole Palmer" "transfer" "neutral"].

Definition salah : Element.t :=
  Element.mk 11 "Mohamed" "Salah" 3 12 130 7.5%Q 180 250.0%Q 45.0%Q "i".

(** Salah is reported out, is still listed in a predicted line-up, and three
    articles recommend him. *)
Definition injured_aggregator : ScraperAggregator :=
  {| player_data :=
       {| recommendations :=
            [Rec.mk "Scout" "Mohamed Salah" "captain" "positive";
             Rec.mk "Blog" "Mohamed Salah" "essential" "positive";
             Rec.mk "Blog" "Mohamed Salah" "general" "neutral"];
          injury_news := [Injury.mk "Scout" "Mohamed Salah" "out"];
          lineups := {[ "Liverpool" := ["Alisson Becker"; "Mohamed Salah"] ]} |} |}.

Definition injured_state : FPLRecommender :=
  {| players_df := [salah];
     teams := [Team.mk 12 "Liverpool" "LIV"; Team.mk 1 "Arsenal" "ARS"];
     data_fixtures := [Fixture.mk (Some 1%Z) 12 1];
     current_gameweek := 1;
     squad_ids := [11%Z];
     budget := 0.0%Q;
     use_web_data := true;
     web_aggregator := Some injured_aggregator;
     element_summary := λ _, None |}.

(** The number of squad rows of a club. *)
Definition club_count (squad : list Element.t) (club : Z) : nat :=
  length (List.filter (λ p, (Element.team p =? club)%Z) squad).

(** The squad once [out_row] is sold and [in_row] bought. *)
Definition squad_after (squad : list Element.t) (out_row in_row : Element.t)
  : list Element.t :=
  in_row :: List.filter (λ p, negb (Element.id p =? Element.id out_row)%Z) squad.

(** [t] is the dict the inner loop builds for a removal [o] of the scored
    squad and a replacement [i] of the scored pool, after its two tests. *)
Definition accepted (self : FPLRecommender) (squad available : list Scored.t)
  (t : Transfer.t) : Prop :=
  ∃ pos o i web_mentions web_sentiment,
    o ∈ squad ∧ i ∈ available
    ∧ t = mk_transfer self pos o i
            (Scored.player_score i - Scored.player_score o)%Q
            web_mentions web_sentiment
    ∧ (0.5 < Scored.player_score i - Scored.player_score o)%Q
    ∧ (Element.team (Scored.row i) ≠ Element.team (Scored.row o) →
       (club_count (map Scored.row squad) (Element.team (Scored.row i)) <= 2)%nat).

(** What a returned suggestion must satisfy on its improvement. *)
Definition improves (t : Transfer.t) : Prop :=
  (0.5 < Transfer.improvement t)%Q
  ∧ (Transfer.improvement t == Transfer.in_score t - Transfer.out_score t)%Q.

Definition weak_mid : Element.t :=
  Element.mk 1 "Weak" "Mid" 3 1 50 1.0%Q 20 10.0%Q 2.0%Q "a".
Definition strong_mid : Element.t :=
  Element.mk 2 "Strong" "Mid" 3 2 55 8.0%Q 150 150.0%Q 30.0%Q "a".
Definition pricey_mid : Element.t :=
  Element.mk 3 "Pricey" "Mid" 3 3 120 9.0%Q 190 200.0%Q 60.0%Q "a".
Definition squad_def : Element.t :=
  Element.mk 4 "Steady" "Def" 2 2 45 4.0%Q 80 60.0%Q 10.0%Q "a".

(** A squad of two with 1.0 in the bank; one midfielder outside the squad is
    affordable, the other is not.  No web data, no API answer. *)
Definition transfer_state : FPLRecommender :=
  {| players_df := [weak_mid; strong_mid; pricey_mid; squad_def];
     teams := [Team.mk 1 "Arsenal" "ARS"; Team.mk 2 "Aston Villa" "AVL";
               Team.mk 3 "Chelsea" "CHE"];
     data_fixtures := [];
     current_gameweek := 1;
     squad_ids := [1%Z; 4%Z];
     budget := 1.0%Q;
     use_web_data := false;
     web_aggregator := None;
     element_summary := λ _, None |}.

(** The same row with another [element_type]: every other input is kept. *)
Definition with_element_type (p : Element.t) (element_type : Z) : Element.t :=
  Element.mk (Element.id p) (Element.first_name p) (Element.second_name p)
             element_type (Element.team p) (Element.now_cost p)
             (Element.form_numeric p) (Element.total_points p)
             (Element.ict_index_numeric p)
             (Element.selected_by_percent_numeric p) (Element.status p).

(** The captain score of [player] before the position multiplier, for a web
    captaincy score [web]. *)
Definition captain_base_of (self : FPLRecommender) (d : Gw.dicts)
  (player : Element.t) (web : Q) : Q :=
  captain_base
    (next_fixture_score self player) (form_score_of player)
    (historical_score_of self (Element.id player)
       (opponent_of_cell
          (series_map (Gw.team_next_opponent d) (Element.team player))))
    web
    (series_map (Gw.is_home d) (Element.team player)).

(** Jo Doe plays away against a side he once got -1 point against, the
    fixture is rated 5, his form is 0, and one article files him under
    "avoid" while its text reads positive. *)
Definition jo_doe (element_type : Z) : Element.t :=
  Element.mk 21 "Jo" "Doe" element_type 1 45 0.0%Q 10 5.0%Q 1.0%Q "a".

Definition avoid_state (element_type : Z) : FPLRecommender :=
  {| players_df := [jo_doe element_type];
     teams := [Team.mk 1 "Arsenal" "ARS"; Team.mk 2 "Aston Villa" "AVL"];
     data_fixtures := [Fixture.mk (Some 1%Z) 2 1];
     current_gameweek := 1;
     squad_ids := [21%Z];
     budget := 0.0%Q;
     use_web_data := true;
     web_aggregator := Some (store_of [Rec.mk "Blog" "Jo Doe" "avoid" "positive"]);
     element_summary := λ _,
       Some (Summary.mk [Summary.mk_upcoming 5] [Summary.mk_past 2 (-1)]) |}.

(** The vice score in the words of the specification: the captain score,
    times 0.8 when ownership is below 5.0, plus 0.5 when season points over
    max(form, 1) exceed 15.  Both tests are the program's own, on doubles. *)
Definition spec_vice_score (c : Captain.t) : Q :=
  (Captain.captain_score c * (if low_ownership c then 0.8 else 1)
   + (if PrimFloat.ltb 15 (consistency c) then 0.5 else 0))%Q.

(** Two squad members with a fixture each; Salah is the web captain pick. *)
Definition captain_state : FPLRecommender :=
  {| players_df := [salah; haaland];
     teams := [Team.mk 1 "Arsenal" "ARS"; Team.mk 2 "Aston Villa" "AVL";
               Team.mk 12 "Liverpool" "LIV"; Team.mk 13 "Man City" "MCI"];
     data_fixtures := [Fixture.mk (Some 1%Z) 12 1; Fixture.mk (Some 1%Z) 2 13;
                       Fixture.mk (Some 2%Z) 13 12];
     current_gameweek := 1;
     squad_ids := [7%Z; 11%Z];
     budget := 0.0%Q;
     use_web_data := true;
     web_aggregator := Some injured_aggregator;
     element_summary := λ _,
       Some (Summary.mk [Summary.mk_upcoming 2; Summary.mk_upcoming 4]
                        [Summary.mk_past 1 12; Summary.mk_past 2 6]) |}.

(** Every rating of the player's upcoming fixtures lies between 1 and 5. *)
Definition difficulties_rated (self : FPLRecommender) (player_id : Z) : Prop :=
  ∀ s, element_summary self player_id = Some s →
  Forall (λ f, (1 <= Summary.difficulty f <= 5)%Z) (Summary.fixtures s).

(** No past match of the player ended on a negative points total. *)
Definition history_non_negative (self : FPLRecommender) (player_id : Z) : Prop :=
  ∀ s, element_summary self player_id = Some s →
  Forall (λ h, (0 <= Summary.total_points h)%Z) (Summary.history s).

(** [l] is in descending order of [key] (ties allowed). *)
Definition descending {A : Type} (key : A → Q) (l : list A) : Prop :=
  StronglySorted (λ x y, (key y <= key x)%Q) l.

(** What the loops of [suggest_transfers] guarantee of a suggestion [t]: it
    swaps a squad row for an active row from outside the squad, both of the
    position [t] is filed under, at a price the bank plus the sale covers. *)
Definition eligible (self : FPLRecommender) (position_filter : option string)
  (t : Transfer.t) : Prop :=
  ∃ o i,
    o ∈ get_current_squad_df self
    ∧ i ∈ players_df self
    ∧ (Element.id i ∉ squad_ids self)
    ∧ Element.status i = "a"
    ∧ Transfer.position t ∈ ["GK"; "DEF"; "MID"; "FWD"]
    ∧ position_name o = Val (Transfer.position t)
    ∧ position_name i = Val (Transfer.position t)
    ∧ (∀ wanted, str_truthy position_filter = Some wanted →
                 Transfer.position t = wanted)
    ∧ Transfer.out_player_id t = Element.id o
    ∧ Transfer.in_player_id t = Element.id i
    ∧ Transfer.out_price t = value o
    ∧ Transfer.in_price t = value i
    ∧ (Transfer.in_price t <= budget self + Transfer.out_price t)%Q.

(** The same guarantee on the scored frames the loops run over. *)
Definition paired (self : FPLRecommender) (position_filter : option string)
  (squad available : list Scored.t) (t : Transfer.t) : Prop :=
  ∃ pos o i,
    o ∈ squad ∧ i ∈ available
    ∧ pos ∈ ["GK"; "DEF"; "MID"; "FWD"]
    ∧ cell_is (position_name (Scored.row o)) pos = true
    ∧ cell_is (position_name (Scored.row i)) pos = true
    ∧ (∀ wanted, str_truthy position_filter = Some wanted → pos = wanted)
    ∧ (value (Scored.row i) <= budget self + value (Scored.row o))%Q
    ∧ Transfer.position t = pos
    ∧ Transfer.out_player_id t = Element.id (Scored.row o)
    ∧ Transfer.in_player_id t = Element.id (Scored.row i)
    ∧ Transfer.out_price t = value (Scored.row o)
    ∧ Transfer.in_price t = value (Scored.row i).

(** [team] plays in [fixture], at home or away. *)
Definition plays_in (team : Z) (fixture : Fixture.t) : Prop :=
  Fixture.team_h fixture = team ∨ Fixture.team_a fixture = team.

(** One fixture for Liverpool, whose opponent is missing from the teams. *)
Definition unlisted_team_state : FPLRecommender :=
  {| players_df := [salah];
     teams := [Team.mk 12 "Liverpool" "LIV"];
     data_fixtures := [Fixture.mk (Some 1%Z) 12 1];
     current_gameweek := 1;
     squad_ids := [11%Z];
     budget := 0.0%Q;
     use_web_data := false;
     web_aggregator := None;
     element_summary := λ _, None |}.

(** The option [c] bears the supplied captain name, case ignored. *)
Definition bears_name (captain_choice : option string) (c : Captain.t) : Prop :=
  ∃ name, captain_choice = Some name
          ∧ str_lower (Captain.player_name c) = str_lower name.

Definition avoid_state_gk : FPLRecommender := avoid_state 1.

(** * The scrapers' text heuristics ([fpl_web_scraper.py])

    The pieces of [FantasyFootballScoutScraper] that turn a fetched text into
    the fields of a signal.  Fetching and HTML parsing are inputs. *)

(** [any(word in text for word in words)] and the count
    [sum(1 for word in words if word in text)]. *)
Definition any_in (words : list string) (text : string) : bool :=
  existsb (λ word, str_in word text) words.

Definition count_in (words : list string) (text : string) : nat :=
  length (List.filter (λ word, str_in word text) words).

Definition _classify_recommendation_type (title : string) : string :=
  let title_lower := str_lower title in
  if str_in "captain" title_lower then "captain"
  else if str_in "differential" title_lower then "differential"
  else if str_in "transfer" title_lower then "transfer"
  else if str_in "budget" title_lower || str_in "cheap" title_lower then "budget"
  else if str_in "avoid" title_lower then "avoid"
  else if str_in "must" title_lower || str_in "essential" title_lower
       then "essential"
  else "general".

Definition positive_words : list string :=
  ["recommend"; "great"; "excellent"; "best"; "strong"; "essential";
   "must-have"; "fantastic"; "form"; "fixture"].

Definition negative_words : list string :=
  ["avoid"; "poor"; "doubt"; "injury"; "rotation"; "risk";
   "benched"; "dropped"; "concern"].

Definition _analyze_sentiment (text : string) : string :=
  let text_lower := str_lower text in
  let pos_count := count_in positive_words text_lower in
  let neg_count := count_in negative_words text_lower in
  if Qltb (Q_of_nat neg_count * 1.5)%Q (Q_of_nat pos_count) then "positive"
  else if Qltb (Q_of_nat pos_count * 1.5)%Q (Q_of_nat neg_count) then "negative"
  else "neutral".

Definition injury_keywords : list string :=
  ["injury"; "doubt"; "suspended"; "banned"; "out"; "ruled out";
   "fitness"; "unavailable"; "sidelined"; "red card"].

(** The status that [scrape_injury_news] derives from the text of an item. *)
Definition injury_status_of_text (text : string) : string :=
  let text_lower := str_lower text in
  if str_in "ruled out" text_lower || str_in "out" text_lower then "out"
  else if str_in "doubt" text_lower then "doubtful"
  else if str_in "suspended" text_lower || str_in "banned" text_lower
       then "suspended"
  else "unknown".

(** The entries [scrape_injury_news] appends for one news item, given the
    names that [extract_player_names_from_text] found in it: none unless the
    text holds an injury keyword. *)
Definition injury_news_of_item (source_name text : string)
  (player_names : list string) : list Injury.t :=
  if any_in injury_keywords (str_lower text)
  then map (λ player_name,
              Injury.mk source_name player_name (injury_status_of_text text))
           player_names
  else [].

(** The signals [scrape_player_recommendations] appends for one article, given
    the names extracted from its text. *)
Definition recommendations_of_article (source_name article_title text_content : string)
  (player_names : list string) : list Rec.t :=
  let rec_type := _classify_recommendation_type article_title in
  let sentiment := _analyze_sentiment text_content in
  map (λ player_name, Rec.mk source_name player_name rec_type sentiment)
      player_names.

(** ** [normalize_player_name] (both scraper files)

    Whitespace is the ASCII one of [str.isspace]: tab to carriage return,
    the four separators 28-31 and the space. *)

Definition py_isspace (c : ascii) : bool :=
  let n := nat_of_ascii c in
  ((9 <=? n) && (n <=? 13))%nat || ((28 <=? n) && (n <=? 32))%nat.

(** [s.split()]: the maximal runs of non-whitespace; [word] is the run being
    read. *)
Fixpoint split_from (word s : string) : list string :=
  match s with
  | EmptyString => match word with EmptyString => [] | _ => [word] end
  | String c s' =>
      if py_isspace c
      then match word with
           | EmptyString => split_from "" s'
           | _ => word :: split_from "" s'
           end
      else split_from (word +:+ String c "") s'
  end.

Definition py_split (s : string) : list string := split_from "" s.

(** [sep.join(words)] *)
Fixpoint py_join (sep : string) (words : list string) : string :=
  match words with
  | [] => ""
  | [w] => w
  | w :: ws => w +:+ sep +:+ py_join sep ws
  end.

Fixpoint py_lstrip (s : string) : string :=
  match s with
  | EmptyString => ""
  | String c s' => if py_isspace c then py_lstrip s' else s
  end.

Fixpoint py_rstrip (s : string) : string :=
  match s with
  | EmptyString => ""
  | String c s' =>
      match py_rstrip s' with
      | EmptyString => if py_isspace c then "" else String c ""
      | r => String c r
      end
  end.

(** [s.strip()] *)
Definition py_strip (s : string) : string := py_rstrip (py_lstrip s).

Definition normalize_player_name (name : string) : string :=
  let name := py_join " " (py_split name) in
  let name := py_strip name in
  name.

(** No character of [s] is a whitespace. *)
Fixpoint nospace (s : string) : Prop :=
  match s with
  | EmptyString => True
  | String c s' => py_isspace c = false ∧ nospace s'
  end.

(** A word: not empty and free of whitespace. *)
Definition word_ok (w : string) : Prop := w ≠ "" ∧ nospace w.

(** Injury entries in scrape order: the second one is the later news. *)
Definition injury_store : ScraperAggregator :=
  {| player_data :=
       {| recommendations := [];
          injury_news := [Injury.mk "Scout" "Cole Palmer" "doubtful";
                          Injury.mk "Scout" "Bukayo Saka" "doubtful";
                          Injury.mk "Blog" "Saka" "out"];
          lineups := {[ "Arsenal" := ["David Raya"; "Bukayo Saka"] ]} |} |}.

(** ** [ScraperAggregator.scrape_all]

    One pass over a scraper is three calls, each inside its own
    [try]/[except]: what a call hands back in this run, [None] when it
    raises.  (The odds list is not modelled.) *)

Module Scraper.
Record t := mk {
  source_name : string;
  scrape_player_recommendations : option (list Rec.t);
  scrape_injury_news : option (list Injury.t);
  scrape_expected_lineups : option (gmap string (list string))
}.
End Scraper.

(** Body of [for scraper in self.scrapers]: [extend] for the two lists,
    [update] for the dict; a call that raised adds nothing. *)
Definition scrape_one (data : PlayerData) (scraper : Scraper.t) : PlayerData :=
  {| recommendations :=
       (recommendations data
        ++ default [] (Scraper.scrape_player_recommendations scraper))%list;
     injury_news :=
       (injury_news data ++ default [] (Scraper.scrape_injury_news scraper))%list;
     lineups :=
       default ∅ (Scraper.scrape_expected_lineups scraper) ∪ lineups data |}.

Definition scrape_all (self : ScraperAggregator) (scrapers : list Scraper.t)
  : ScraperAggregator :=
  {| player_data := fold_left scrape_one scrapers (player_data self) |}.

(** [ScraperAggregator.__init__] *)
Definition new_aggregator : ScraperAggregator :=
  {| player_data := {| recommendations := []; injury_news := []; lineups := ∅ |} |}.

Definition two_scrapers : list Scraper.t :=
  [Scraper.mk "Scout" (Some [rec_salah_captain]) None
              (Some {[ "Liverpool" := ["Mohamed Salah"] ]});
   Scraper.mk "Broken" None (Some []) None;
   Scraper.mk "Blog" (Some [Rec.mk "Blog" "Salah" "avoid" "neutral"]) (Some [])
              (Some {[ "Liverpool" := ["Alisson Becker"] ]})].

(** ** The current gameweek ([FPLRecommender.fetch_fpl_data]) *)

Module Event.
(** One entry of [data['events']]. *)
Record t := mk { id : Z; is_current : bool; is_next : bool }.
End Event.

(** [next(generator, default)] *)
Definition py_next {A : Type} (generator : list A) (default_value : A) : A :=
  default default_value (head generator).

(** The gameweek set on a cache hit. *)
Definition cached_gameweek (events : list Event.t) : Z :=
  py_next (map Event.id (List.filter Event.is_current events))
          (py_next (map Event.id (List.filter Event.is_next events)) 1%Z).

(** The gameweek set after a fresh download: the first look-up defaults to
    [None], and a falsy result ([None] or 0) triggers the second one. *)
Definition fresh_gameweek (events : list Event.t) : Z :=
  let current_gameweek := head (map Event.id (List.filter Event.is_next events)) in
  match current_gameweek with
  | Some g =>
      if (g =? 0)%Z
      then py_next (map Event.id (List.filter Event.is_next events)) 1%Z
      else g
  | None => py_next (map Event.id (List.filter Event.is_next events)) 1%Z
  end.

(** ** The Scout Selection scraper ([fpl_scout_scraper.py]) *)

(** [if captain_name and captain_name.lower() in player_name.lower()] *)
Definition names_captain (captain_name : option string) (player_name : string)
  : bool :=
  match str_truthy captain_name with
  | Some captain_name => str_in (str_lower captain_name) (str_lower player_name)
  | None => false
  end.

(** The type given to a priced player: [vice_captain_name] is never set, so
    its branch is never taken. *)
Definition scout_rec_type (captain_name : option string) (player_name : string)
  : string :=
  let rec_type := "general" in
  let rec_type := if names_captain captain_name player_name then "captain"
                  else rec_type in
  if String.eqb rec_type "general" then "essential" else rec_type.

(** First loop of [scrape_player_recommendations]: one signal per match of
    the "Name (Team) £X.Xm" pattern ([player_matches] lists the names). *)
Definition scout_priced (source_name : string) (captain_name : option string)
  (player_matches : list string) : list Rec.t :=
  map (λ player_name,
         let player_name := normalize_player_name player_name in
         Rec.mk source_name player_name
                (scout_rec_type captain_name player_name) "positive")
      player_matches.

(** Second loop: the names read off the paragraph heads, each added unless a
    signal already bears the name. *)
Definition scout_paragraphs (source_name : string) (captain_name : option string)
  (potential_names : list string) (recommendations : list Rec.t) : list Rec.t :=
  fold_left
    (λ recommendations potential_name,
       let player_name := normalize_player_name potential_name in
       if existsb (λ r, String.eqb (Rec.player_name r) player_name) recommendations
       then recommendations
       else
         let rec_type := if names_captain captain_name player_name
                         then "captain" else "essential" in
         (recommendations
          ++ [Rec.mk source_name player_name rec_type "positive"])%list)
    potential_names recommendations.

Definition scout_recommendations (source_name : string)
  (captain_name : option string) (player_matches potential_names : list string)
  : list Rec.t :=
  scout_paragraphs source_name captain_name potential_names
    (scout_priced source_name captain_name player_matches).


(** No name of the player table can be misread as a regular expression, or
    no aggregator is loaded at all. *)
Definition names_plain (self : FPLRecommender) : Prop :=
  web_aggregator self = None
  ∨ ∀ p, p ∈ players_df self → re_plain (full_name p) = true.

(** Every team of the fixture is an entry of [data['teams']]. *)
Definition teams_listed (self : FPLRecommender) (fixture : Fixture.t) : Prop :=
  Fixture.team_a fixture ∈ map Team.id (teams self)
  ∧ Fixture.team_h fixture ∈ map Team.id (teams self).

(** ** Further concrete states *)

(** The season is over: the API lists matches played and no fixture ahead. *)
Definition season_over_state : FPLRecommender :=
  {| players_df := [haaland];
     teams := [Team.mk 13 "Man City" "MCI"; Team.mk 1 "Arsenal" "ARS"];
     data_fixtures := [];
     current_gameweek := 38;
     squad_ids := [7%Z];
     budget := 0.0%Q;
     use_web_data := false;
     web_aggregator := None;
     element_summary := λ _,
       Some (Summary.mk [] [Summary.mk_past 1 12; Summary.mk_past 2 6]) |}.

(** The rows [suggest_transfers] scores as [available_players]: active
    players outside the squad, of the wanted position when one is given. *)
Definition available_players_of (self : FPLRecommender)
  (position_filter : option string) : list Element.t :=
  let available_players :=
    List.filter (λ p, negb (bool_decide (Element.id p ∈ squad_ids self))
                      && String.eqb (Element.status p) "a") (players_df self) in
  match str_truthy position_filter with
  | Some wanted =>
      List.filter (λ p, cell_is (position_name p) wanted) available_players
  | None => available_players
  end.

(** A player of form [form] and nothing else to his name, priced 5.0. *)
Definition plain_player (id : Z) (second_name : string) (element_type team : Z)
  (form : Q) : Element.t :=
  Element.mk id "Pl" second_name element_type team 50 form 0 0.0%Q 10.0%Q "a".

(** A squad of one defender and one midfielder, both of form 1.0, and seven
    players on the market, three defenders and four midfielders, each at
    another club; no web data, no API answer.  The seven improvements are
    0.3 apart, from 0.6 to 2.4. *)
Definition market_state : FPLRecommender :=
  {| players_df :=
       [plain_player 1 "Def" 2 1 1.0%Q; plain_player 2 "Mid" 3 1 1.0%Q;
        plain_player 11 "Dfour" 2 2 4.0%Q; plain_player 12 "Mfive" 3 3 5.0%Q;
        plain_player 13 "Mnine" 3 4 9.0%Q; plain_player 14 "Deight" 2 5 8.0%Q;
        plain_player 15 "Mthree" 3 6 3.0%Q; plain_player 16 "Dsix" 2 7 6.0%Q;
        plain_player 17 "Mseven" 3 8 7.0%Q];
     teams := map (λ i, Team.mk i "Club" "CLB") [1; 2; 3; 4; 5; 6; 7; 8]%Z;
     data_fixtures := [];
     current_gameweek := 1;
     squad_ids := [1%Z; 2%Z];
     budget := 0.0%Q;
     use_web_data := false;
     web_aggregator := None;
     element_summary := λ _, None |}.

(** Three forwards of one squad, Arsenal at home to Aston Villa.  Be Ta has
    21 points at form 1.4: on doubles 21 / 1.4 is just above 15. *)
Definition cap_tain : Element.t :=
  Element.mk 31 "Cap" "Tain" 4 1 90 9.0%Q 120 80.0%Q 40.0%Q "a".
Definition al_pha : Element.t :=
  Element.mk 32 "Al" "Pha" 4 2 80 4.0%Q 40 30.0%Q 20.0%Q "a".
Definition be_ta : Element.t :=
  Element.mk 33 "Be" "Ta" 4 1 70 1.4%Q 21 10.0%Q 12.0%Q "a".

Definition boundary_state : FPLRecommender :=
  {| players_df := [cap_tain; al_pha; be_ta];
     teams := [Team.mk 1 "Arsenal" "ARS"; Team.mk 2 "Aston Villa" "AVL"];
     data_fixtures := [Fixture.mk (Some 1%Z) 1 2];
     current_gameweek := 1;
     squad_ids := [31%Z; 32%Z; 33%Z];
     budget := 0.0%Q;
     use_web_data := false;
     web_aggregator := None;
     element_summary := λ _, None |}.

(** Al Bis has Al Pha's numbers in every column; Dif Ferential has the
    better form and an ownership of 2.0. *)
Definition al_bis : Element.t :=
  Element.mk 34 "Al" "Bis" 4 2 80 4.0%Q 40 30.0%Q 20.0%Q "a".
Definition dif_ferential : Element.t :=
  Element.mk 35 "Dif" "Ferential" 4 2 60 5.0%Q 50 40.0%Q 2.0%Q "a".

Definition twins_state : FPLRecommender :=
  {| players_df := [al_pha; al_bis; dif_ferential; cap_tain];
     teams := [Team.mk 1 "Arsenal" "ARS"; Team.mk 2 "Aston Villa" "AVL"];
     data_fixtures := [Fixture.mk (Some 1%Z) 1 2];
     current_gameweek := 1;
     squad_ids := [31%Z; 32%Z; 34%Z; 35%Z];
     budget := 0.0%Q;
     use_web_data := false;
     web_aggregator := None;
     element_summary := λ _, None |}.
(** * Properties *)

(** ** Arithmetic helpers *)

Lemma Qltb_lt (x y : Q) : Qltb x y = true ↔ (x < y)%Q.
Proof.
  unfold Qltb. rewrite negb_true_iff.
  destruct (Qle_bool y x) eqn:E.
  - apply Qle_bool_iff in E. split; [discriminate | intros H; exfalso; lra].
  - split; [intros _ | reflexivity].
    apply Qnot_le_lt. intros H. apply Qle_bool_iff in H. congruence.
Qed.

Lemma Qltb_ge (x y : Q) : Qltb x y = false ↔ (y <= x)%Q.
Proof.
  unfold Qltb. rewrite negb_false_iff. apply Qle_bool_iff.
Qed.

Lemma Qle_bool_gt (x y : Q) : Qle_bool x y = false ↔ (y < x)%Q.
Proof.
  pose proof (Qltb_lt y x) as H. unfold Qltb in H.
  rewrite negb_true_iff in H. exact H.
Qed.

(** Split on every comparison of the goal and turn it into a fact for [lra]. *)
Ltac q_case :=
  match goal with
  | |- context [Qltb ?a ?b] =>
      let E := fresh "E" in
      destruct (Qltb a b) eqn:E;
      [apply Qltb_lt in E | apply Qltb_ge in E]
  | |- context [Qle_bool ?a ?b] =>
      let E := fresh "E" in
      destruct (Qle_bool a b) eqn:E;
      [apply Qle_bool_iff in E | apply Qle_bool_gt in E]
  end.

Ltac q_cases := repeat q_case.

(** [lra] does not read a division: a division by a literal becomes a
    product with the literal's inverse. *)
Ltac q_norm :=
  unfold Qdiv in *;
  repeat match goal with
  | |- context [Qinv (?n # ?d)] =>
      let v := eval vm_compute in (Qinv (n # d)) in
      change (Qinv (n # d)) with v
  | H : context [Qinv (?n # ?d)] |- _ =>
      let v := eval vm_compute in (Qinv (n # d)) in
      change (Qinv (n # d)) with v in H
  end.

Lemma py_min_spec (a b : Q) :
  (py_min a b <= a)%Q ∧ (py_min a b <= b)%Q
  ∧ (py_min a b == a ∨ py_min a b == b)%Q.
Proof. unfold py_min. q_cases; repeat split; (lra || (left; lra) || (right; lra)). Qed.

Lemma py_max_spec (a b : Q) :
  (a <= py_max a b)%Q ∧ (b <= py_max a b)%Q
  ∧ (py_max a b == a ∨ py_max a b == b)%Q.
Proof. unfold py_max. q_cases; repeat split; (lra || (left; lra) || (right; lra)). Qed.

Lemma fold_left_Qplus_shift (l : list Q) (a : Q) :
  (fold_left Qplus l a == a + fold_left Qplus l 0)%Q.
Proof.
  revert a. induction l as [|x l IH]; intros a; simpl.
  - lra.
  - rewrite (IH (a + x)%Q), (IH (0 + x)%Q). lra.
Qed.

(** ** Outcomes *)

Lemma bind_Returns {A B : Type} (m : outcome A) (f : A → outcome B) (b : B) :
  m ≫= f = Returns b ↔ ∃ a, m = Returns a ∧ f a = Returns b.
Proof.
  destruct m as [a| |]; simpl; split.
  - intros H. exists a. auto.
  - intros (a' & [= ->] & H). exact H.
  - discriminate.
  - intros (a' & [=] & _).
  - discriminate.
  - intros (a' & [=] & _).
Qed.

(** ** Player scoring engine *)

Lemma no_history_avg_points (self : FPLRecommender) (player_id : Z)
  (next_opponent : opponent) :
  no_history self player_id next_opponent →
  avg_points_vs_team self player_id next_opponent = 0%Q.
Proof.
  intros Hno. unfold avg_points_vs_team.
  destruct (element_summary self player_id) as [s|] eqn:Es; [|reflexivity].
  specialize (Hno s Es).
  assert (Hnil : List.filter
            (λ h, match next_opponent with
                  | Opponent t => (Summary.opponent_team h =? t)%Z
                  | _ => false
                  end) (Summary.history s) = []).
  { induction (Summary.history s) as [|h hs IH]; [reflexivity|]. simpl.
    destruct next_opponent as [| |t].
    - apply IH. intros h' Hh'. apply Hno. right. exact Hh'.
    - apply IH. intros h' Hh'. apply Hno. right. exact Hh'.
    - destruct (Z.eqb_spec (Summary.opponent_team h) t) as [Heq|_].
      + exfalso. apply (Hno h); [left | rewrite Heq; reflexivity].
      + apply IH. intros h' Hh'. apply Hno. right. exact Hh'. }
  rewrite Hnil. reflexivity.
Qed.

Lemma no_history_score (self : FPLRecommender) (player_id : Z)
  (next_opponent : opponent) :
  no_history self player_id next_opponent →
  (historical_score_of self player_id next_opponent == 0)%Q.
Proof.
  intros Hno. unfold historical_score_of.
  rewrite (no_history_avg_points _ _ _ Hno).
  destruct (opponent_truthy next_opponent); [|reflexivity].
  vm_compute. reflexivity.
Qed.

(** C3: with form 8.0, an average difficulty of 2.0 over the next five
    fixtures, 200 season points, an ICT index of 100, no history against the
    next opponent and web integration off, [calculate_player_score] returns
    6.4: fixture score 8, points score 10, ICT score 5 under the weights
    0.30 / 0.25 / 0.20 / 0.15 / 0.10.  The same operations on binary64 floats
    give the double 6.4 as well. *)
Theorem calculate_player_score_scenario (self : FPLRecommender)
  (p : Element.t) (next_opponent : opponent) :
  web_disabled self →
  (Element.form_numeric p == 8.0)%Q →
  (calculate_fixture_difficulty_score self (Element.id p) 5 == 2.0)%Q →
  Element.total_points p = 200%Z →
  (Element.ict_index_numeric p == 100)%Q →
  no_history self (Element.id p) next_opponent →
  ∃ score, calculate_player_score self p next_opponent = Returns score
         ∧ (score == 6.4)%Q
         ∧ Binary64.player_score_no_web 8 2 0 200 100 = Binary64.six_point_four.
Proof.
  intros Hweb Hform Hfix Hpts Hict Hno.
  pose proof (no_history_score _ _ _ Hno) as Hhist.
  assert (Hpoints : (py_min (inject_Z (Element.total_points p) / 20) 10 == 10)%Q).
  { rewrite Hpts. vm_compute. reflexivity. }
  assert (Hictscore :
    ((if Qltb 0 (Element.ict_index_numeric p)
      then py_min (Element.ict_index_numeric p / 20) 10 else 0) == 5)%Q).
  { unfold py_min. q_cases; q_norm; lra. }
  assert (Hformscore : (form_score_of p == 8)%Q).
  { unfold form_score_of. q_cases; lra. }
  unfold calculate_player_score, integrate_web_data.
  assert (Hsum :
    (form_score_of p * 0.30
     + (6 - calculate_fixture_difficulty_score self (Element.id p) 5) / 5 * 10 * 0.25
     + historical_score_of self (Element.id p) next_opponent * 0.20
     + py_min (inject_Z (Element.total_points p) / 20) 10 * 0.15
     + (if Qltb 0 (Element.ict_index_numeric p)
        then py_min (Element.ict_index_numeric p / 20) 10 else 0) * 0.10
     == 6.4)%Q).
  { rewrite Hformscore, Hfix, Hhist, Hpoints, Hictscore. vm_compute. reflexivity. }
  destruct Hweb as [Hoff | Hnone].
  - rewrite Hoff. simpl. eexists. split; [reflexivity|]. split; [exact Hsum|].
    vm_compute. reflexivity.
  - rewrite Hnone.
    destruct (use_web_data self); simpl; eexists;
      (split; [reflexivity|]; split; [exact Hsum|]; vm_compute; reflexivity).
Qed.

Lemma calculate_player_score_scenario_witness :
  ∃ score, calculate_player_score scenario_state haaland (Opponent 1) = Returns score
         ∧ (score == 6.4)%Q
         ∧ Binary64.player_score_no_web 8 2 0 200 100 = Binary64.six_point_four.
Proof.
  apply (calculate_player_score_scenario scenario_state haaland (Opponent 1)).
  - left. reflexivity.
  - vm_compute. reflexivity.
  - vm_compute. reflexivity.
  - reflexivity.
  - vm_compute. reflexivity.
  - intros s [= <-] h Hh. simpl in Hh. inversion Hh.
Defined.

(** ** Text and patterns *)

Lemma str_startswith_spec (s p : string) :
  str_startswith s p = true ↔ ∃ post, s = p +:+ post.
Proof.
  revert s. induction p as [|a p IH]; intros s; simpl.
  - split; [intros _; exists s; reflexivity | reflexivity].
  - destruct s as [|b s].
    + split; [discriminate | intros [post [=]]].
    + rewrite andb_true_iff, IH. split.
      * intros [Hab [post ->]]. apply Ascii.eqb_eq in Hab as ->.
        exists post. reflexivity.
      * intros [post [= -> ->]]. split; [apply Ascii.eqb_refl | eauto].
Qed.

Lemma str_in_spec (needle hay : string) :
  str_in needle hay = true ↔ ∃ pre post, hay = pre +:+ needle +:+ post.
Proof.
  induction hay as [|c hay IH]; simpl.
  - rewrite orb_false_r, str_startswith_spec. split.
    + intros [post ->]. exists "", post. reflexivity.
    + intros (pre & post & H). destruct pre as [|a pre]; [|discriminate].
      exists post. exact H.
  - rewrite orb_true_iff, str_startswith_spec, IH. split.
    + intros [[post ->] | (pre & post & ->)].
      * exists "", post. reflexivity.
      * exists (String c pre), post. reflexivity.
    + intros (pre & post & H). destruct pre as [|a pre]; simpl in H.
      * left. exists post. exact H.
      * injection H as -> ->. right. exists pre, post. reflexivity.
Qed.

Lemma str_in_ci_contains (name stored : string) :
  str_in (str_lower name) (str_lower stored) = true ↔ ci_contains name stored.
Proof. apply str_in_spec. Qed.

Lemma str_length_append (a b : string) :
  String.length (a +:+ b) = (String.length a + String.length b)%nat.
Proof. induction a as [|c a IH]; simpl; [reflexivity | rewrite IH; reflexivity]. Qed.

Lemma str_lower_length (s : string) : String.length (str_lower s) = String.length s.
Proof. induction s as [|c s IH]; simpl; [reflexivity | rewrite IH; reflexivity]. Qed.

(** The containment is one-directional: a stored name shorter than the query
    never holds it. *)
Lemma ci_contains_length (name stored : string) :
  ci_contains name stored → (String.length name <= String.length stored)%nat.
Proof.
  intros (pre & post & H). apply (f_equal String.length) in H.
  rewrite !str_length_append, !str_lower_length in H. lia.
Qed.

Lemma re_repeat_special (c : ascii) : re_special c = false → re_repeat c = false.
Proof.
  destruct c as [[|] [|] [|] [|] [|] [|] [|] [|]]; vm_compute; congruence.
Qed.

Lemma re_parse_plain (pat : string) :
  re_plain pat = true →
  re_parse pat = Some (map ReLit (list_ascii_of_string pat)).
Proof.
  unfold re_plain. induction pat as [|c pat IH]; simpl; [reflexivity|].
  rewrite !andb_true_iff, !negb_true_iff. intros [[Hdot Hsp] Hrest].
  rewrite Hdot, Hsp, (IH Hrest). reflexivity.
Qed.

Lemma re_compile_plain (pat : string) :
  re_plain pat = true →
  re_compile pat = ReOk (map ReLit (list_ascii_of_string pat)).
Proof.
  intros H. pose proof (re_parse_plain pat H) as Hp.
  destruct pat as [|c pat]; [reflexivity|].
  unfold re_compile. rewrite Hp.
  unfold re_plain in H. simpl in H.
  rewrite !andb_true_iff, !negb_true_iff in H. destruct H as [[_ Hsp] _].
  rewrite (re_repeat_special c Hsp). reflexivity.
Qed.

Lemma re_match_here_plain (pat s : string) :
  re_match_here (map ReLit (list_ascii_of_string pat)) s
  = str_startswith (str_lower s) (str_lower pat).
Proof.
  revert s. induction pat as [|a pat IH]; intros s; simpl; [reflexivity|].
  destruct s as [|b s]; simpl; [reflexivity|]. rewrite IH. reflexivity.
Qed.

Lemma re_search_plain (pat s : string) :
  re_search (map ReLit (list_ascii_of_string pat)) s
  = str_in (str_lower pat) (str_lower s).
Proof.
  induction s as [|b s IH]; simpl.
  - rewrite (re_match_here_plain pat ""). reflexivity.
  - rewrite (re_match_here_plain pat (String b s)), IH. reflexivity.
Qed.

(** For a plain query the regular-expression search is the case-insensitive
    substring test. *)
Lemma str_contains_rows_plain {A : Type} (col : A → string) (pat : string)
  (df : list A) :
  re_plain pat = true →
  str_contains_rows col pat df
  = Returns (List.filter (λ r, str_in (str_lower pat) (str_lower (col r))) df).
Proof.
  intros H. unfold str_contains_rows. rewrite (re_compile_plain pat H).
  f_equal. apply filter_ext. intros r. apply re_search_plain.
Qed.

(** A pattern of the fragment consumes one character per item. *)
Lemma re_match_here_length (items : list re_item) (s : string) :
  re_match_here items s = true → (length items <= String.length s)%nat.
Proof.
  revert s. induction items as [|i items IH]; intros s; simpl; [lia|].
  destruct s as [|c s]; [discriminate|].
  rewrite andb_true_iff. intros [_ H]. apply IH in H. simpl. lia.
Qed.

Lemma re_search_length (items : list re_item) (s : string) :
  re_search items s = true → (length items <= String.length s)%nat.
Proof.
  induction s as [|c s IH]; simpl; rewrite ?orb_false_r, ?orb_true_iff.
  - apply (re_match_here_length items "").
  - intros [H | H].
    + apply (re_match_here_length items (String c s)) in H. exact H.
    + apply IH in H. lia.
Qed.

(** ** Consensus scorer *)

Lemma weighted_score_sum (l : list Rec.t) (a : Q) :
  (fold_left (λ acc rec, acc + vote rec) l a == a + py_sum (map vote l))%Q.
Proof.
  unfold py_sum. revert a. induction l as [|r l IH]; intros a; simpl.
  - lra.
  - rewrite (IH (a + vote r)%Q), (fold_left_Qplus_shift _ (0 + vote r)%Q). lra.
Qed.

Lemma py_max_count (n : nat) :
  (1 <= n)%nat → (py_max (Q_of_nat n) 1 == Q_of_nat n)%Q.
Proof.
  intros Hn. unfold py_max. q_case; [|reflexivity].
  exfalso. unfold Q_of_nat, Qlt in E. simpl in E. lia.
Qed.

Lemma str_contains_rows_nil {A : Type} (col : A → string) (pat : string)
  (selected : list A) :
  str_contains_rows col pat [] = Returns selected → selected = [].
Proof.
  unfold str_contains_rows. destruct (re_compile pat); [|discriminate..].
  simpl. intros [= <-]. reflexivity.
Qed.

(** What the function returns once the selection is known and not empty. *)
Lemma consensus_of_selection (self : ScraperAggregator) (name : string)
  (selected : list Rec.t) :
  str_contains_rows Rec.player_name name (recommendations (player_data self))
  = Returns selected →
  selected ≠ [] →
  get_player_consensus_score self name
  = Returns {| consensus_score :=
                 (fold_left (λ acc rec, acc + vote rec) selected 0
                  / py_max (Q_of_nat (length selected)) 1)%Q;
               mention_count := length selected;
               sentiment := overall_sentiment_of (mean_sentiment selected);
               avg_sentiment := mean_sentiment selected |}.
Proof.
  intros Hsel Hne. unfold get_player_consensus_score.
  destruct (recommendations (player_data self)) as [|r0 recs] eqn:Erecs.
  - apply str_contains_rows_nil in Hsel. contradiction.
  - rewrite Hsel. simpl. destruct selected; [contradiction | reflexivity].
Qed.

Lemma consensus_score_of_selection (self : ScraperAggregator) (name : string)
  (selected : list Rec.t) :
  str_contains_rows Rec.player_name name (recommendations (player_data self))
  = Returns selected →
  selected ≠ [] →
  ∃ c, get_player_consensus_score self name = Returns c
     ∧ mention_count c = length selected
     ∧ (consensus_score c
        == py_sum (map vote selected) / Q_of_nat (length selected))%Q
     ∧ sentiment c = overall_sentiment_of (mean_sentiment selected).
Proof.
  intros Hsel Hne. eexists. split; [apply (consensus_of_selection _ _ _ Hsel Hne)|].
  simpl. split; [reflexivity|]. split; [|reflexivity].
  rewrite weighted_score_sum, py_max_count.
  - rewrite Qplus_0_l. reflexivity.
  - destruct selected; [contradiction | simpl; lia].
Qed.

(** The empty selection, and the empty store, give the neutral record. *)
Lemma consensus_no_match (self : ScraperAggregator) (name : string) :
  recommendations (player_data self) = []
  ∨ str_contains_rows Rec.player_name name (recommendations (player_data self))
    = Returns [] →
  get_player_consensus_score self name = Returns no_consensus.
Proof.
  unfold get_player_consensus_score. intros [-> | H]; [reflexivity|].
  rewrite H. destruct (recommendations (player_data self)); reflexivity.
Qed.

(** For a plain query the selection is the set of signals whose stored name
    holds the query, case ignored; a stored name shorter than the query is
    never selected; the selection is counted and summed in full. *)
Lemma consensus_selection_plain (self : ScraperAggregator) (name : string) :
  re_plain name = true →
  ∃ selected c,
    str_contains_rows Rec.player_name name (recommendations (player_data self))
    = Returns selected
    ∧ (∀ r, r ∈ selected ↔
            r ∈ recommendations (player_data self)
            ∧ ci_contains name (Rec.player_name r))
    ∧ (∀ r, (String.length (Rec.player_name r) < String.length name)%nat →
            r ∉ selected)
    ∧ get_player_consensus_score self name = Returns c
    ∧ mention_count c = length selected
    ∧ (consensus_score c * py_max (Q_of_nat (length selected)) 1
       == py_sum (map vote selected))%Q.
Proof.
  intros Hplain.
  pose proof (str_contains_rows_plain Rec.player_name name
                (recommendations (player_data self)) Hplain) as Hsel.
  set (selected := List.filter _ _) in Hsel.
  assert (Hmem : ∀ r, r ∈ selected ↔
            r ∈ recommendations (player_data self)
            ∧ ci_contains name (Rec.player_name r)).
  { intros r. unfold selected.
    rewrite !list_elem_of_In, filter_In, str_in_ci_contains. reflexivity. }
  destruct selected as [|s0 sel] eqn:Esel.
  - exists [], no_consensus. split; [exact Hsel|]. split; [exact Hmem|].
    split; [intros r _ Hin; inversion Hin|].
    split; [apply consensus_no_match; right; exact Hsel|].
    split; [reflexivity|]. vm_compute. reflexivity.
  - eexists (s0 :: sel), _. split; [exact Hsel|]. split; [exact Hmem|].
    split.
    { intros r Hlen Hin. apply Hmem in Hin as [_ Hc].
      apply ci_contains_length in Hc. lia. }
    split; [apply (consensus_of_selection _ _ _ Hsel); discriminate|].
    split; [reflexivity|]. cbn [consensus_score].
    rewrite weighted_score_sum, Qplus_0_l.
    assert (Hpos : ¬ (py_max (Q_of_nat (length (s0 :: sel))) 1 == 0)%Q).
    { rewrite py_max_count by (simpl; lia).
      unfold Q_of_nat, Qeq. simpl. lia. }
    field. exact Hpos.
Qed.

Lemma weight_of_unlisted (rec_type : string) :
  rec_type ∉ listed_types → weight_of rec_type = 1.0%Q.
Proof.
  intros Hnot. unfold weight_of, type_weights.
  rewrite (not_elem_of_list_to_map_1 (M := gmap string)); [reflexivity|].
  exact Hnot.
Qed.

Lemma sentiment_mult_of_unlisted (sentiment : string) :
  sentiment ∉ listed_sentiments → sentiment_mult_of sentiment = 0%Z.
Proof.
  intros Hnot. unfold sentiment_mult_of, sentiment_scores.
  rewrite (not_elem_of_list_to_map_1 (M := gmap string)); [reflexivity|].
  exact Hnot.
Qed.

(** C2: when the selection for the queried name is not empty,
    [consensus_score] is the sum over the selected signals of
    weight(type) * (sentiment value + 1) divided by [mention_count], the
    number of selected signals, under the table captain 3.0, essential 2.5,
    transfer 2.0, differential 1.5, general 1.0, budget 1.0, avoid -2.0 and
    the values positive 1, neutral 0, negative -1.  A single selected signal
    of type captain with a positive sentiment gives the score 6.0, one
    mention and the label positive. *)
Theorem consensus_score_formula (self : ScraperAggregator) (name : string)
  (selected : list Rec.t) :
  str_contains_rows Rec.player_name name (recommendations (player_data self))
  = Returns selected →
  selected ≠ [] →
  ∃ c, get_player_consensus_score self name = Returns c
     ∧ mention_count c = length selected
     ∧ (consensus_score c
        == py_sum (map (λ r, weight_of (Rec.recommendation_type r)
                             * (inject_Z (sentiment_mult_of (Rec.sentiment r)) + 1))
                       selected)
           / Q_of_nat (mention_count c))%Q
     ∧ (weight_of "captain" == 3.0 ∧ weight_of "essential" == 2.5
        ∧ weight_of "transfer" == 2.0 ∧ weight_of "differential" == 1.5
        ∧ weight_of "general" == 1.0 ∧ weight_of "budget" == 1.0
        ∧ weight_of "avoid" == -2.0)%Q
     ∧ (sentiment_mult_of "positive" = 1 ∧ sentiment_mult_of "neutral" = 0
        ∧ sentiment_mult_of "negative" = -1)%Z
     ∧ (∀ s, selected = [s] →
             Rec.recommendation_type s = "captain" →
             Rec.sentiment s = "positive" →
             (consensus_score c == 6.0)%Q ∧ mention_count c = 1%nat
             ∧ sentiment c = "positive").
Proof.
  intros Hsel Hne.
  destruct (consensus_score_of_selection self name selected Hsel Hne)
    as (c & Hc & Hcount & Hscore & Hlabel).
  exists c. split; [exact Hc|]. split; [exact Hcount|].
  split; [rewrite Hcount; exact Hscore|].
  split; [vm_compute; repeat split; reflexivity|].
  split; [vm_compute; repeat split; reflexivity|].
  intros s -> Htype Hsent.
  split; [|split].
  - rewrite Hscore. unfold py_sum. simpl. unfold vote.
    rewrite Htype, Hsent. vm_compute. reflexivity.
  - exact Hcount.
  - rewrite Hlabel. unfold mean_sentiment. simpl. rewrite Hsent.
    vm_compute. reflexivity.
Qed.

Lemma consensus_score_formula_witness :
  ∃ c, get_player_consensus_score salah_store "salah" = Returns c
     ∧ (consensus_score c == 6.0)%Q ∧ mention_count c = 1%nat
     ∧ sentiment c = "positive".
Proof.
  destruct (consensus_score_formula salah_store "salah" [rec_salah_captain])
    as (c & Hc & _ & _ & _ & _ & Hone).
  - vm_compute. reflexivity.
  - discriminate.
  - exists c. split; [exact Hc|].
    apply (Hone rec_salah_captain); reflexivity.
Defined.

(** C10: a selected signal whose type is none of the seven listed ones votes
    with the weight 1.0, and one whose sentiment is none of positive,
    neutral, negative votes with the sentiment value 0; every selected
    signal, these included, is counted in [mention_count] and summed in
    [consensus_score], and the call returns a record. *)
Theorem consensus_unlisted_type_or_sentiment (self : ScraperAggregator)
  (name : string) (selected : list Rec.t) :
  str_contains_rows Rec.player_name name (recommendations (player_data self))
  = Returns selected →
  selected ≠ [] →
  ∃ c, get_player_consensus_score self name = Returns c
     ∧ mention_count c = length selected
     ∧ (consensus_score c
        == py_sum (map vote selected) / Q_of_nat (length selected))%Q
     ∧ ∀ r, r ∈ selected →
         (Rec.recommendation_type r ∉ listed_types →
          (vote r == 1.0 * (inject_Z (sentiment_mult_of (Rec.sentiment r)) + 1))%Q)
         ∧ (Rec.sentiment r ∉ listed_sentiments →
            (vote r == weight_of (Rec.recommendation_type r) * (0 + 1))%Q).
Proof.
  intros Hsel Hne.
  destruct (consensus_score_of_selection self name selected Hsel Hne)
    as (c & Hc & Hcount & Hscore & _).
  exists c. split; [exact Hc|]. split; [exact Hcount|]. split; [exact Hscore|].
  intros r _. unfold vote. split.
  - intros Ht. rewrite (weight_of_unlisted _ Ht). reflexivity.
  - intros Hs. rewrite (sentiment_mult_of_unlisted _ Hs). reflexivity.
Qed.

Lemma consensus_unlisted_type_or_sentiment_witness :
  ∃ c, get_player_consensus_score mixed_store "saka" = Returns c
     ∧ mention_count c = 3%nat
     ∧ (consensus_score c == 2)%Q.
Proof.
  destruct (consensus_unlisted_type_or_sentiment mixed_store "saka"
              [Rec.mk "Blog" "Bukayo Saka" "punt" "mixed";
               Rec.mk "Scout" "Bukayo Saka" "essential" "positive";
               Rec.mk "Blog" "Saka" "avoid" "negative"])
    as (c & Hc & Hcount & Hscore & _).
  - vm_compute. reflexivity.
  - discriminate.
  - exists c. split; [exact Hc|]. split; [exact Hcount|].
    rewrite Hscore. vm_compute. reflexivity.
Defined.

(** C6: the query ["."] on a store whose only signal is named
    "Mohamed Salah".  The stored name does not hold the query as a substring,
    yet the signal is selected and counted: pandas reads the query as a
    regular expression, in which a dot stands for any character. *)
Theorem consensus_dot_query :
  ¬ ci_contains "." (Rec.player_name rec_salah_captain)
  ∧ str_contains_rows Rec.player_name "."
      (recommendations (player_data salah_store))
    = Returns [rec_salah_captain]
  ∧ ∃ c, get_player_consensus_score salah_store "." = Returns c
       ∧ mention_count c = 1%nat.
Proof.
  split; [|split].
  - intros H. apply str_in_ci_contains in H. vm_compute in H. discriminate.
  - vm_compute. reflexivity.
  - eexists. split; [vm_compute; reflexivity | reflexivity].
Qed.

(** C7: the query ["*"] on the same store.  No stored name holds the query,
    and the call does not return: the query is compiled as a regular
    expression and [re.error] leaves the function. *)
Theorem consensus_star_query :
  (∀ r, r ∈ recommendations (player_data salah_store) →
        ¬ ci_contains "*" (Rec.player_name r))
  ∧ get_player_consensus_score salah_store "*" = Raises re_error.
Proof.
  split.
  - intros r Hr H. apply list_elem_of_In in Hr. simpl in Hr.
    destruct Hr as [<- | []].
    apply str_in_ci_contains in H. vm_compute in H. discriminate.
  - vm_compute. reflexivity.
Qed.

(** ** Web score *)

(** For a player reported out or suspended the injury branch sets the score
    to 0 and the starter bonus is skipped, but the mention boost is still
    added: the result is 0 below three mentions and 1 from three on. *)
Lemma web_score_out_or_suspended (consensus : ConsensusRecord)
  (injury_status : option string) (expected_start : bool) :
  injury_status = Some "out" ∨ injury_status = Some "suspended" →
  (web_score_of consensus injury_status expected_start
   == if (3 <=? mention_count consensus)%nat then 1 else 0)%Q.
Proof.
  intros [-> | ->]; unfold web_score_of;
    destruct (3 <=? mention_count consensus)%nat, expected_start;
    vm_compute; reflexivity.
Qed.

(** C1: a player reported out with three recommendation signals.
    [integrate_web_data] returns 1, not 0: the boost for three or more
    mentions is added after the injury branch has set the score to 0. *)
Theorem integrate_web_data_out_three_mentions :
  get_injury_status injured_aggregator (full_name salah) = Returns (Some "out")
  ∧ ∃ c web_score,
      get_player_consensus_score injured_aggregator (full_name salah) = Returns c
      ∧ mention_count c = 3%nat
      ∧ integrate_web_data injured_state salah = Returns web_score
      ∧ (web_score == 1)%Q.
Proof.
  split; [vm_compute; reflexivity|].
  eexists _, _. split; [vm_compute; reflexivity|].
  split; [reflexivity|]. split; [vm_compute; reflexivity|].
  vm_compute. reflexivity.
Qed.

(** ** Sorting, slicing and loops *)

Lemma insert_sorted_perm {A : Type} (le : A → A → bool) (x : A) (l : list A) :
  insert_sorted le x l ≡ₚ x :: l.
Proof.
  induction l as [|y l IH]; simpl; [reflexivity|].
  destruct (le x y); [reflexivity|].
  rewrite IH. apply perm_swap.
Qed.

Lemma stable_sort_perm {A : Type} (le : A → A → bool) (l : list A) :
  stable_sort le l ≡ₚ l.
Proof.
  unfold stable_sort. induction l as [|x l IH]; simpl; [reflexivity|].
  rewrite insert_sorted_perm, IH. reflexivity.
Qed.

Lemma elem_of_stable_sort {A : Type} (le : A → A → bool) (l : list A) (x : A) :
  x ∈ stable_sort le l ↔ x ∈ l.
Proof. rewrite (stable_sort_perm le l). reflexivity. Qed.

Lemma elem_of_py_slice_to {A : Type} (k : Z) (l : list A) (x : A) :
  x ∈ py_slice_to k l → x ∈ l.
Proof.
  unfold py_slice_to. destruct (0 <=? k)%Z; apply subseteq_take.
Qed.



Lemma for_each_inv {A S : Type} (P : S → Prop) (l : list A)
  (body : S → A → outcome S) (s s' : S) :
  (∀ s x s', x ∈ l → P s → body s x = Returns s' → P s') →
  P s → for_each l body s = Returns s' → P s'.
Proof.
  revert s. induction l as [|x l IH]; intros s Hbody Hs; simpl.
  - intros [= <-]. exact Hs.
  - intros H. apply bind_Returns in H as (s1 & H1 & H2).
    apply (IH s1); [| |exact H2].
    + intros s0 y s0' Hy. apply Hbody. right. exact Hy.
    + apply (Hbody s x s1); [left|exact Hs|exact H1].
Qed.

Lemma df_apply_elem {A B : Type} (f : A → outcome B) (l : list A) (l' : list B) :
  df_apply f l = Returns l' →
  ∀ y, y ∈ l' → ∃ x, x ∈ l ∧ f x = Returns y.
Proof.
  revert l'. induction l as [|x l IH]; intros l'; simpl.
  - intros [= <-] y Hy. inversion Hy.
  - intros H. apply bind_Returns in H as (y0 & Hy0 & H).
    apply bind_Returns in H as (ys & Hys & [= <-]).
    intros y Hy. apply elem_of_cons in Hy as [-> | Hy].
    + exists x. split; [left | exact Hy0].
    + destruct (IH ys Hys y Hy) as (x' & Hx' & Hf).
      exists x'. split; [right; exact Hx' | exact Hf].
Qed.

Lemma elem_of_List_filter {A : Type} (f : A → bool) (l : list A) (x : A) :
  x ∈ List.filter f l ↔ x ∈ l ∧ f x = true.
Proof. rewrite !list_elem_of_In. apply filter_In. Qed.

(** ** Transfer optimizer *)

Lemma value_counts_lookup (col : list Z) (k : Z) :
  default 0%nat (value_counts col !! k)
  = length (List.filter (λ x, (x =? k)%Z) col).
Proof.
  unfold value_counts.
  assert (H : ∀ d : gmap Z nat,
    default 0%nat (fold_left (λ d k, <[k := S (default 0%nat (d !! k))]> d) col d !! k)
    = (default 0%nat (d !! k) + length (List.filter (λ x, (x =? k)%Z) col))%nat).
  { induction col as [|x col IH]; intros d; simpl; [lia|].
    rewrite IH. destruct (Z.eqb_spec x k) as [->|Hne].
    - rewrite lookup_insert_eq. simpl. lia.
    - rewrite lookup_insert_ne by exact Hne. reflexivity. }
  rewrite H, lookup_empty. reflexivity.
Qed.

Lemma club_count_value_counts (squad : list Scored.t) (club : Z) :
  default 0%nat
    (value_counts (map (λ s, Element.team (Scored.row s)) squad) !! club)
  = club_count (map Scored.row squad) club.
Proof.
  rewrite value_counts_lookup. unfold club_count.
  induction squad as [|s squad IH]; simpl; [reflexivity|].
  destruct (Element.team (Scored.row s) =? club)%Z; simpl; rewrite IH; reflexivity.
Qed.

(** A frame that [score_rows] returns was scored row by row. *)
Lemma score_rows_Returns (self : FPLRecommender) (d : gmap Z Z)
  (df : list Element.t) (scored : list Scored.t) :
  score_rows self d df = Returns scored →
  df_apply (λ row,
              let next_opponent := series_map d (Element.team row) in
              player_score ←
                calculate_player_score self row (opponent_of_cell next_opponent);
              Returns (Scored.mk row next_opponent player_score)) df
  = Returns scored.
Proof.
  unfold score_rows. destruct df as [|x df]; [|intros H; exact H].
  destruct (probe_raises self); [discriminate | intros H; exact H].
Qed.

Lemma score_rows_rows (self : FPLRecommender) (d : gmap Z Z)
  (df : list Element.t) (scored : list Scored.t) :
  score_rows self d df = Returns scored → map Scored.row scored = df.
Proof.
  intros H. apply score_rows_Returns in H. revert scored H.
  induction df as [|x df IH]; intros scored; simpl.
  - intros [= <-]. reflexivity.
  - intros H. apply bind_Returns in H as (y & Hy & H).
    apply bind_Returns in H as (ys & Hys & [= <-]).
    apply bind_Returns in Hy as (sc & _ & [= <-]).
    simpl. rewrite (IH ys Hys). reflexivity.
Qed.

Lemma consider_in_accepted (self : FPLRecommender) (squad available : list Scored.t)
  (pos : string) (o i : Scored.t) (acc acc' : list Transfer.t) :
  o ∈ squad → i ∈ available →
  Forall (accepted self squad available) acc →
  consider_in self
    (value_counts (map (λ s, Element.team (Scored.row s)) squad)) pos o acc i
  = Returns acc' →
  Forall (accepted self squad available) acc'.
Proof.
  intros Ho Hi Hacc. unfold consider_in.
  rewrite club_count_value_counts.
  destruct (negb (Element.team (Scored.row i) =? Element.team (Scored.row o))%Z
            && (3 <=? club_count (map Scored.row squad)
                        (Element.team (Scored.row i)))%nat) eqn:Eclub.
  { intros [= <-]. exact Hacc. }
  destruct (Qltb 0.5 (Scored.player_score i - Scored.player_score o)) eqn:Eimp.
  2: { intros [= <-]. exact Hacc. }
  intros H. apply bind_Returns in H as (web & _ & [= <-]).
  apply Forall_app. split; [exact Hacc|].
  apply Forall_cons. split; [|apply Forall_nil; exact I].
  exists pos, o, i, web.1, web.2.
  split; [exact Ho|]. split; [exact Hi|]. split; [reflexivity|].
  split; [apply Qltb_lt; exact Eimp|].
  intros Hne. apply andb_false_iff in Eclub as [E | E].
  - apply negb_false_iff, Z.eqb_eq in E. contradiction.
  - apply Nat.leb_gt in E. lia.
Qed.

Lemma consider_out_accepted (self : FPLRecommender) (squad available : list Scored.t)
  (pos : string) (pos_available : list Scored.t) (o : Scored.t)
  (acc acc' : list Transfer.t) :
  o ∈ squad → pos_available ⊆ available →
  Forall (accepted self squad available) acc →
  consider_out self squad pos pos_available acc o = Returns acc' →
  Forall (accepted self squad available) acc'.
Proof.
  intros Ho Hsub Hacc. unfold consider_out.
  destruct (List.filter _ pos_available) as [|a0 aff] eqn:Eaff.
  { intros [= <-]. exact Hacc. }
  apply for_each_inv; [|exact Hacc].
  intros s i s' Hi Hs Hbody.
  apply (consider_in_accepted self squad available pos o i s s' Ho); [|exact Hs|exact Hbody].
  apply Hsub. apply subseteq_take in Hi.
  apply elem_of_stable_sort in Hi. rewrite <- Eaff in Hi.
  apply elem_of_List_filter in Hi as [Hi _]. exact Hi.
Qed.

Lemma consider_pos_accepted (self : FPLRecommender) (position_filter : option string)
  (squad available : list Scored.t) (pos : string) (acc acc' : list Transfer.t) :
  Forall (accepted self squad available) acc →
  consider_pos self position_filter squad available acc pos = Returns acc' →
  Forall (accepted self squad available) acc'.
Proof.
  intros Hacc. unfold consider_pos.
  destruct (match str_truthy position_filter with
            | Some wanted => negb (String.eqb pos wanted)
            | None => false
            end).
  { intros [= <-]. exact Hacc. }
  apply for_each_inv; [|exact Hacc].
  intros s o s' Ho Hs Hbody.
  refine (consider_out_accepted self squad available pos _ o s s' _ _ Hs Hbody).
  - apply elem_of_stable_sort, elem_of_List_filter in Ho as [Ho _]. exact Ho.
  - intros x Hx. apply elem_of_List_filter in Hx as [Hx _]. exact Hx.
Qed.

(** Every returned suggestion went through the two tests of the inner loop,
    for a removal of the squad and a replacement from outside it. *)
Lemma suggest_transfers_accepted (self : FPLRecommender) (num_transfers : Z)
  (position_filter : option string) (l : list Transfer.t) :
  suggest_transfers self num_transfers position_filter = Returns l →
  ∃ squad available,
    map Scored.row squad = get_current_squad_df self
    ∧ (∀ i, i ∈ available →
            Scored.row i ∈ players_df self
            ∧ (Element.id (Scored.row i) ∉ squad_ids self)
            ∧ Element.status (Scored.row i) = "a")
    ∧ Forall (accepted self squad available) l.
Proof.
  unfold suggest_transfers. intros H.
  apply bind_Returns in H as (squad & Hsquad & H).
  apply bind_Returns in H as (available & Havail & H).
  apply bind_Returns in H as (sugg & Hloop & [= <-]).
  exists squad, available.
  split; [apply (score_rows_rows _ _ _ _ Hsquad)|]. split.
  - intros i Hi. apply score_rows_rows in Havail.
    assert (Hrow : Scored.row i ∈ map Scored.row available).
    { apply list_elem_of_fmap. exists i. split; [reflexivity|exact Hi]. }
    rewrite Havail in Hrow.
    assert (Hbase : Scored.row i ∈
      List.filter (λ p, negb (bool_decide (Element.id p ∈ squad_ids self))
                        && String.eqb (Element.status p) "a") (players_df self)).
    { destruct (str_truthy position_filter); [|exact Hrow].
      apply elem_of_List_filter in Hrow as [Hrow _]. exact Hrow. }
    apply elem_of_List_filter in Hbase as [Hin Hcond].
    apply andb_true_iff in Hcond as [Hid Hst].
    split; [exact Hin|]. split.
    + apply negb_true_iff, bool_decide_eq_false in Hid. exact Hid.
    + apply String.eqb_eq in Hst. exact Hst.
  - assert (Hall : Forall (accepted self squad available) sugg).
    { revert Hloop. apply for_each_inv; [|apply Forall_nil; exact I].
      intros s pos s' _ Hs Hbody.
      apply (consider_pos_accepted _ _ _ _ _ _ _ Hs Hbody). }
    apply Forall_forall. intros t Ht.
    apply elem_of_py_slice_to, elem_of_stable_sort in Ht.
    rewrite Forall_forall in Hall. apply Hall. exact Ht.
Qed.

Lemma club_count_removed (squad : list Element.t) (out_row : Element.t) (club : Z) :
  out_row ∈ squad →
  (club_count (List.filter (λ p, negb (Element.id p =? Element.id out_row)%Z) squad) club
   + (if (Element.team out_row =? club)%Z then 1 else 0)
   <= club_count squad club)%nat.
Proof.
  unfold club_count. induction squad as [|p squad IH]; intros Hin; [inversion Hin|].
  assert (Hle : (length (List.filter (λ p, (Element.team p =? club)%Z)
                   (List.filter (λ p, negb (Element.id p =? Element.id out_row)%Z) squad))
                 <= length (List.filter (λ p, (Element.team p =? club)%Z) squad))%nat).
  { clear. induction squad as [|q squad IH]; simpl; [lia|].
    destruct (negb _); simpl; destruct (Element.team q =? club)%Z; simpl; lia. }
  apply elem_of_cons in Hin as [<- | Hin].
  - simpl. rewrite Z.eqb_refl. simpl.
    destruct (Element.team out_row =? club)%Z; simpl; lia.
  - specialize (IH Hin). simpl.
    destruct (negb (Element.id p =? Element.id out_row)%Z); simpl;
      destruct (Element.team p =? club)%Z; simpl;
      destruct (Element.team out_row =? club)%Z; lia.
Qed.

(** After the swap no club has more than three players, unless it already had
    as many before. *)
Lemma club_count_cons (p : Element.t) (squad : list Element.t) (club : Z) :
  club_count (p :: squad) club
  = ((if (Element.team p =? club)%Z then 1 else 0) + club_count squad club)%nat.
Proof.
  unfold club_count. simpl. destruct (Element.team p =? club)%Z; reflexivity.
Qed.

(** After the swap no club has more than three players, unless it already had
    as many before. *)
Lemma club_count_squad_after (squad : list Element.t) (out_row in_row : Element.t)
  (club : Z) :
  out_row ∈ squad →
  (Element.team in_row ≠ Element.team out_row →
   (club_count squad (Element.team in_row) <= 2)%nat) →
  (club_count (squad_after squad out_row in_row) club <= 3)%nat
  ∨ (club_count (squad_after squad out_row in_row) club <= club_count squad club)%nat.
Proof.
  intros Hin Hclub.
  pose proof (club_count_removed squad out_row club Hin) as Hrem.
  unfold squad_after. rewrite club_count_cons.
  destruct (Z.eqb_spec (Element.team in_row) club) as [Ein | Ein].
  - destruct (Z.eqb_spec (Element.team out_row) club) as [Eout | Eout].
    + right. lia.
    + left. subst club.
      assert (Hne : Element.team in_row ≠ Element.team out_row) by congruence.
      specialize (Hclub Hne). lia.
  - right. lia.
Qed.

(** C4: every suggestion that [suggest_transfers] returns has an improvement
    strictly above 0.5, and its improvement is the incoming player's score
    minus the outgoing player's score. *)
Theorem suggest_transfers_improvement (self : FPLRecommender) (num_transfers : Z)
  (position_filter : option string) (l : list Transfer.t) :
  suggest_transfers self num_transfers position_filter = Returns l →
  Forall improves l.
Proof.
  intros H.
  destruct (suggest_transfers_accepted _ _ _ _ H) as (squad & available & _ & _ & Hall).
  eapply Forall_impl; [exact Hall|].
  intros t (pos & o & i & wm & ws & _ & _ & -> & Himp & _).
  split; simpl; [exact Himp | reflexivity].
Qed.

Lemma suggest_transfers_improvement_witness :
  ∃ l, suggest_transfers transfer_state 1 None = Returns l
     ∧ length l = 1%nat ∧ Forall improves l.
Proof.
  pose proof (suggest_transfers_improvement transfer_state 1 None) as H.
  destruct (suggest_transfers transfer_state 1 None) as [l| |] eqn:E;
    [|vm_compute in E; discriminate..].
  exists l. split; [reflexivity|]. split.
  - vm_compute in E. injection E as <-. reflexivity.
  - apply H. reflexivity.
Defined.

(** C5: every returned suggestion pairs a squad row with a row from outside
    the squad; when their clubs differ, the incoming club has at most two
    players in the current squad, so that after the swap no club has more
    than three players unless it had as many before.  When the two clubs are
    the same the club counts are not consulted: the loop body does the same
    whatever the counts are. *)
Theorem suggest_transfers_club_limit (self : FPLRecommender) (num_transfers : Z)
  (position_filter : option string) (l : list Transfer.t) :
  suggest_transfers self num_transfers position_filter = Returns l →
  (∀ t, t ∈ l →
     ∃ out_row in_row,
       out_row ∈ get_current_squad_df self
       ∧ in_row ∈ players_df self
       ∧ (Element.id in_row ∉ squad_ids self)
       ∧ Transfer.out_player_id t = Element.id out_row
       ∧ Transfer.in_player_id t = Element.id in_row
       ∧ (Element.team in_row ≠ Element.team out_row →
          (club_count (get_current_squad_df self) (Element.team in_row) <= 2)%nat)
       ∧ ∀ club,
           (club_count (squad_after (get_current_squad_df self) out_row in_row) club
            <= 3)%nat
           ∨ (club_count (squad_after (get_current_squad_df self) out_row in_row) club
              <= club_count (get_current_squad_df self) club)%nat)
  ∧ (∀ counts counts' pos o acc i,
       Element.team (Scored.row i) = Element.team (Scored.row o) →
       consider_in self counts pos o acc i = consider_in self counts' pos o acc i).
Proof.
  intros H. split.
  - destruct (suggest_transfers_accepted _ _ _ _ H)
      as (squad & available & Hsquad & Havail & Hall).
    intros t Ht. rewrite Forall_forall in Hall.
    destruct (Hall t Ht) as (pos & o & i & wm & ws & Ho & Hi & -> & _ & Hclub).
    rewrite Hsquad in Hclub.
    assert (Hout : Scored.row o ∈ get_current_squad_df self).
    { rewrite <- Hsquad. apply list_elem_of_fmap. exists o. split; [reflexivity|exact Ho]. }
    destruct (Havail i Hi) as (Hin & Hid & _).
    exists (Scored.row o), (Scored.row i).
    split; [exact Hout|]. split; [exact Hin|]. split; [exact Hid|].
    split; [reflexivity|]. split; [reflexivity|]. split; [exact Hclub|].
    intros club. apply club_count_squad_after; [exact Hout | exact Hclub].
  - intros counts counts' pos o acc i Hsame. unfold consider_in.
    rewrite Hsame, Z.eqb_refl. reflexivity.
Qed.

Lemma suggest_transfers_club_limit_witness :
  ∃ l t, suggest_transfers transfer_state 1 None = Returns l
       ∧ t ∈ l
       ∧ Transfer.out_player_id t = 1%Z ∧ Transfer.in_player_id t = 2%Z
       ∧ (club_count (get_current_squad_df transfer_state) 2 <= 2)%nat.
Proof.
  pose proof (suggest_transfers_club_limit transfer_state 1 None) as H.
  destruct (suggest_transfers transfer_state 1 None) as [l| |] eqn:E;
    [|vm_compute in E; discriminate..].
  destruct (H l eq_refl) as [Hall _].
  vm_compute in E. injection E as El.
  destruct l as [|t l]; [discriminate El|]. injection El as Et El.
  exists (t :: l), t. split; [reflexivity|]. split; [left|].
  destruct (Hall t) as (o & i & _ & _ & _ & _ & _ & _ & _); [left|].
  subst t. split; [reflexivity|]. split; [reflexivity|].
  vm_compute. lia.
Defined.

(** ** Captaincy ranker *)

Lemma position_multiplier_gk (p : Element.t) :
  position_multiplier (position_name (with_element_type p 1)) = 0.5%Q.
Proof. vm_compute. reflexivity. Qed.

Lemma position_multiplier_fwd (p : Element.t) :
  position_multiplier (position_name (with_element_type p 4)) = 1.2%Q.
Proof. vm_compute. reflexivity. Qed.

Lemma captain_candidate_score (self : FPLRecommender) (d : Gw.dicts)
  (p : Element.t) (element_type : Z) (web : Q) (is_web_captain : bool) :
  web_captain_score_of self p = Returns (web, is_web_captain) →
  ∃ c, captain_candidate self d (with_element_type p element_type) = Returns c
     ∧ Captain.captain_score c
       = captain_finish (captain_base_of self d p web)
           (position_name (with_element_type p element_type)) (value p).
Proof.
  intros Hweb. unfold captain_candidate.
  change (web_captain_score_of self (with_element_type p element_type))
    with (web_captain_score_of self p).
  rewrite Hweb. simpl. eexists. split; reflexivity.
Qed.

(** C8 (amended): two squad rows that differ in position only, one a
    goalkeeper and one a forward.  Whenever the web captaincy look-up
    returns, both get a captain score.  With [base] the score before the
    position multiplier (weighted sum plus home bonus): the goalkeeper's
    score is never the higher one when [base] is 0 or more, and never the
    lower one when [base] is 0 or less, so the two are equal at 0.  Below the
    premium price of 10.0 the goalkeeper's score is strictly lower exactly
    when [base] is positive and strictly higher exactly when [base] is
    negative.  At any price it is strictly lower once [base] reaches 0.001
    and strictly higher once [base] is -0.001 or less: for a premium player
    the same 0.5 is added to both scores after the multiplier, which on
    doubles can absorb a smaller gap. *)
Theorem captain_score_gk_below_fwd (self : FPLRecommender) (d : Gw.dicts)
  (p : Element.t) (web : Q) (is_web_captain : bool) :
  web_captain_score_of self p = Returns (web, is_web_captain) →
  ∃ gk fwd,
    captain_candidate self d (with_element_type p 1) = Returns gk
    ∧ captain_candidate self d (with_element_type p 4) = Returns fwd
    ∧ Captain.position gk = Val "GK" ∧ Captain.position fwd = Val "FWD"
    ∧ ((0 <= captain_base_of self d p web)%Q →
       (Captain.captain_score gk <= Captain.captain_score fwd)%Q)
    ∧ ((captain_base_of self d p web <= 0)%Q →
       (Captain.captain_score fwd <= Captain.captain_score gk)%Q)
    ∧ ((captain_base_of self d p web == 0)%Q →
       (Captain.captain_score gk == Captain.captain_score fwd)%Q)
    ∧ ((value p < 10.0)%Q →
       ((0 < captain_base_of self d p web)%Q ↔
        (Captain.captain_score gk < Captain.captain_score fwd)%Q)
       ∧ ((captain_base_of self d p web < 0)%Q ↔
          (Captain.captain_score fwd < Captain.captain_score gk)%Q))
    ∧ ((0.001 <= captain_base_of self d p web)%Q →
       (Captain.captain_score gk < Captain.captain_score fwd)%Q)
    ∧ ((captain_base_of self d p web <= -0.001)%Q →
       (Captain.captain_score fwd < Captain.captain_score gk)%Q).
Proof.
  intros Hweb.
  destruct (captain_candidate_score self d p 1 web is_web_captain Hweb)
    as (gk & Hgk & Sgk).
  destruct (captain_candidate_score self d p 4 web is_web_captain Hweb)
    as (fwd & Hfwd & Sfwd).
  exists gk, fwd. split; [exact Hgk|]. split; [exact Hfwd|].
  split.
  { unfold captain_candidate in Hgk.
    apply bind_Returns in Hgk as (w & _ & [= <-]). vm_compute. reflexivity. }
  split.
  { unfold captain_candidate in Hfwd.
    apply bind_Returns in Hfwd as (w & _ & [= <-]). vm_compute. reflexivity. }
  rewrite Sgk, Sfwd. unfold captain_finish.
  rewrite position_multiplier_gk, position_multiplier_fwd.
  q_cases; repeat split; intros; lra.
Qed.

Lemma captain_score_gk_below_fwd_witness :
  (∃ gk fwd,
     captain_candidate scenario_state Gw.empty (with_element_type haaland 1) = Returns gk
     ∧ captain_candidate scenario_state Gw.empty (with_element_type haaland 4) = Returns fwd
     ∧ (Captain.captain_score gk < Captain.captain_score fwd)%Q)
  ∧ ∃ gk fwd,
      captain_candidate boundary_state Gw.empty (with_element_type be_ta 1) = Returns gk
      ∧ captain_candidate boundary_state Gw.empty (with_element_type be_ta 4) = Returns fwd
      ∧ (Captain.captain_score gk < Captain.captain_score fwd)%Q.
Proof.
  split.
  - destruct (captain_score_gk_below_fwd scenario_state Gw.empty haaland 5.0%Q false)
      as (gk & fwd & Hgk & Hfwd & _ & _ & _ & _ & _ & _ & Hmargin & _).
    + vm_compute. reflexivity.
    + exists gk, fwd. split; [exact Hgk|]. split; [exact Hfwd|].
      apply Hmargin. vm_compute. discriminate.
  - destruct (captain_score_gk_below_fwd boundary_state Gw.empty be_ta 5.0%Q false)
      as (gk & fwd & Hgk & Hfwd & _ & _ & _ & _ & _ & Hcheap & _).
    + vm_compute. reflexivity.
    + exists gk, fwd. split; [exact Hgk|]. split; [exact Hfwd|].
      apply Hcheap; vm_compute; reflexivity.
Defined.

(** C8, as stated, fails: the same squad member scored once as a goalkeeper
    and once as a forward.  The weighted sum is negative (0.8 for the fixture,
    -0.3 for the history, -0.72 for the web score), so halving it gives the
    goalkeeper the higher captain score. *)
Lemma captain_score_gk_above_fwd :
  ∃ gk fwd,
    suggest_captain (avoid_state 1) 5 = Returns [gk]
    ∧ suggest_captain (avoid_state 4) 5 = Returns [fwd]
    ∧ Captain.position gk = Val "GK" ∧ Captain.position fwd = Val "FWD"
    ∧ (Captain.captain_score gk == -0.11)%Q
    ∧ (Captain.captain_score fwd == -0.264)%Q
    ∧ ¬ (Captain.captain_score gk < Captain.captain_score fwd)%Q.
Proof.
  eexists _, _. split; [vm_compute; reflexivity|].
  split; [vm_compute; reflexivity|].
  split; [reflexivity|]. split; [reflexivity|].
  split; [vm_compute; reflexivity|]. split; [vm_compute; reflexivity|].
  vm_compute. discriminate.
Qed.

Lemma full_name_lower_nonempty (p : Element.t) : str_lower (full_name p) ≠ "".
Proof.
  intros H. apply (f_equal String.length) in H.
  rewrite str_lower_length in H. unfold full_name in H.
  rewrite !str_length_append in H. simpl in H. lia.
Qed.

Lemma captain_candidate_name (self : FPLRecommender) (d : Gw.dicts)
  (p : Element.t) (c : Captain.t) :
  captain_candidate self d p = Returns c → Captain.player_name c = full_name p.
Proof.
  unfold captain_candidate. intros H.
  apply bind_Returns in H as (w & _ & [= <-]). reflexivity.
Qed.

Lemma suggest_captain_names (self : FPLRecommender) (top_n : Z)
  (options : list Captain.t) :
  suggest_captain self top_n = Returns options →
  ∀ c, c ∈ options → ∃ p, p ∈ get_current_squad_df self
                        ∧ Captain.player_name c = full_name p.
Proof.
  unfold suggest_captain. intros H c Hc.
  apply bind_Returns in H as (d & _ & H).
  apply bind_Returns in H as (cands & Hcands & [= <-]).
  apply elem_of_py_slice_to, elem_of_stable_sort in Hc.
  destruct (df_apply_elem _ _ _ Hcands c Hc) as (p & Hp & Hcp).
  exists p. split; [exact Hp | apply (captain_candidate_name _ _ _ _ Hcp)].
Qed.

Lemma Qmax_py_max (a b : Q) : (Qmax a b == py_max a b)%Q.
Proof.
  unfold py_max. q_case.
  - apply Q.max_r. lra.
  - apply Q.max_l. exact E.
Qed.

(** The stored vice score is the one the specification words describe. *)
Lemma vice_score_of_spec (c : Captain.t) :
  (vice_score_of c == spec_vice_score c)%Q.
Proof.
  unfold vice_score_of, spec_vice_score.
  destruct (low_ownership c); destruct (PrimFloat.ltb 15 (consistency c)); lra.
Qed.



(** * Further properties of the scoring core *)

(** ** Means *)

Lemma Q_of_nat_S (n : nat) : (Q_of_nat (S n) == Q_of_nat n + 1)%Q.
Proof.
  unfold Q_of_nat. rewrite Nat2Z.inj_succ, <- Z.add_1_r, inject_Z_plus. reflexivity.
Qed.

Lemma Q_of_nat_pos (n : nat) : (1 <= n)%nat → (0 < Q_of_nat n)%Q.
Proof. intros H. unfold Q_of_nat, Qlt. simpl. lia. Qed.

Lemma py_sum_cons (x : Q) (l : list Q) : (py_sum (x :: l) == x + py_sum l)%Q.
Proof.
  unfold py_sum. simpl. rewrite fold_left_Qplus_shift. lra.
Qed.

Lemma py_sum_lower (l : list Q) (lo : Q) :
  Forall (λ x, (lo <= x)%Q) l → (Q_of_nat (length l) * lo <= py_sum l)%Q.
Proof.
  induction 1 as [|x l Hx _ IH].
  - vm_compute. discriminate.
  - rewrite py_sum_cons. cbn [length]. rewrite Q_of_nat_S. lra.
Qed.

Lemma py_sum_upper (l : list Q) (hi : Q) :
  Forall (λ x, (x <= hi)%Q) l → (py_sum l <= Q_of_nat (length l) * hi)%Q.
Proof.
  induction 1 as [|x l Hx _ IH].
  - vm_compute. discriminate.
  - rewrite py_sum_cons. cbn [length]. rewrite Q_of_nat_S. lra.
Qed.

(** The mean of a non-empty list lies between any two bounds of its items. *)
Lemma mean_lower (l : list Q) (lo : Q) :
  l ≠ [] → Forall (λ x, (lo <= x)%Q) l →
  (lo <= py_sum l / Q_of_nat (length l))%Q.
Proof.
  intros Hne Hall. apply Qle_shift_div_l.
  - apply Q_of_nat_pos. destruct l; [contradiction | simpl; lia].
  - rewrite Qmult_comm. apply py_sum_lower. exact Hall.
Qed.

Lemma mean_upper (l : list Q) (hi : Q) :
  l ≠ [] → Forall (λ x, (x <= hi)%Q) l →
  (py_sum l / Q_of_nat (length l) <= hi)%Q.
Proof.
  intros Hne Hall. apply Qle_shift_div_r.
  - apply Q_of_nat_pos. destruct l; [contradiction | simpl; lia].
  - rewrite Qmult_comm. apply py_sum_upper. exact Hall.
Qed.

(** ** Ranges of the consensus and of the web scores *)

Lemma weight_of_range (rec_type : string) :
  (-2 <= weight_of rec_type <= 3)%Q.
Proof.
  destruct (decide (rec_type ∈ listed_types)) as [Hin | Hout].
  - unfold listed_types in Hin.
    repeat (apply elem_of_cons in Hin as [-> | Hin];
            [vm_compute; split; discriminate|]).
    inversion Hin.
  - rewrite (weight_of_unlisted _ Hout). vm_compute. split; discriminate.
Qed.

Lemma sentiment_mult_of_cases (sentiment : string) :
  sentiment_mult_of sentiment = (-1)%Z ∨ sentiment_mult_of sentiment = 0%Z
  ∨ sentiment_mult_of sentiment = 1%Z.
Proof.
  destruct (decide (sentiment ∈ listed_sentiments)) as [Hin | Hout].
  - unfold listed_sentiments in Hin.
    apply elem_of_cons in Hin as [-> | Hin]; [right; right; reflexivity|].
    apply elem_of_cons in Hin as [-> | Hin]; [right; left; reflexivity|].
    apply elem_of_cons in Hin as [-> | Hin]; [left; reflexivity|].
    inversion Hin.
  - right. left. apply sentiment_mult_of_unlisted. exact Hout.
Qed.

Lemma vote_range (rec : Rec.t) : (-4 <= vote rec <= 6)%Q.
Proof.
  unfold vote.
  pose proof (weight_of_range (Rec.recommendation_type rec)) as Hw.
  destruct (sentiment_mult_of_cases (Rec.sentiment rec)) as [-> | [-> | ->]];
    change (inject_Z (-1)) with (-1)%Q;
    change (inject_Z 0) with 0%Q; change (inject_Z 1) with 1%Q; lra.
Qed.

(** The two shapes of a returned consensus record. *)
Lemma consensus_cases (self : ScraperAggregator) (name : string)
  (c : ConsensusRecord) :
  get_player_consensus_score self name = Returns c →
  c = no_consensus
  ∨ ∃ selected,
      selected ≠ []
      ∧ str_contains_rows Rec.player_name name (recommendations (player_data self))
        = Returns selected
      ∧ mention_count c = length selected
      ∧ (consensus_score c
         == py_sum (map vote selected) / Q_of_nat (length selected))%Q.
Proof.
  intros H.
  destruct (str_contains_rows Rec.player_name name
              (recommendations (player_data self))) as [selected| |] eqn:Hsel.
  - destruct selected as [|s0 sel].
    + left. rewrite (consensus_no_match self name) in H by (right; exact Hsel).
      injection H as <-. reflexivity.
    + right. exists (s0 :: sel). split; [discriminate|]. split; [reflexivity|].
      destruct (consensus_score_of_selection self name (s0 :: sel) Hsel)
        as (c' & Hc' & Hcount & Hscore & _); [discriminate|].
      rewrite Hc' in H. injection H as <-. split; [exact Hcount | exact Hscore].
  - left. unfold get_player_consensus_score in H. rewrite Hsel in H.
    destruct (recommendations (player_data self)); [|discriminate].
    injection H as <-. reflexivity.
  - left. unfold get_player_consensus_score in H. rewrite Hsel in H.
    destruct (recommendations (player_data self)); [|discriminate].
    injection H as <-. reflexivity.
Qed.

Lemma consensus_score_range (self : ScraperAggregator) (name : string)
  (c : ConsensusRecord) :
  get_player_consensus_score self name = Returns c →
  (-4 <= consensus_score c <= 6)%Q.
Proof.
  intros H. destruct (consensus_cases self name c H)
    as [-> | (selected & Hne & _ & _ & Hscore)].
  - vm_compute. split; discriminate.
  - rewrite Hscore.
    assert (Hmap : map vote selected ≠ []) by (destruct selected; [contradiction|discriminate]).
    rewrite <- (length_map vote selected). split.
    + apply mean_lower; [exact Hmap|]. apply Forall_forall. intros x Hx.
      apply list_elem_of_fmap in Hx as (r & -> & _). apply vote_range.
    + apply mean_upper; [exact Hmap|]. apply Forall_forall. intros x Hx.
      apply list_elem_of_fmap in Hx as (r & -> & _). apply vote_range.
Qed.

(** X1: a consensus record that is returned has a score between -4 and 6
    (every vote is a weight between -2 and 3 times 0, 1 or 2), and it has no
    mention exactly when it is the neutral record. *)
Theorem consensus_record_range (self : ScraperAggregator) (name : string)
  (c : ConsensusRecord) :
  get_player_consensus_score self name = Returns c →
  (-4 <= consensus_score c <= 6)%Q
  ∧ (mention_count c = 0%nat ↔ c = no_consensus).
Proof.
  intros H. split; [apply (consensus_score_range self name c H)|].
  destruct (consensus_cases self name c H)
    as [-> | (selected & Hne & _ & Hcount & _)].
  - split; reflexivity.
  - split.
    + intros H0. rewrite H0 in Hcount. destruct selected; [contradiction|discriminate].
    + intros ->. reflexivity.
Qed.

Lemma consensus_record_range_witness :
  ∃ c, get_player_consensus_score mixed_store "saka" = Returns c
     ∧ (-4 <= consensus_score c <= 6)%Q ∧ mention_count c ≠ 0%nat.
Proof.
  destruct (get_player_consensus_score mixed_store "saka") as [c| |] eqn:E;
    [|vm_compute in E; discriminate..].
  destruct (consensus_record_range mixed_store "saka" c E) as [Hrange Hzero].
  exists c. split; [reflexivity|]. split; [exact Hrange|].
  vm_compute in E. injection E as <-. discriminate.
Defined.

Lemma web_score_of_range (consensus : ConsensusRecord)
  (injury_status : option string) (expected_start : bool) :
  (-4 <= consensus_score consensus <= 6)%Q →
  (0 <= web_score_of consensus injury_status expected_start <= 8.5)%Q.
Proof.
  intros Hc. unfold web_score_of, py_max, py_min.
  destruct (status_is injury_status "out"),
           (status_is injury_status "doubtful"),
           (status_is injury_status "suspended"),
           expected_start,
           (3 <=? mention_count consensus)%nat; simpl; q_cases; lra.
Qed.

(** X2: the web score that [integrate_web_data] returns lies between 0 and
    8.5: the consensus is at most 6, the starter bonus 1.5 and the mention
    boost 1.0, so the upper clamp at 10 is never reached.  With web
    integration off the score is the neutral 5.0. *)
Theorem integrate_web_data_range (self : FPLRecommender) (player_row : Element.t)
  (web_score : Q) :
  integrate_web_data self player_row = Returns web_score →
  (0 <= web_score <= 8.5)%Q
  ∧ (web_disabled self → (web_score == 5.0)%Q).
Proof.
  unfold integrate_web_data, web_disabled. intros H.
  destruct (use_web_data self) eqn:Euse.
  - destruct (web_aggregator self) as [agg|] eqn:Eagg.
    + apply bind_Returns in H as (c & Hc & H).
      apply bind_Returns in H as (inj & _ & [= <-]).
      split; [|intros [? | ?]; discriminate].
      apply web_score_of_range. apply (consensus_score_range agg _ c Hc).
    + injection H as <-. split; [lra | intros _; reflexivity].
  - injection H as <-. split; [lra | intros _; reflexivity].
Qed.

Lemma integrate_web_data_range_witness :
  ∃ web_score, integrate_web_data injured_state salah = Returns web_score
             ∧ (0 <= web_score <= 8.5)%Q.
Proof.
  destruct (integrate_web_data injured_state salah) as [w| |] eqn:E;
    [|vm_compute in E; discriminate..].
  exists w. split; [reflexivity|].
  apply (integrate_web_data_range injured_state salah w E).
Defined.

(** X3: the web captaincy score of [suggest_captain].  A player named in a
    captain recommendation gets between 8.5 and 10; any other player gets at
    most 7.2 (and at least -4.8), so a web captain pick always has the higher
    web term. *)
Theorem web_captain_score_range (self : FPLRecommender) (player : Element.t)
  (score : Q) (is_web_captain : bool) :
  web_captain_score_of self player = Returns (score, is_web_captain) →
  if is_web_captain then (8.5 <= score <= 10)%Q else (-4.8 <= score <= 7.2)%Q.
Proof.
  unfold web_captain_score_of. intros H.
  destruct (web_aggregator self) as [agg|];
    [|injection H as <- <-; lra].
  destruct (recommendations (player_data agg)) as [|r0 recs] eqn:Erecs;
    [injection H as <- <-; lra|].
  apply bind_Returns in H as (named & _ & H).
  destruct (List.filter _ named) as [|c0 caps] eqn:Ecaps.
  - apply bind_Returns in H as (c & Hc & H).
    pose proof (consensus_score_range agg _ c Hc) as Hr.
    destruct (0 <? mention_count c)%nat; injection H as <- <-; [|lra].
    unfold py_min. q_cases; lra.
  - injection H as <- <-.
    assert (Hn : (1 <= Q_of_nat (S (length caps)))%Q).
    { rewrite Q_of_nat_S.
      assert (0 <= Q_of_nat (length caps))%Q; [|lra].
      unfold Q_of_nat, Qle. simpl. lia. }
    cbn [length]. unfold py_min. q_cases; lra.
Qed.

Lemma web_captain_score_range_witness :
  ∃ score, web_captain_score_of captain_state salah = Returns (score, true)
         ∧ (8.5 <= score <= 10)%Q.
Proof.
  destruct (web_captain_score_of captain_state salah) as [[score b]| |] eqn:E;
    [|vm_compute in E; discriminate..].
  assert (Hb : b = true) by (vm_compute in E; injection E as _ <-; reflexivity).
  subst b. exists score. split; [reflexivity|].
  apply (web_captain_score_range captain_state salah score true E).
Defined.

(** ** Ranges of the player score *)

Lemma inject_Z_le (x y : Z) : (x <= y)%Z → (inject_Z x <= inject_Z y)%Q.
Proof. intros H. rewrite <- Zle_Qle. exact H. Qed.

Lemma fixture_difficulty_range (self : FPLRecommender) (player_id : Z)
  (num_fixtures : nat) :
  difficulties_rated self player_id →
  (1 <= calculate_fixture_difficulty_score self player_id num_fixtures <= 5)%Q.
Proof.
  intros Hrated. unfold calculate_fixture_difficulty_score.
  assert (Hall : Forall (λ f, (1 <= Summary.difficulty f <= 5)%Z)
                        (get_player_fixtures self player_id num_fixtures)).
  { unfold get_player_fixtures.
    destruct (element_summary self player_id) as [s|] eqn:Es; [|constructor].
    apply Forall_take. apply (Hrated s Es). }
  destruct (get_player_fixtures self player_id num_fixtures) as [|f0 fs] eqn:Ef.
  { lra. }
  set (ds := map (λ f, inject_Z (Summary.difficulty f)) (f0 :: fs)).
  assert (Hlen : length (f0 :: fs) = length ds) by (unfold ds; rewrite length_map; reflexivity).
  rewrite Hlen.
  assert (Hne : ds ≠ []) by discriminate.
  split.
  - apply mean_lower; [exact Hne|]. apply Forall_forall. intros x Hx.
    apply list_elem_of_fmap in Hx as (f & -> & Hf).
    rewrite Forall_forall in Hall.
    apply (inject_Z_le 1). apply (Hall f Hf).
  - apply mean_upper; [exact Hne|]. apply Forall_forall. intros x Hx.
    apply list_elem_of_fmap in Hx as (f & -> & Hf).
    rewrite Forall_forall in Hall.
    apply (inject_Z_le _ 5). apply (Hall f Hf).
Qed.

(** X4: the fixture difficulty is the neutral 3.0 when the API request
    fails, when it lists no fixture (whatever it lists of the past), or when
    [num_fixtures] is 0.  Otherwise it is the mean of the first
    [num_fixtures] ratings: with ratings between 1 and 5 it lies between 1
    and 5. *)
Theorem calculate_fixture_difficulty_score_range (self : FPLRecommender)
  (player_id : Z) (num_fixtures : nat) :
  (element_summary self player_id = None
   ∨ (∃ s, element_summary self player_id = Some s ∧ Summary.fixtures s = [])
   ∨ num_fixtures = 0%nat →
   calculate_fixture_difficulty_score self player_id num_fixtures = 3.0%Q)
  ∧ (difficulties_rated self player_id →
     (1 <= calculate_fixture_difficulty_score self player_id num_fixtures <= 5)%Q).
Proof.
  split; [|apply fixture_difficulty_range].
  unfold calculate_fixture_difficulty_score, get_player_fixtures.
  intros [-> | [(s & -> & ->) | ->]];
    [reflexivity | destruct num_fixtures; reflexivity |].
  destruct (element_summary self player_id); reflexivity.
Qed.

Lemma calculate_fixture_difficulty_score_range_witness :
  (1 <= calculate_fixture_difficulty_score captain_state 7 5 <= 5)%Q
  ∧ (calculate_fixture_difficulty_score captain_state 7 5 == 3)%Q
  ∧ calculate_fixture_difficulty_score season_over_state 7 5 = 3.0%Q.
Proof.
  split; [|split].
  - apply (calculate_fixture_difficulty_score_range captain_state 7 5).
    intros s [= <-]. simpl.
    repeat (apply Forall_cons; split; [simpl; lia|]). apply Forall_nil_2.
  - vm_compute. reflexivity.
  - apply (calculate_fixture_difficulty_score_range season_over_state 7 5).
    right. left. eexists. split; reflexivity.
Defined.

Lemma avg_points_non_negative (self : FPLRecommender) (player_id : Z)
  (next_opponent : opponent) :
  history_non_negative self player_id →
  (0 <= avg_points_vs_team self player_id next_opponent)%Q.
Proof.
  intros Hnn. unfold avg_points_vs_team.
  destruct (element_summary self player_id) as [s|] eqn:Es; [|lra].
  specialize (Hnn s Es).
  destruct (List.filter _ (Summary.history s)) as [|h0 hs] eqn:Ef; [lra|].
  set (ps := map (λ h, inject_Z (Summary.total_points h)) (h0 :: hs)).
  assert (Hlen : length (h0 :: hs) = length ps)
    by (unfold ps; rewrite length_map; reflexivity).
  rewrite Hlen. apply mean_lower; [discriminate|].
  apply Forall_forall. intros x Hx.
  apply list_elem_of_fmap in Hx as (h & -> & Hh).
  rewrite <- Ef in Hh. apply elem_of_List_filter in Hh as [Hh _].
  rewrite Forall_forall in Hnn. apply (inject_Z_le 0). apply (Hnn h Hh).
Qed.

(** X5: for a player with form at most 10, fixtures rated 1 to 5, no
    negative match total against the opponent and a non-negative season
    total, the score that [calculate_player_score] returns lies between 0.4
    and 10, with or without web data. *)
Theorem calculate_player_score_range (self : FPLRecommender)
  (player_row : Element.t) (next_opponent : opponent) (score : Q) :
  (Element.form_numeric player_row <= 10)%Q →
  difficulties_rated self (Element.id player_row) →
  history_non_negative self (Element.id player_row) →
  (0 <= Element.total_points player_row)%Z →
  calculate_player_score self player_row next_opponent = Returns score →
  (0.4 <= score <= 10)%Q.
Proof.
  intros Hform Hrated Hhist Hpts H.
  unfold calculate_player_score in H.
  apply bind_Returns in H as (web & Hweb & H).
  assert (Hw : (0 <= web <= 8.5)%Q).
  { unfold integrate_web_data in Hweb.
    destruct (use_web_data self); [|injection Hweb as <-; lra].
    destruct (web_aggregator self) as [agg|]; [|injection Hweb as <-; lra].
    apply bind_Returns in Hweb as (c & Hc & Hweb).
    apply bind_Returns in Hweb as (inj & _ & [= <-]).
    apply web_score_of_range. apply (consensus_score_range agg _ c Hc). }
  pose proof (fixture_difficulty_range self (Element.id player_row) 5 Hrated) as Hfd.
  assert (Hfs : (0 <= form_score_of player_row <= 10)%Q).
  { unfold form_score_of. q_cases; lra. }
  assert (Hhs : (0 <= historical_score_of self (Element.id player_row) next_opponent
                 <= 10)%Q).
  { unfold historical_score_of, py_min.
    pose proof (avg_points_non_negative self _ next_opponent Hhist).
    destruct (opponent_truthy next_opponent); q_cases; lra. }
  assert (Hps : (0 <= py_min (inject_Z (Element.total_points player_row) / 20) 10
                 <= 10)%Q).
  { pose proof (inject_Z_le 0 _ Hpts) as Hq. change (inject_Z 0) with 0%Q in Hq.
    unfold py_min. q_cases; q_norm; lra. }
  assert (His : (0 <= (if Qltb 0 (Element.ict_index_numeric player_row)
                       then py_min (Element.ict_index_numeric player_row / 20) 10
                       else 0) <= 10)%Q).
  { unfold py_min. q_cases; q_norm; lra. }
  revert H.
  generalize dependent (form_score_of player_row).
  generalize dependent (historical_score_of self (Element.id player_row) next_opponent).
  generalize dependent (py_min (inject_Z (Element.total_points player_row) / 20) 10).
  generalize dependent (if Qltb 0 (Element.ict_index_numeric player_row)
                        then py_min (Element.ict_index_numeric player_row / 20) 10
                        else 0%Q).
  generalize dependent (calculate_fixture_difficulty_score self (Element.id player_row) 5).
  intros fd Hfd ict His pts Hps hist Hhs form Hfs H.
  destruct (use_web_data self), (web_aggregator self);
    injection H as <-; q_norm; lra.
Qed.

Lemma calculate_player_score_range_witness :
  ∃ score, calculate_player_score captain_state salah (Opponent 1) = Returns score
         ∧ (0.4 <= score <= 10)%Q.
Proof.
  destruct (calculate_player_score captain_state salah (Opponent 1))
    as [score| |] eqn:E; [|vm_compute in E; discriminate..].
  exists score. split; [reflexivity|].
  apply (calculate_player_score_range captain_state salah (Opponent 1) score).
  - vm_compute. discriminate.
  - intros s [= <-]. simpl.
    repeat (apply Forall_cons; split; [simpl; lia|]). apply Forall_nil_2.
  - intros s [= <-]. simpl.
    repeat (apply Forall_cons; split; [simpl; lia|]). apply Forall_nil_2.
  - vm_compute. discriminate.
  - exact E.
Defined.

(** ** Order and size of the returned lists *)

Lemma insert_sorted_descending {A : Type} (key : A → Q) (x : A) (l : list A) :
  descending key l →
  descending key (insert_sorted (λ a b, Qle_bool (key b) (key a)) x l).
Proof.
  unfold descending. induction 1 as [|y l Hl IH Hy]; simpl.
  - constructor; constructor.
  - destruct (Qle_bool (key y) (key x)) eqn:E.
    + apply Qle_bool_iff in E. constructor; [constructor; assumption|].
      constructor; [exact E|].
      eapply Forall_impl; [exact Hy|]. simpl. intros z Hz. lra.
    + apply Qle_bool_gt in E. constructor; [exact IH|].
      apply Forall_forall. intros z Hz.
      rewrite (insert_sorted_perm _ x l) in Hz.
      apply elem_of_cons in Hz as [-> | Hz]; [lra|].
      rewrite Forall_forall in Hy. apply Hy. exact Hz.
Qed.

Lemma sort_descending_descending {A : Type} (key : A → Q) (l : list A) :
  descending key (sort_descending key l).
Proof.
  unfold sort_descending, stable_sort. induction l as [|x l IH]; simpl.
  - constructor.
  - apply insert_sorted_descending. exact IH.
Qed.

Lemma descending_take {A : Type} (key : A → Q) (n : nat) (l : list A) :
  descending key l → descending key (take n l).
Proof.
  unfold descending. intros H. revert n.
  induction H as [|x l Hl IH Hx]; intros [|n]; simpl; try constructor.
  - apply IH.
  - apply Forall_take. exact Hx.
Qed.

Lemma descending_py_slice_to {A : Type} (key : A → Q) (k : Z) (l : list A) :
  descending key l → descending key (py_slice_to k l).
Proof. unfold py_slice_to. destruct (0 <=? k)%Z; apply descending_take. Qed.

Lemma length_py_slice_to {A : Type} (k : Z) (l : list A) :
  (0 <= k)%Z → length (py_slice_to k l) = Nat.min (Z.to_nat k) (length l).
Proof.
  intros Hk. unfold py_slice_to.
  destruct (Z.leb_spec 0 k); [|lia]. apply length_take.
Qed.

Lemma length_stable_sort {A : Type} (le : A → A → bool) (l : list A) :
  length (stable_sort le l) = length l.
Proof. apply Permutation_length. apply stable_sort_perm. Qed.

Lemma df_apply_length {A B : Type} (f : A → outcome B) (l : list A) (l' : list B) :
  df_apply f l = Returns l' → length l' = length l.
Proof.
  revert l'. induction l as [|x l IH]; intros l'; simpl.
  - intros [= <-]. reflexivity.
  - intros H. apply bind_Returns in H as (y & _ & H).
    apply bind_Returns in H as (ys & Hys & [= <-]).
    simpl. rewrite (IH ys Hys). reflexivity.
Qed.

(** X6: [suggest_transfers] returns its suggestions in descending order of
    improvement, and at most [num_transfers * 5] of them when [num_transfers]
    is not negative (none for 0).  On the market of seven, the three
    suggestions for the defender and the four for the midfielder are merged
    by improvement and the best five are kept. *)
Theorem suggest_transfers_sorted_top (self : FPLRecommender) (num_transfers : Z)
  (position_filter : option string) (l : list Transfer.t) :
  suggest_transfers self num_transfers position_filter = Returns l →
  descending Transfer.improvement l
  ∧ ((0 <= num_transfers)%Z → (Z.of_nat (length l) <= num_transfers * 5)%Z).
Proof.
  unfold suggest_transfers. intros H.
  apply bind_Returns in H as (squad & _ & H).
  apply bind_Returns in H as (available & _ & H).
  apply bind_Returns in H as (sugg & _ & [= <-]).
  split.
  - apply descending_py_slice_to, sort_descending_descending.
  - intros Hn. rewrite length_py_slice_to by lia. lia.
Qed.

Lemma suggest_transfers_sorted_top_witness :
  ∃ l, suggest_transfers market_state 1 None = Returns l
     ∧ map Transfer.in_player_id l = [13; 14; 17; 16; 12]%Z
     ∧ map Transfer.out_player_id l = [2; 1; 2; 1; 2]%Z
     ∧ descending Transfer.improvement l
     ∧ (Z.of_nat (length l) <= 1 * 5)%Z.
Proof.
  destruct (suggest_transfers market_state 1 None) as [l| |] eqn:E;
    [|vm_compute in E; discriminate..].
  destruct (suggest_transfers_sorted_top market_state 1 None l E) as [Hs Hn].
  exists l. split; [reflexivity|].
  split; [vm_compute in E; injection E as <-; reflexivity|].
  split; [vm_compute in E; injection E as <-; reflexivity|].
  split; [exact Hs | apply Hn; lia].
Defined.

(** ** Who is swapped for whom *)

Lemma consider_in_inv (P : Transfer.t → Prop) (self : FPLRecommender)
  (counts : gmap Z nat) (pos : string) (o i : Scored.t)
  (acc acc' : list Transfer.t) :
  (∀ imp wm ws, P (mk_transfer self pos o i imp wm ws)) →
  Forall P acc →
  consider_in self counts pos o acc i = Returns acc' →
  Forall P acc'.
Proof.
  intros Hnew Hacc. unfold consider_in.
  destruct (_ && _); [intros [= <-]; exact Hacc|].
  destruct (Qltb _ _); [|intros [= <-]; exact Hacc].
  intros H. apply bind_Returns in H as (web & _ & [= <-]).
  apply Forall_app. split; [exact Hacc|].
  apply Forall_cons. split; [apply Hnew | apply Forall_nil_2].
Qed.

Lemma cell_is_Val (c : cell string) (s : string) :
  cell_is c s = true ↔ c = Val s.
Proof.
  destruct c as [|x]; simpl.
  - split; discriminate.
  - rewrite String.eqb_eq. split; [intros ->; reflexivity | intros [= ->]; reflexivity].
Qed.

Lemma consider_out_paired (self : FPLRecommender) (position_filter : option string)
  (squad available : list Scored.t) (pos : string)
  (pos_available : list Scored.t) (o : Scored.t) (acc acc' : list Transfer.t) :
  o ∈ squad →
  pos ∈ ["GK"; "DEF"; "MID"; "FWD"] →
  (∀ wanted, str_truthy position_filter = Some wanted → pos = wanted) →
  cell_is (position_name (Scored.row o)) pos = true →
  (∀ i, i ∈ pos_available →
        i ∈ available ∧ cell_is (position_name (Scored.row i)) pos = true) →
  Forall (paired self position_filter squad available) acc →
  consider_out self squad pos pos_available acc o = Returns acc' →
  Forall (paired self position_filter squad available) acc'.
Proof.
  intros Ho Hpos Hwanted Hopos Havail Hacc. unfold consider_out.
  destruct (List.filter _ pos_available) as [|a0 aff] eqn:Eaff.
  { intros [= <-]. exact Hacc. }
  apply for_each_inv; [|exact Hacc].
  intros s i s' Hi Hs Hbody.
  apply subseteq_take, elem_of_stable_sort in Hi.
  rewrite <- Eaff in Hi. apply elem_of_List_filter in Hi as [Hi Hprice].
  apply Qle_bool_iff in Hprice.
  destruct (Havail i Hi) as [Hia Hipos].
  refine (consider_in_inv _ self _ pos o i s s' _ Hs Hbody).
  intros imp wm ws. exists pos, o, i.
  repeat (split; [first [assumption | reflexivity]|]). reflexivity.
Qed.

Lemma consider_pos_paired (self : FPLRecommender) (position_filter : option string)
  (squad available : list Scored.t) (pos : string) (acc acc' : list Transfer.t) :
  pos ∈ ["GK"; "DEF"; "MID"; "FWD"] →
  Forall (paired self position_filter squad available) acc →
  consider_pos self position_filter squad available acc pos = Returns acc' →
  Forall (paired self position_filter squad available) acc'.
Proof.
  intros Hpos Hacc. unfold consider_pos.
  destruct (str_truthy position_filter) as [wanted|] eqn:Epf.
  - destruct (String.eqb_spec pos wanted) as [-> | Hne]; simpl.
    + apply for_each_inv; [|exact Hacc].
      intros s o s' Ho Hs Hbody.
      apply elem_of_stable_sort, elem_of_List_filter in Ho as [Ho Hopos].
      refine (consider_out_paired self position_filter squad available wanted _ o s s'
                Ho Hpos _ Hopos _ Hs Hbody).
      * rewrite Epf. intros w [= <-]. reflexivity.
      * intros i Hi. apply elem_of_List_filter in Hi. exact Hi.
    + intros [= <-]. exact Hacc.
  - apply for_each_inv; [|exact Hacc].
    intros s o s' Ho Hs Hbody.
    apply elem_of_stable_sort, elem_of_List_filter in Ho as [Ho Hopos].
    refine (consider_out_paired self position_filter squad available pos _ o s s'
              Ho Hpos _ Hopos _ Hs Hbody).
    + rewrite Epf. discriminate.
    + intros i Hi. apply elem_of_List_filter in Hi. exact Hi.
Qed.

(** X7: every suggestion of [suggest_transfers] sells a squad member and buys
    an active player from outside the squad; both play in the position the
    suggestion is filed under (the requested one when a position filter is
    given), and the incoming price is covered by the bank plus the outgoing
    player's price. *)
Theorem suggest_transfers_eligible (self : FPLRecommender) (num_transfers : Z)
  (position_filter : option string) (l : list Transfer.t) :
  suggest_transfers self num_transfers position_filter = Returns l →
  Forall (eligible self position_filter) l.
Proof.
  unfold suggest_transfers. intros H.
  apply bind_Returns in H as (squad & Hsquad & H).
  apply bind_Returns in H as (available & Havail & H).
  apply bind_Returns in H as (sugg & Hloop & [= <-]).
  apply score_rows_rows in Hsquad. apply score_rows_rows in Havail.
  assert (Hall : Forall (paired self position_filter squad available) sugg).
  { revert Hloop. apply for_each_inv; [|apply Forall_nil_2].
    intros s pos s' Hpos Hs Hbody.
    apply (consider_pos_paired self position_filter squad available pos s s' Hpos Hs Hbody). }
  apply Forall_forall. intros t Ht.
  apply elem_of_py_slice_to, elem_of_stable_sort in Ht.
  rewrite Forall_forall in Hall.
  destruct (Hall t Ht)
    as (pos & o & i & Ho & Hi & Hpos & Hopos & Hipos & Hw & Hprice
        & Htpos & Hoid & Hiid & Hop & Hip).
  assert (Horow : Scored.row o ∈ get_current_squad_df self).
  { rewrite <- Hsquad. apply list_elem_of_fmap. exists o. split; [reflexivity|exact Ho]. }
  assert (Hirow : Scored.row i ∈ map Scored.row available).
  { apply list_elem_of_fmap. exists i. split; [reflexivity|exact Hi]. }
  rewrite Havail in Hirow.
  assert (Hbase : Scored.row i ∈
    List.filter (λ p, negb (bool_decide (Element.id p ∈ squad_ids self))
                      && String.eqb (Element.status p) "a") (players_df self)).
  { destruct (str_truthy position_filter); [|exact Hirow].
    apply elem_of_List_filter in Hirow as [Hirow _]. exact Hirow. }
  apply elem_of_List_filter in Hbase as [Hin Hcond].
  apply andb_true_iff in Hcond as [Hid Hst].
  apply negb_true_iff, bool_decide_eq_false in Hid.
  apply String.eqb_eq in Hst.
  apply cell_is_Val in Hopos. apply cell_is_Val in Hipos.
  exists (Scored.row o), (Scored.row i). rewrite Htpos, Hop, Hip.
  repeat (split; [first [assumption | reflexivity]|]). exact Hprice.
Qed.

Lemma suggest_transfers_eligible_witness :
  ∃ l, suggest_transfers transfer_state 2 (Some "MID") = Returns l
     ∧ length l = 1%nat ∧ Forall (eligible transfer_state (Some "MID")) l.
Proof.
  pose proof (suggest_transfers_eligible transfer_state 2 (Some "MID")) as H.
  destruct (suggest_transfers transfer_state 2 (Some "MID")) as [l| |] eqn:E;
    [|vm_compute in E; discriminate..].
  exists l. split; [reflexivity|]. split.
  - vm_compute in E. injection E as <-. reflexivity.
  - apply H. reflexivity.
Defined.

(** ** The gameweek dictionaries *)

Lemma teams_dict_None (self : FPLRecommender) (team : Z) :
  teams_dict self !! team = None ↔ team ∉ map Team.id (teams self).
Proof.
  unfold teams_dict. rewrite <- (not_elem_of_list_to_map (M := gmap Z)).
  assert (Hiff : team ∈ (rev (map (λ t, (Team.id t, Team.short_name t)) (teams self))).*1
                 ↔ team ∈ map Team.id (teams self)).
  { rewrite !list_elem_of_fmap. split.
    - intros ([k v] & -> & Hkv). apply list_elem_of_In, in_rev in Hkv.
      apply in_map_iff in Hkv as (t & [= <- <-] & Ht).
      exists t. split; [reflexivity | apply list_elem_of_In; exact Ht].
    - intros (t & -> & Ht).
      exists (Team.id t, Team.short_name t). split; [reflexivity|].
      apply list_elem_of_In, in_rev. rewrite rev_involutive.
      apply in_map_iff. exists t. split; [reflexivity|].
      apply list_elem_of_In. exact Ht. }
  rewrite Hiff. reflexivity.
Qed.

Lemma add_fixture_Returns (self : FPLRecommender) (d d' : Gw.dicts)
  (fixture : Fixture.t) :
  add_fixture self d fixture = Returns d' →
  ∃ name_a name_h,
    teams_dict self !! Fixture.team_a fixture = Some name_a
    ∧ teams_dict self !! Fixture.team_h fixture = Some name_h
    ∧ d' = Gw.mk
        (<[Fixture.team_a fixture := Fixture.team_h fixture]>
           (<[Fixture.team_h fixture := Fixture.team_a fixture]>
              (Gw.team_next_opponent d)))
        (<[Fixture.team_a fixture := name_h]>
           (<[Fixture.team_h fixture := name_a]> (Gw.opponent_names d)))
        (<[Fixture.team_a fixture := false]>
           (<[Fixture.team_h fixture := true]> (Gw.is_home d))).
Proof.
  unfold add_fixture.
  destruct (teams_dict self !! Fixture.team_a fixture) as [na|]; [|discriminate].
  destruct (teams_dict self !! Fixture.team_h fixture) as [nh|]; [|discriminate].
  intros [= <-]. exists na, nh. repeat split.
Qed.

Lemma add_fixture_outcome (self : FPLRecommender) (d : Gw.dicts)
  (fixture : Fixture.t) :
  (Fixture.team_a fixture ∈ map Team.id (teams self)
   ∧ Fixture.team_h fixture ∈ map Team.id (teams self)
   ∧ ∃ d', add_fixture self d fixture = Returns d')
  ∨ ((Fixture.team_a fixture ∉ map Team.id (teams self)
      ∨ Fixture.team_h fixture ∉ map Team.id (teams self))
     ∧ add_fixture self d fixture = Raises KeyError).
Proof.
  unfold add_fixture.
  destruct (teams_dict self !! Fixture.team_a fixture) as [na|] eqn:Ea.
  - destruct (teams_dict self !! Fixture.team_h fixture) as [nh|] eqn:Eh.
    + left. split; [|split; [|eexists; reflexivity]].
      * destruct (decide (Fixture.team_a fixture ∈ map Team.id (teams self)))
          as [Hin|Hout]; [exact Hin|].
        apply teams_dict_None in Hout. congruence.
      * destruct (decide (Fixture.team_h fixture ∈ map Team.id (teams self)))
          as [Hin|Hout]; [exact Hin|].
        apply teams_dict_None in Hout. congruence.
    + right. split; [right; apply teams_dict_None; exact Eh | reflexivity].
  - right. split; [left; apply teams_dict_None; exact Ea | reflexivity].
Qed.

(** The loop over the fixtures returns when every team is listed and raises
    [KeyError] otherwise. *)
Lemma gameweek_dicts_outcome (self : FPLRecommender) (fixtures : list Fixture.t)
  (d : Gw.dicts) :
  (Forall (λ f, Fixture.team_a f ∈ map Team.id (teams self)
                ∧ Fixture.team_h f ∈ map Team.id (teams self)) fixtures
   ∧ ∃ d', for_each fixtures (add_fixture self) d = Returns d')
  ∨ (Exists (λ f, Fixture.team_a f ∉ map Team.id (teams self)
                  ∨ Fixture.team_h f ∉ map Team.id (teams self)) fixtures
     ∧ for_each fixtures (add_fixture self) d = Raises KeyError).
Proof.
  revert d. induction fixtures as [|f fixtures IH]; intros d.
  - left. split; [apply Forall_nil_2 | eexists; reflexivity].
  - simpl. destruct (add_fixture_outcome self d f)
      as [(Ha & Hh & d1 & Hd1) | [Hmiss Hraise]].
    + rewrite Hd1. simpl. destruct (IH d1) as [[Hall [d' Hd']] | [Hex Hraise]].
      * left. split; [apply Forall_cons; split; [split|]; assumption|].
        exists d'. exact Hd'.
      * right. split; [apply Exists_cons; right; exact Hex | exact Hraise].
    + right. rewrite Hraise. split; [apply Exists_cons; left; exact Hmiss | reflexivity].
Qed.

(** X8: [suggest_captain] raises [KeyError] as soon as a fixture of the
    current gameweek names a team that [data['teams']] does not list: the
    look-up [teams_dict[...]] for the opponent's short name fails before any
    player is scored. *)
Theorem suggest_captain_unlisted_team (self : FPLRecommender) (top_n : Z) :
  Exists (λ f, Fixture.team_a f ∉ map Team.id (teams self)
               ∨ Fixture.team_h f ∉ map Team.id (teams self))
         (get_fixtures_for_gameweek self (current_gameweek self)) →
  suggest_captain self top_n = Raises KeyError.
Proof.
  intros Hex. unfold suggest_captain.
  destruct (gameweek_dicts_outcome self
              (get_fixtures_for_gameweek self (current_gameweek self)) Gw.empty)
    as [[Hall _] | [_ Hraise]].
  - exfalso. apply Exists_exists in Hex as (f & Hf & Hmiss).
    rewrite Forall_forall in Hall. destruct (Hall f Hf) as [Ha Hh].
    destruct Hmiss as [Hm | Hm]; contradiction.
  - rewrite Hraise. reflexivity.
Qed.

Lemma suggest_captain_unlisted_team_witness :
  suggest_captain unlisted_team_state 5 = Raises KeyError.
Proof.
  apply (suggest_captain_unlisted_team unlisted_team_state 5).
  apply Exists_cons. left. left. vm_compute.
  intros H. apply list_elem_of_singleton in H. discriminate.
Defined.

Lemma gameweek_dicts_opponents (self : FPLRecommender) (fixtures : list Fixture.t)
  (d0 d : Gw.dicts) :
  for_each fixtures (add_fixture self) d0 = Returns d →
  Gw.team_next_opponent d
  = fold_left (λ m fixture,
                 <[Fixture.team_a fixture := Fixture.team_h fixture]>
                   (<[Fixture.team_h fixture := Fixture.team_a fixture]> m))
              fixtures (Gw.team_next_opponent d0).
Proof.
  revert d0. induction fixtures as [|f fixtures IH]; intros d0; simpl.
  - intros [= <-]. reflexivity.
  - intros H. apply bind_Returns in H as (d1 & Hd1 & H).
    apply add_fixture_Returns in Hd1 as (na & nh & _ & _ & ->).
    rewrite (IH _ H). reflexivity.
Qed.

Lemma gameweek_dicts_blank (self : FPLRecommender) (fixtures : list Fixture.t)
  (d : Gw.dicts) (team : Z) :
  (∀ f, f ∈ fixtures → ¬ plays_in team f) →
  for_each fixtures (add_fixture self) Gw.empty = Returns d →
  Gw.team_next_opponent d !! team = None
  ∧ Gw.opponent_names d !! team = None
  ∧ Gw.is_home d !! team = None.
Proof.
  intros Hblank.
  apply (for_each_inv (λ d, Gw.team_next_opponent d !! team = None
                            ∧ Gw.opponent_names d !! team = None
                            ∧ Gw.is_home d !! team = None)).
  - intros d0 f d1 Hf (H1 & H2 & H3) Hstep.
    apply add_fixture_Returns in Hstep as (na & nh & _ & _ & ->). simpl.
    assert (Hh : Fixture.team_h f ≠ team) by (intros E; apply (Hblank f Hf); left; exact E).
    assert (Ha : Fixture.team_a f ≠ team) by (intros E; apply (Hblank f Hf); right; exact E).
    rewrite !lookup_insert_ne by assumption. auto.
  - simpl. rewrite !lookup_empty. auto.
Qed.

Lemma gameweek_dicts_home_sound (self : FPLRecommender) (fixtures : list Fixture.t)
  (d : Gw.dicts) :
  for_each fixtures (add_fixture self) Gw.empty = Returns d →
  ∀ team,
    (Gw.is_home d !! team = Some true →
     ∃ f, f ∈ fixtures ∧ Fixture.team_h f = team)
    ∧ (Gw.is_home d !! team = Some false →
       ∃ f, f ∈ fixtures ∧ Fixture.team_a f = team)
    ∧ (∀ opp, Gw.team_next_opponent d !! team = Some opp →
         ∃ f, f ∈ fixtures
              ∧ ((Fixture.team_h f = team ∧ Fixture.team_a f = opp)
                 ∨ (Fixture.team_a f = team ∧ Fixture.team_h f = opp))).
Proof.
  apply (for_each_inv (λ d, ∀ team,
    (Gw.is_home d !! team = Some true →
     ∃ f, f ∈ fixtures ∧ Fixture.team_h f = team)
    ∧ (Gw.is_home d !! team = Some false →
       ∃ f, f ∈ fixtures ∧ Fixture.team_a f = team)
    ∧ (∀ opp, Gw.team_next_opponent d !! team = Some opp →
         ∃ f, f ∈ fixtures
              ∧ ((Fixture.team_h f = team ∧ Fixture.team_a f = opp)
                 ∨ (Fixture.team_a f = team ∧ Fixture.team_h f = opp))))).
  - intros d0 f d1 Hf IH Hstep team.
    apply add_fixture_Returns in Hstep as (na & nh & _ & _ & ->). simpl.
    destruct (IH team) as (IH1 & IH2 & IH3).
    destruct (decide (Fixture.team_a f = team)) as [Ea | Ea].
    + rewrite Ea, !lookup_insert_eq. split; [discriminate|].
      split; [intros _; exists f; split; [exact Hf | exact Ea]|].
      intros opp [= <-]. exists f. split; [exact Hf|]. right. split; [exact Ea|reflexivity].
    + rewrite !(lookup_insert_ne _ (Fixture.team_a f)) by exact Ea.
      destruct (decide (Fixture.team_h f = team)) as [Eh | Eh].
      * rewrite Eh, !lookup_insert_eq.
        split; [intros _; exists f; split; [exact Hf | exact Eh]|].
        split; [discriminate|].
        intros opp [= <-]. exists f. split; [exact Hf|]. left. split; [exact Eh|reflexivity].
      * rewrite !lookup_insert_ne by exact Eh. auto.
  - intros team. simpl. rewrite !lookup_empty. repeat split; discriminate.
Qed.

Lemma gameweek_dicts_listed (self : FPLRecommender) (fixtures : list Fixture.t)
  (d0 d : Gw.dicts) (team : Z) :
  for_each fixtures (add_fixture self) d0 = Returns d →
  is_Some (Gw.is_home d0 !! team) ∨ (∃ f, f ∈ fixtures ∧ plays_in team f) →
  is_Some (Gw.is_home d !! team).
Proof.
  revert d0. induction fixtures as [|f fixtures IH]; intros d0; simpl.
  - intros [= <-] [H | (f & Hf & _)]; [exact H | inversion Hf].
  - intros H Hcase. apply bind_Returns in H as (d1 & Hd1 & H).
    apply (IH d1 H).
    apply add_fixture_Returns in Hd1 as (na & nh & _ & _ & ->). simpl.
    destruct (decide (Fixture.team_a f = team)) as [Ea | Ea];
      [left; rewrite Ea, lookup_insert_eq; eexists; reflexivity|].
    destruct (decide (Fixture.team_h f = team)) as [Eh | Eh];
      [left; rewrite lookup_insert_ne, Eh, lookup_insert_eq by exact Ea;
       eexists; reflexivity|].
    destruct Hcase as [Hsome | (g & Hg & Hplays)].
    + left. rewrite !lookup_insert_ne by assumption. exact Hsome.
    + apply elem_of_cons in Hg as [-> | Hg].
      * destruct Hplays; contradiction.
      * right. exists g. split; assumption.
Qed.

(** X9: the dictionaries that [suggest_captain] fills from the gameweek's
    fixtures.  Its opponent map is the one [suggest_transfers] builds; a team
    has an [is_home] entry exactly when it plays in one of the fixtures; a
    team marked home (away) is the home (away) side of one of them, and a
    recorded opponent is the other side of a fixture of the team. *)
Theorem gameweek_dicts_sound (self : FPLRecommender) (fixtures : list Fixture.t)
  (d : Gw.dicts) :
  for_each fixtures (add_fixture self) Gw.empty = Returns d →
  Gw.team_next_opponent d = team_next_opponent_of fixtures
  ∧ ∀ team,
      (is_Some (Gw.is_home d !! team) ↔ ∃ f, f ∈ fixtures ∧ plays_in team f)
      ∧ (Gw.is_home d !! team = Some true →
         ∃ f, f ∈ fixtures ∧ Fixture.team_h f = team)
      ∧ (Gw.is_home d !! team = Some false →
         ∃ f, f ∈ fixtures ∧ Fixture.team_a f = team)
      ∧ (∀ opp, Gw.team_next_opponent d !! team = Some opp →
           ∃ f, f ∈ fixtures
                ∧ ((Fixture.team_h f = team ∧ Fixture.team_a f = opp)
                   ∨ (Fixture.team_a f = team ∧ Fixture.team_h f = opp))).
Proof.
  intros H. split; [apply (gameweek_dicts_opponents self fixtures Gw.empty d H)|].
  intros team.
  destruct (gameweek_dicts_home_sound self fixtures d H team) as (H1 & H2 & H3).
  split; [|auto]. split.
  - intros [[|] Hb].
    + destruct (H1 Hb) as (f & Hf & E). exists f. split; [exact Hf | left; exact E].
    + destruct (H2 Hb) as (f & Hf & E). exists f. split; [exact Hf | right; exact E].
  - intros Hex. apply (gameweek_dicts_listed self fixtures Gw.empty d team H).
    right. exact Hex.
Qed.

Lemma gameweek_dicts_sound_witness :
  ∃ d, for_each (get_fixtures_for_gameweek captain_state 1)
                (add_fixture captain_state) Gw.empty = Returns d
     ∧ Gw.team_next_opponent d
       = team_next_opponent_of (get_fixtures_for_gameweek captain_state 1)
     ∧ Gw.is_home d !! 12%Z = Some true ∧ Gw.is_home d !! 13%Z = Some false.
Proof.
  destruct (for_each (get_fixtures_for_gameweek captain_state 1)
                     (add_fixture captain_state) Gw.empty) as [d| |] eqn:E;
    [|vm_compute in E; discriminate..].
  destruct (gameweek_dicts_sound captain_state _ d E) as [Hopp _].
  exists d. split; [reflexivity|]. split; [exact Hopp|].
  vm_compute in E. injection E as <-. split; vm_compute; reflexivity.
Defined.

(** ** Captain candidates *)

(** X10: a squad member whose team has no fixture in the current gameweek.
    Its [is_home] and [opponent] cells are NaN; NaN is truthy, so the home
    bonus of 0.5 is added all the same, and the historical term is 0: the
    captain score is (0.40 * fixture + 0.25 * form + 0.15 * web + 0.5) times
    the position multiplier, plus the premium bonus. *)
Theorem captain_candidate_blank_gameweek (self : FPLRecommender)
  (fixtures : list Fixture.t) (d : Gw.dicts) (player : Element.t)
  (web : Q) (is_web_captain : bool) :
  for_each fixtures (add_fixture self) Gw.empty = Returns d →
  (∀ f, f ∈ fixtures → ¬ plays_in (Element.team player) f) →
  web_captain_score_of self player = Returns (web, is_web_captain) →
  ∃ c, captain_candidate self d player = Returns c
     ∧ Captain.is_home c = NaN ∧ Captain.opponent c = NaN
     ∧ (Captain.captain_score c
        == (next_fixture_score self player * 0.40 + form_score_of player * 0.25
            + web * 0.15 + 0.5) * position_multiplier (position_name player)
           + (if Qle_bool 10.0 (value player) then 0.5 else 0))%Q.
Proof.
  intros Hd Hblank Hweb.
  destruct (gameweek_dicts_blank self fixtures d (Element.team player) Hblank Hd)
    as (Hopp & Hname & Hhome).
  unfold captain_candidate. rewrite Hweb. simpl.
  eexists. split; [reflexivity|]. simpl.
  unfold series_map. rewrite Hopp, Hname, Hhome. simpl.
  split; [reflexivity|]. split; [reflexivity|].
  assert (Hhist : (historical_score_of self (Element.id player) OpponentNaN == 0)%Q).
  { apply no_history_score. intros s _ h _. discriminate. }
  unfold captain_finish, captain_base. simpl.
  destruct (Qle_bool 10.0 (value player)); rewrite Hhist; lra.
Qed.

Lemma captain_candidate_blank_gameweek_witness :
  ∃ c, captain_candidate transfer_state Gw.empty weak_mid = Returns c
     ∧ Captain.is_home c = NaN
     ∧ (Captain.captain_score c == 3.85)%Q.
Proof.
  destruct (captain_candidate_blank_gameweek transfer_state [] Gw.empty weak_mid
              5.0%Q false) as (c & Hc & Hhome & _ & Hscore).
  - reflexivity.
  - intros f Hf. inversion Hf.
  - reflexivity.
  - exists c. split; [exact Hc|]. split; [exact Hhome|].
    rewrite Hscore. vm_compute. reflexivity.
Defined.

Lemma captain_candidate_fields (self : FPLRecommender) (d : Gw.dicts)
  (p : Element.t) (c : Captain.t) :
  captain_candidate self d p = Returns c →
  Captain.player_id c = Element.id p
  ∧ Captain.player_name c = full_name p
  ∧ Captain.position c = position_name p
  ∧ Captain.price c = value p
  ∧ Captain.vice_score c = None.
Proof.
  unfold captain_candidate. intros H.
  apply bind_Returns in H as (w & _ & [= <-]). repeat split.
Qed.

(** X11: [suggest_captain] returns its candidates in descending order of
    captain score; there are min(top_n, squad size) of them for a
    non-negative [top_n]; each one is a row of the current squad, with its
    id, name, position and price, and without a vice score. *)
Theorem suggest_captain_sorted_top (self : FPLRecommender) (top_n : Z)
  (l : list Captain.t) :
  suggest_captain self top_n = Returns l →
  descending Captain.captain_score l
  ∧ ((0 <= top_n)%Z →
     length l = Nat.min (Z.to_nat top_n) (length (get_current_squad_df self)))
  ∧ ∀ c, c ∈ l →
      ∃ p, p ∈ get_current_squad_df self
           ∧ (Element.id p ∈ squad_ids self)
           ∧ Captain.player_id c = Element.id p
           ∧ Captain.player_name c = full_name p
           ∧ Captain.position c = position_name p
           ∧ Captain.price c = value p
           ∧ Captain.vice_score c = None.
Proof.
  unfold suggest_captain. intros H.
  apply bind_Returns in H as (d & _ & H).
  apply bind_Returns in H as (cands & Hcands & [= <-]).
  split; [apply descending_py_slice_to, sort_descending_descending|]. split.
  - intros Hn. rewrite length_py_slice_to by exact Hn.
    unfold sort_descending. rewrite length_stable_sort.
    rewrite (df_apply_length _ _ _ Hcands). reflexivity.
  - intros c Hc. apply elem_of_py_slice_to, elem_of_stable_sort in Hc.
    destruct (df_apply_elem _ _ _ Hcands c Hc) as (p & Hp & Hcp).
    exists p. split; [exact Hp|]. split.
    + unfold get_current_squad_df in Hp.
      apply elem_of_List_filter in Hp as [_ Hid].
      apply bool_decide_eq_true in Hid. exact Hid.
    + apply (captain_candidate_fields self d p c Hcp).
Qed.

Lemma suggest_captain_sorted_top_witness :
  ∃ l, suggest_captain captain_state 1 = Returns l
     ∧ descending Captain.captain_score l ∧ length l = 1%nat.
Proof.
  destruct (suggest_captain captain_state 1) as [l| |] eqn:E;
    [|vm_compute in E; discriminate..].
  destruct (suggest_captain_sorted_top captain_state 1 l E) as (Hs & Hn & _).
  exists l. split; [reflexivity|]. split; [exact Hs|].
  rewrite Hn by lia. reflexivity.
Defined.

(** ** Vice-captain: the empty cases *)

Lemma vice_filter_spec (self : FPLRecommender) (options : list Captain.t)
  (captain_choice : option string) (c : Captain.t) :
  suggest_captain self 15 = Returns options →
  c ∈ match str_truthy captain_choice with
      | Some cc => List.filter
          (λ opt, negb (String.eqb (str_lower (Captain.player_name opt))
                                   (str_lower cc))) options
      | None => options
      end
  ↔ c ∈ options ∧ ¬ bears_name captain_choice c.
Proof.
  intros Hopts. unfold bears_name.
  assert (Hnonempty : c ∈ options → str_lower (Captain.player_name c) ≠ "").
  { intros Hc. destruct (suggest_captain_names _ _ _ Hopts c Hc) as (p & _ & ->).
    apply full_name_lower_nonempty. }
  destruct captain_choice as [[|a cc]|]; simpl.
  - split; [|intros [Hc _]; exact Hc]. intros Hc. split; [exact Hc|].
    intros (name & [= <-] & Heq). apply (Hnonempty Hc). exact Heq.
  - rewrite elem_of_List_filter, negb_true_iff. split.
    + intros [Hc Hne]. split; [exact Hc|].
      intros (name & [= <-] & Heq). apply String.eqb_neq in Hne. contradiction.
    + intros [Hc Hne]. split; [exact Hc|]. apply String.eqb_neq.
      intros Heq. apply Hne. exists (String a cc). split; [reflexivity | exact Heq].
  - split; [|intros [Hc _]; exact Hc]. intros Hc. split; [exact Hc|].
    intros (name & [=] & _).
Qed.

(** X12: [suggest_vice_captain] returns whenever [suggest_captain] does, and
    it returns [None] exactly when every captain option bears the supplied
    captain name; with no name supplied ([None] or the empty string) that is
    when there is no option at all.  Otherwise the pick bears another name. *)
Theorem suggest_vice_captain_none (self : FPLRecommender)
  (captain_choice : option string) (options : list Captain.t) :
  suggest_captain self 15 = Returns options →
  ∃ r, suggest_vice_captain self captain_choice = Returns r
     ∧ (r = None ↔ ∀ c, c ∈ options → bears_name captain_choice c)
     ∧ (str_truthy captain_choice = None → (r = None ↔ options = []))
     ∧ (∀ vice, r = Some vice → ¬ bears_name captain_choice vice).
Proof.
  intros Hopts. unfold suggest_vice_captain. rewrite Hopts. simpl.
  pose proof (λ c, vice_filter_spec self options captain_choice c Hopts) as Hspec.
  set (filtered := match str_truthy captain_choice with
                   | Some cc => List.filter _ options
                   | None => options
                   end) in *.
  eexists. split; [reflexivity|].
  assert (Hnil : head (sort_descending vice_key (map set_vice_score filtered)) = None
                 ↔ filtered = []).
  { rewrite head_None. split.
    - intros H. apply (f_equal length) in H.
      unfold sort_descending in H. rewrite length_stable_sort, length_map in H.
      destruct filtered; [reflexivity | discriminate].
    - intros ->. reflexivity. }
  split; [|split].
  - rewrite Hnil. split.
    + intros Hf c Hc.
      destruct captain_choice as [name|].
      * destruct (decide (str_lower (Captain.player_name c) = str_lower name))
          as [Heq | Hne]; [exists name; split; [reflexivity | exact Heq]|].
        exfalso. assert (Hin : c ∈ filtered).
        { apply Hspec. split; [exact Hc|]. intros (n & [= <-] & Heq). contradiction. }
        rewrite Hf in Hin. inversion Hin.
      * exfalso. assert (Hin : c ∈ filtered).
        { apply Hspec. split; [exact Hc|]. intros (n & [=] & _). }
        rewrite Hf in Hin. inversion Hin.
    + intros Hall. destruct filtered as [|c0 rest] eqn:Ef; [reflexivity|].
      exfalso. assert (Hin : c0 ∈ c0 :: rest) by left.
      apply Hspec in Hin as [Hc Hne]. apply Hne, Hall, Hc.
  - intros Hnone. rewrite Hnil. unfold filtered. rewrite Hnone. reflexivity.
  - intros vice Hv.
    apply head_Some_elem_of, elem_of_stable_sort, list_elem_of_fmap in Hv
      as (c & -> & Hc).
    apply Hspec in Hc as [_ Hne]. exact Hne.
Qed.

Lemma suggest_vice_captain_none_witness :
  suggest_vice_captain unlisted_team_state None = Raises KeyError
  ∧ ∃ options, suggest_captain avoid_state_gk 15 = Returns options
             ∧ suggest_vice_captain avoid_state_gk (Some "jo doe") = Returns None.
Proof.
  split; [vm_compute; reflexivity|].
  destruct (suggest_captain avoid_state_gk 15) as [options| |] eqn:E;
    [|vm_compute in E; discriminate..].
  exists options. split; [reflexivity|].
  destruct (suggest_vice_captain_none avoid_state_gk (Some "jo doe") options E)
    as (r & Hr & Hnone & _ & _).
  rewrite Hr. f_equal. apply Hnone.
  intros c Hc. exists "jo doe". split; [reflexivity|].
  vm_compute in E. injection E as <-.
  apply list_elem_of_singleton in Hc. subst c. reflexivity.
Defined.

(** * The scrapers' text heuristics *)

Lemma classify_listed (title : string) :
  _classify_recommendation_type title ∈ listed_types.
Proof.
  unfold _classify_recommendation_type, listed_types.
  repeat match goal with
         | |- context [if ?b then _ else _] => destruct b
         end;
    repeat (first [left | right]).
Qed.

Lemma analyze_sentiment_listed (text : string) :
  _analyze_sentiment text ∈ listed_sentiments.
Proof.
  unfold _analyze_sentiment, listed_sentiments.
  repeat match goal with
         | |- context [if ?b then _ else _] => destruct b
         end;
    repeat (first [left | right]).
Qed.

Lemma str_in_keyword (keyword text : string) :
  str_lower keyword = keyword →
  str_in keyword (str_lower text) = true ↔ ci_contains keyword text.
Proof. intros H. rewrite <- str_in_ci_contains, H. reflexivity. Qed.

Lemma str_in_keyword_false (keyword text : string) :
  str_lower keyword = keyword →
  str_in keyword (str_lower text) = false ↔ ¬ ci_contains keyword text.
Proof.
  intros H. rewrite <- (str_in_keyword keyword text H).
  destruct (str_in keyword (str_lower text)); split; congruence.
Qed.

(** X13: [_classify_recommendation_type] always answers with one of the seven
    keys of [type_weights], so the weight of a classified article never falls
    back on the default.  The keywords are tried in a fixed order: a title
    that holds "captain" is a captain article whatever else it holds, and a
    title is filed under "avoid" exactly when it holds "avoid" and none of
    "captain", "differential", "transfer", "budget", "cheap". *)
Theorem classify_recommendation_type_priority (title : string) :
  _classify_recommendation_type title ∈ listed_types
  ∧ is_Some (type_weights !! _classify_recommendation_type title)
  ∧ (ci_contains "captain" title →
     _classify_recommendation_type title = "captain")
  ∧ (_classify_recommendation_type title = "avoid" ↔
     ci_contains "avoid" title
     ∧ ¬ ci_contains "captain" title ∧ ¬ ci_contains "differential" title
     ∧ ¬ ci_contains "transfer" title ∧ ¬ ci_contains "budget" title
     ∧ ¬ ci_contains "cheap" title).
Proof.
  split; [apply classify_listed|]. split.
  { pose proof (classify_listed title) as Hin. unfold listed_types in Hin.
    repeat (apply elem_of_cons in Hin as [-> | Hin];
            [vm_compute; eexists; reflexivity|]).
    inversion Hin. }
  rewrite <- !str_in_keyword_false by reflexivity.
  rewrite <- !str_in_keyword by reflexivity.
  unfold _classify_recommendation_type.
  destruct (str_in "captain" (str_lower title)),
           (str_in "differential" (str_lower title)),
           (str_in "transfer" (str_lower title)),
           (str_in "budget" (str_lower title)),
           (str_in "cheap" (str_lower title)),
           (str_in "avoid" (str_lower title)),
           (str_in "must" (str_lower title)),
           (str_in "essential" (str_lower title)); simpl;
    (split; [intros; first [reflexivity | discriminate]|]);
    (split; [intros; first [discriminate | repeat split; reflexivity]
            | intros (? & ? & ? & ? & ? & ?); first [reflexivity | discriminate]]).
Qed.

Lemma count_threshold (n p : nat) :
  Qltb (Q_of_nat n * 1.5)%Q (Q_of_nat p) = true ↔ (3 * n < 2 * p)%nat.
Proof.
  rewrite Qltb_lt. unfold Q_of_nat, Qlt, Qmult. simpl. lia.
Qed.

(** X14: [_analyze_sentiment] always answers positive, neutral or negative,
    the three keys of [sentiment_scores].  With p positive and n negative
    words found, the answer is positive exactly when 2p > 3n, negative
    exactly when 2n > 3p, and neutral otherwise; a text that holds none of
    the listed words is neutral. *)
Theorem analyze_sentiment_thresholds (text : string) :
  let p := count_in positive_words (str_lower text) in
  let n := count_in negative_words (str_lower text) in
  _analyze_sentiment text ∈ listed_sentiments
  ∧ (_analyze_sentiment text = "positive" ↔ (3 * n < 2 * p)%nat)
  ∧ (_analyze_sentiment text = "negative" ↔ (3 * p < 2 * n)%nat)
  ∧ (_analyze_sentiment text = "neutral" ↔
     (2 * p <= 3 * n)%nat ∧ (2 * n <= 3 * p)%nat)
  ∧ ((p = 0 ∧ n = 0)%nat → _analyze_sentiment text = "neutral").
Proof.
  intros p n. split; [apply analyze_sentiment_listed|].
  unfold _analyze_sentiment. fold p n.
  pose proof (count_threshold n p) as Hp.
  pose proof (count_threshold p n) as Hn.
  destruct (Qltb (Q_of_nat n * 1.5) (Q_of_nat p)) eqn:Ep;
    destruct (Qltb (Q_of_nat p * 1.5) (Q_of_nat n)) eqn:En.
  - assert (3 * n < 2 * p)%nat by (apply Hp; reflexivity).
    assert (3 * p < 2 * n)%nat by (apply Hn; reflexivity). lia.
  - assert (3 * n < 2 * p)%nat by (apply Hp; reflexivity).
    repeat split; intros; try discriminate; try lia.
  - assert (3 * p < 2 * n)%nat by (apply Hn; reflexivity).
    repeat split; intros; try discriminate; try lia.
  - assert (H1 : ¬ (3 * n < 2 * p)%nat) by (intros K; apply Hp in K; discriminate).
    assert (H2 : ¬ (3 * p < 2 * n)%nat) by (intros K; apply Hn in K; discriminate).
    repeat split; intros; try discriminate; try lia.
Qed.

Lemma weight_of_negative (rec_type : string) :
  (weight_of rec_type < 0)%Q ↔ rec_type = "avoid".
Proof.
  destruct (decide (rec_type ∈ listed_types)) as [Hin | Hout].
  - unfold listed_types in Hin.
    repeat (apply elem_of_cons in Hin as [-> | Hin];
            [split;
             [first [intros K; vm_compute in K; discriminate | intros _; reflexivity]
             |first [discriminate | intros _; vm_compute; reflexivity]]|]).
    inversion Hin.
  - rewrite (weight_of_unlisted _ Hout). split.
    + vm_compute. discriminate.
    + intros ->. exfalso. apply Hout. unfold listed_types.
      repeat (first [left | right]).
Qed.

Lemma sentiment_mult_of_negative (sentiment : string) :
  sentiment_mult_of sentiment = (-1)%Z ↔ sentiment = "negative".
Proof.
  destruct (decide (sentiment ∈ listed_sentiments)) as [Hin | Hout].
  - unfold listed_sentiments in Hin.
    repeat (apply elem_of_cons in Hin as [-> | Hin];
            [split;
             [first [intros K; vm_compute in K; discriminate | intros _; reflexivity]
             |first [discriminate | intros _; vm_compute; reflexivity]]|]).
    inversion Hin.
  - rewrite (sentiment_mult_of_unlisted _ Hout). split; [discriminate|].
    intros ->. exfalso. apply Hout. unfold listed_sentiments.
    repeat (first [left | right]).
Qed.

(** X15: the sign of a vote in [get_player_consensus_score].  A signal with
    a negative sentiment adds exactly 0 to the weighted score, whatever its
    type; a signal lowers the score exactly when its type is "avoid" and its
    sentiment is not negative; every other signal adds a positive amount. *)
Theorem vote_sign (rec : Rec.t) :
  ((vote rec == 0)%Q ↔ Rec.sentiment rec = "negative")
  ∧ ((vote rec < 0)%Q ↔
     Rec.recommendation_type rec = "avoid" ∧ Rec.sentiment rec ≠ "negative")
  ∧ ((0 < vote rec)%Q ↔
     Rec.recommendation_type rec ≠ "avoid" ∧ Rec.sentiment rec ≠ "negative").
Proof.
  unfold vote.
  pose proof (weight_of_negative (Rec.recommendation_type rec)) as Hneg.
  pose proof (sentiment_mult_of_negative (Rec.sentiment rec)) as Hsent.
  assert (Hnz : ¬ (weight_of (Rec.recommendation_type rec) == 0)%Q).
  { destruct (decide (Rec.recommendation_type rec ∈ listed_types)) as [Hin | Hout].
    - unfold listed_types in Hin.
      repeat (apply elem_of_cons in Hin as [-> | Hin]; [vm_compute; discriminate|]).
      inversion Hin.
    - rewrite (weight_of_unlisted _ Hout). vm_compute. discriminate. }
  destruct (sentiment_mult_of_cases (Rec.sentiment rec)) as [E | [E | E]];
    rewrite E in *;
    change (inject_Z (-1)) with (-1)%Q;
    change (inject_Z 0) with 0%Q; change (inject_Z 1) with 1%Q.
  - assert (Hs : Rec.sentiment rec = "negative") by (apply Hsent; reflexivity).
    repeat split; intros; try lra; try tauto; try (exfalso; lra).
  - assert (Hs : Rec.sentiment rec ≠ "negative")
      by (intros H; apply Hsent in H; discriminate).
    repeat split; intros; try tauto; try (exfalso; lra);
      try (apply Hneg; lra); try lra.
    + destruct H as [H _]. apply Hneg in H. lra.
    + intros H1. apply Hneg in H1. lra.
    + destruct H as [H _].
      destruct (Qlt_le_dec (weight_of (Rec.recommendation_type rec)) 0) as [Hl | Hl];
        [apply Hneg in Hl; contradiction | lra].
  - assert (Hs : Rec.sentiment rec ≠ "negative")
      by (intros H; apply Hsent in H; discriminate).
    repeat split; intros; try tauto; try (exfalso; lra);
      try (apply Hneg; lra); try lra.
    + destruct H as [H _]. apply Hneg in H. lra.
    + intros H1. apply Hneg in H1. lra.
    + destruct H as [H _].
      destruct (Qlt_le_dec (weight_of (Rec.recommendation_type rec)) 0) as [Hl | Hl];
        [apply Hneg in Hl; contradiction | lra].
Qed.

Lemma classify_recommendation_type_priority_witness :
  _classify_recommendation_type "Captain picks to avoid" = "captain".
Proof.
  apply (classify_recommendation_type_priority "Captain picks to avoid").
  exists "", " picks to avoid". reflexivity.
Defined.

Lemma str_append_assoc (a b c : string) : (a +:+ b) +:+ c = a +:+ (b +:+ c).
Proof.
  induction a as [|x a IH]; [reflexivity|].
  change (String x ((a +:+ b) +:+ c) = String x (a +:+ (b +:+ c))).
  rewrite IH. reflexivity.
Qed.

(** The test for "ruled out" never decides: such a text holds "out". *)
Lemma ruled_out_is_out (text : string) :
  str_in "ruled out" text = true → str_in "out" text = true.
Proof.
  rewrite !str_in_spec. intros (pre & post & ->).
  exists (pre +:+ "ruled "), post. rewrite str_append_assoc. reflexivity.
Qed.

(** X16: the status [scrape_injury_news] gives to a news item is one of out,
    doubtful, suspended, unknown.  A text that holds "out" anywhere is filed
    as out, also when it speaks of a doubt or a ban; it is doubtful exactly
    when it holds "doubt" and not "out", and suspended exactly when it holds
    "suspended" or "banned" and neither "out" nor "doubt".  An item yields
    one entry per extracted name, all with that status, and none when the
    text holds no injury keyword.  An unknown status leaves the web score as
    it is without any injury entry. *)
Theorem injury_status_of_text_priority (text : string) :
  injury_status_of_text text ∈ ["out"; "doubtful"; "suspended"; "unknown"]
  ∧ (ci_contains "out" text → injury_status_of_text text = "out")
  ∧ (injury_status_of_text text = "doubtful" ↔
     ci_contains "doubt" text ∧ ¬ ci_contains "out" text)
  ∧ (injury_status_of_text text = "suspended" ↔
     (ci_contains "suspended" text ∨ ci_contains "banned" text)
     ∧ ¬ ci_contains "out" text ∧ ¬ ci_contains "doubt" text)
  ∧ (∀ source_name player_names,
       Forall (λ e, Injury.status e = injury_status_of_text text)
              (injury_news_of_item source_name text player_names)
       ∧ map Injury.player_name (injury_news_of_item source_name text player_names)
         = if any_in injury_keywords (str_lower text) then player_names else [])
  ∧ (injury_status_of_text text = "unknown" →
     ∀ consensus expected_start,
       web_score_of consensus (Some (injury_status_of_text text)) expected_start
       = web_score_of consensus None expected_start).
Proof.
  rewrite <- !str_in_keyword_false by reflexivity.
  rewrite <- !str_in_keyword by reflexivity.
  split; [|split; [|split; [|split; [|split]]]].
  - unfold injury_status_of_text.
    repeat match goal with
           | |- context [if ?b then _ else _] => destruct b
           end; repeat (first [left | right]).
  - unfold injury_status_of_text. intros ->. rewrite orb_true_r. reflexivity.
  - unfold injury_status_of_text.
    pose proof (ruled_out_is_out (str_lower text)) as Hruled.
    destruct (str_in "ruled out" (str_lower text)),
             (str_in "out" (str_lower text)),
             (str_in "doubt" (str_lower text)),
             (str_in "suspended" (str_lower text)),
             (str_in "banned" (str_lower text)); simpl;
      try (specialize (Hruled eq_refl); discriminate);
      (split; [intros; first [discriminate | split; reflexivity]
              | intros [? ?]; first [reflexivity | discriminate]]).
  - unfold injury_status_of_text.
    pose proof (ruled_out_is_out (str_lower text)) as Hruled.
    destruct (str_in "ruled out" (str_lower text)),
             (str_in "out" (str_lower text)),
             (str_in "doubt" (str_lower text)),
             (str_in "suspended" (str_lower text)),
             (str_in "banned" (str_lower text)); simpl;
      try (specialize (Hruled eq_refl); discriminate);
      (split; [intros; first [discriminate
                             | split; [first [left; reflexivity | right; reflexivity]
                                      | split; reflexivity]]
              | intros [[? | ?] [? ?]]; first [reflexivity | discriminate]]).
  - intros source_name player_names. unfold injury_news_of_item.
    destruct (any_in injury_keywords (str_lower text)).
    + split.
      * apply Forall_forall. intros e He.
        apply list_elem_of_fmap in He as (n & -> & _). reflexivity.
      * induction player_names as [|n ns IH]; simpl; [reflexivity|].
        f_equal. exact IH.
    + split; [apply Forall_nil_2 | reflexivity].
  - intros -> consensus expected_start. reflexivity.
Qed.

Lemma injury_status_of_text_priority_witness :
  injury_status_of_text "Saka is a doubt about the weekend" = "out".
Proof.
  apply (injury_status_of_text_priority "Saka is a doubt about the weekend").
  exists "saka is a doubt ab", " the weekend". reflexivity.
Defined.

(** ** Name normalisation *)

Lemma str_append_cons (c : ascii) (a b : string) :
  String c a +:+ b = String c (a +:+ b).
Proof. reflexivity. Qed.

Lemma str_append_nil_r (a : string) : a +:+ "" = a.
Proof.
  induction a as [|c a IH]; [reflexivity|].
  rewrite str_append_cons, IH. reflexivity.
Qed.

Lemma str_append_nonempty (a : string) (c : ascii) (b : string) :
  a +:+ String c b ≠ "".
Proof. destruct a; discriminate. Qed.

Lemma nospace_snoc (a : string) (c : ascii) :
  nospace a → py_isspace c = false → nospace (a +:+ String c "").
Proof.
  induction a as [|x a IH]; intros Ha Hc.
  - simpl. auto.
  - rewrite str_append_cons. destruct Ha as [Hx Ha]. split; [exact Hx | auto].
Qed.

Lemma split_from_word (w acc s : string) :
  nospace w → split_from acc (w +:+ s) = split_from (acc +:+ w) s.
Proof.
  revert acc. induction w as [|c w IH]; intros acc Hw.
  - rewrite str_append_nil_r. reflexivity.
  - destruct Hw as [Hc Hw]. rewrite str_append_cons. simpl. rewrite Hc.
    rewrite (IH _ Hw), str_append_assoc. reflexivity.
Qed.

Lemma split_from_space (acc : string) (c : ascii) (s : string) :
  py_isspace c = true → acc ≠ "" →
  split_from acc (String c s) = acc :: split_from "" s.
Proof.
  intros Hc Hne. simpl. rewrite Hc. destruct acc; [contradiction | reflexivity].
Qed.

Lemma split_join (ws : list string) :
  Forall word_ok ws → py_split (py_join " " ws) = ws.
Proof.
  unfold py_split. induction 1 as [|w ws [Hne Hw] Hws IH]; [reflexivity|].
  destruct ws as [|w2 ws].
  - simpl. rewrite <- (str_append_nil_r w) at 1.
    rewrite (split_from_word w "" "" Hw). simpl.
    destruct w; [contradiction | reflexivity].
  - change (py_join " " (w :: w2 :: ws))
      with (w +:+ String " " (py_join " " (w2 :: ws))).
    rewrite (split_from_word w "" _ Hw).
    change ("" +:+ w) with w.
    rewrite split_from_space by (first [reflexivity | exact Hne]).
    rewrite IH. reflexivity.
Qed.

Lemma split_from_words (s acc : string) :
  acc = "" ∨ word_ok acc → Forall word_ok (split_from acc s).
Proof.
  revert acc. induction s as [|c s IH]; intros acc Hacc; simpl.
  - destruct Hacc as [-> | Hok]; [apply Forall_nil_2|].
    destruct acc; [apply Forall_nil_2|].
    apply Forall_cons. split; [exact Hok | apply Forall_nil_2].
  - destruct (py_isspace c) eqn:Ec.
    + destruct Hacc as [-> | Hok]; [apply IH; left; reflexivity|].
      destruct acc; [apply IH; left; reflexivity|].
      apply Forall_cons. split; [exact Hok | apply IH; left; reflexivity].
    + apply IH. right. split; [apply str_append_nonempty|].
      apply nospace_snoc; [|exact Ec].
      destruct Hacc as [-> | [_ Hn]]; [exact I | exact Hn].
Qed.

Lemma join_head (ws : list string) :
  Forall word_ok ws →
  py_join " " ws = ""
  ∨ ∃ c s, py_join " " ws = String c s ∧ py_isspace c = false.
Proof.
  destruct 1 as [|w ws [Hne Hw] Hws]; [left; reflexivity|]. right.
  destruct w as [|c w]; [contradiction|]. destruct Hw as [Hc _].
  destruct ws; [exists c, w; split; [reflexivity | exact Hc]|].
  eexists c, _. split; [reflexivity | exact Hc].
Qed.

Lemma join_last (ws : list string) :
  Forall word_ok ws → ws ≠ [] →
  ∃ s w, py_join " " ws = s +:+ w ∧ word_ok w.
Proof.
  induction 1 as [|w ws Hw Hws IH]; intros Hne; [contradiction|].
  destruct ws as [|w2 ws].
  - exists "", w. split; [reflexivity | exact Hw].
  - destruct IH as (s & w' & Hj & Hw'); [discriminate|].
    exists (w +:+ " " +:+ s), w'. split; [|exact Hw'].
    change (py_join " " (w :: w2 :: ws))
      with (w +:+ " " +:+ py_join " " (w2 :: ws)).
    rewrite Hj, !str_append_assoc. reflexivity.
Qed.

Lemma rstrip_word (w : string) : word_ok w → py_rstrip w = w.
Proof.
  induction w as [|c w IH]; intros [Hne Hw]; [contradiction|].
  destruct Hw as [Hc Hw]. simpl.
  destruct w as [|c' w'].
  - simpl. rewrite Hc. reflexivity.
  - rewrite IH by (split; [discriminate | exact Hw]). reflexivity.
Qed.

Lemma rstrip_ends_with_word (s w : string) :
  word_ok w → py_rstrip (s +:+ w) = s +:+ w.
Proof.
  intros Hw. induction s as [|c s IH]; [apply (rstrip_word w Hw)|].
  rewrite str_append_cons. simpl. rewrite IH.
  destruct (s +:+ w) eqn:E; [|reflexivity].
  exfalso. destruct w as [|x w]; [destruct Hw; contradiction|].
  apply (str_append_nonempty s x w). exact E.
Qed.

Lemma strip_join (ws : list string) :
  Forall word_ok ws → py_strip (py_join " " ws) = py_join " " ws.
Proof.
  intros Hws. unfold py_strip.
  assert (Hl : py_lstrip (py_join " " ws) = py_join " " ws).
  { destruct (join_head ws Hws) as [-> | (c & s & -> & Hc)]; [reflexivity|].
    simpl. rewrite Hc. reflexivity. }
  rewrite Hl. destruct ws as [|w ws]; [reflexivity|].
  destruct (join_last (w :: ws) Hws) as (s & w' & -> & Hw'); [discriminate|].
  apply rstrip_ends_with_word. exact Hw'.
Qed.

(** X17: [normalize_player_name] joins the words of the name with single
    spaces.  The [strip] that follows never changes anything; the words of
    the result are the words of the name, all non-empty and free of
    whitespace; and normalising twice gives the same as normalising once. *)
Theorem normalize_player_name_idempotent (name : string) :
  normalize_player_name name = py_join " " (py_split name)
  ∧ py_split (normalize_player_name name) = py_split name
  ∧ Forall word_ok (py_split name)
  ∧ py_strip (normalize_player_name name) = normalize_player_name name
  ∧ normalize_player_name (normalize_player_name name)
    = normalize_player_name name.
Proof.
  assert (Hwords : Forall word_ok (py_split name))
    by (apply split_from_words; left; reflexivity).
  assert (Hnorm : normalize_player_name name = py_join " " (py_split name))
    by (apply strip_join; exact Hwords).
  assert (Hsplit : py_split (normalize_player_name name) = py_split name)
    by (rewrite Hnorm; apply split_join; exact Hwords).
  split; [exact Hnorm|]. split; [exact Hsplit|]. split; [exact Hwords|]. split.
  - rewrite Hnorm. apply strip_join. exact Hwords.
  - unfold normalize_player_name at 1. rewrite Hsplit. reflexivity.
Qed.

Example normalize_player_name_example :
  normalize_player_name "  Mohamed   Salah " = "Mohamed Salah".
Proof. vm_compute. reflexivity. Qed.

(** ** Injury status and line-ups *)

Lemma filter_first {A : Type} (f : A → bool) (l : list A) (x : A) (rest : list A) :
  List.filter f l = x :: rest →
  ∃ pre post, l = (pre ++ x :: post)%list ∧ f x = true
              ∧ ∀ y, y ∈ pre → f y = false.
Proof.
  induction l as [|a l IH]; simpl; [discriminate|].
  destruct (f a) eqn:Ea.
  - intros [= -> _]. exists [], l. split; [reflexivity|]. split; [exact Ea|].
    intros y Hy. inversion Hy.
  - intros H. destruct (IH H) as (pre & post & -> & Hx & Hpre).
    exists (a :: pre), post. split; [reflexivity|]. split; [exact Hx|].
    intros y Hy. apply elem_of_cons in Hy as [-> | Hy]; [exact Ea | apply Hpre, Hy].
Qed.

(** X18: [get_injury_status] returns [None] for every name when no injury
    entry is stored.  For a plain query it returns the status of the first
    stored entry, in scrape order, whose name holds the query (case ignored),
    whatever later entries say, and [None] when no entry does. *)
Theorem get_injury_status_first (self : ScraperAggregator) (name : string) :
  (injury_news (player_data self) = [] →
   get_injury_status self name = Returns None)
  ∧ (re_plain name = true →
     ∃ r, get_injury_status self name = Returns r
        ∧ (r = None ↔
           ∀ e, e ∈ injury_news (player_data self) →
                ¬ ci_contains name (Injury.player_name e))
        ∧ ∀ status, r = Some status →
            ∃ pre e post,
              injury_news (player_data self) = (pre ++ e :: post)%list
              ∧ Injury.status e = status
              ∧ ci_contains name (Injury.player_name e)
              ∧ ∀ e', e' ∈ pre → ¬ ci_contains name (Injury.player_name e')).
Proof.
  split.
  { unfold get_injury_status. intros ->. reflexivity. }
  intros Hplain. unfold get_injury_status.
  pose proof (str_contains_rows_plain Injury.player_name name
                (injury_news (player_data self)) Hplain) as Hsel.
  set (f := λ r, str_in (str_lower name) (str_lower (Injury.player_name r))) in Hsel.
  assert (Hf : ∀ e, f e = true ↔ ci_contains name (Injury.player_name e))
    by (intros e; apply str_in_ci_contains).
  destruct (List.filter f (injury_news (player_data self))) as [|e0 rest] eqn:Ef.
  - exists None. split.
    { rewrite Hsel. destruct (injury_news (player_data self)); reflexivity. }
    split; [|discriminate]. split; [|reflexivity].
    intros _ e He Hc. apply Hf in Hc.
    assert (Hin : e ∈ List.filter f (injury_news (player_data self)))
      by (apply elem_of_List_filter; split; assumption).
    rewrite Ef in Hin. inversion Hin.
  - exists (Some (Injury.status e0)). split.
    { rewrite Hsel. destruct (injury_news (player_data self)); [discriminate Ef|].
      reflexivity. }
    destruct (filter_first f _ e0 rest Ef) as (pre & post & Hl & Hx & Hpre).
    split.
    + split; [discriminate|]. intros Hnone. exfalso.
      apply (Hnone e0); [rewrite Hl; apply elem_of_app; right; left|].
      apply Hf. exact Hx.
    + intros status [= <-]. exists pre, e0, post.
      split; [exact Hl|]. split; [reflexivity|]. split; [apply Hf; exact Hx|].
      intros e' He' Hc. apply Hf in Hc. rewrite (Hpre e' He') in Hc. discriminate.
Qed.

Lemma get_injury_status_first_witness :
  get_injury_status injury_store "saka" = Returns (Some "doubtful").
Proof.
  destruct (get_injury_status_first injury_store "saka") as [_ Hplain].
  destruct (Hplain eq_refl) as (r & Hr & _ & _).
  rewrite Hr. vm_compute in Hr. injection Hr as <-. reflexivity.
Defined.

(** ** Aggregation *)

Lemma scrape_all_data (data : PlayerData) (scrapers : list Scraper.t) :
  recommendations (fold_left scrape_one scrapers data)
  = (recommendations data
     ++ concat (map (λ s, default [] (Scraper.scrape_player_recommendations s))
                    scrapers))%list
  ∧ injury_news (fold_left scrape_one scrapers data)
    = (injury_news data
       ++ concat (map (λ s, default [] (Scraper.scrape_injury_news s)) scrapers))%list.
Proof.
  revert data. induction scrapers as [|s scrapers IH]; intros data; simpl.
  - rewrite !app_nil_r. split; reflexivity.
  - destruct (IH (scrape_one data s)) as [-> ->]. simpl.
    rewrite <- !app_assoc. split; reflexivity.
Qed.

Lemma scrape_all_lineup (data : PlayerData) (scrapers : list Scraper.t)
  (team : string) :
  lineups (fold_left scrape_one scrapers data) !! team
  = match omap (λ s, default ∅ (Scraper.scrape_expected_lineups s) !! team)
               (rev scrapers) with
    | players :: _ => Some players
    | [] => lineups data !! team
    end.
Proof.
  revert data. induction scrapers as [|s scrapers IH]; intros data; [reflexivity|].
  simpl fold_left. rewrite IH. simpl rev. rewrite omap_app. simpl.
  destruct (omap _ (rev scrapers)) as [|p ps]; [|reflexivity]. simpl.
  rewrite lookup_union.
  destruct (default ∅ (Scraper.scrape_expected_lineups s) !! team) as [players|];
    simpl; [|rewrite (left_id None _)]; [|reflexivity].
  destruct (lineups data !! team); reflexivity.
Qed.

(** X20: [scrape_all] appends to the stored recommendations and injury news
    what each scraper returned, in scraper order; a scraper whose call raised
    adds nothing and stops no other scraper.  For a team, the line-up kept is
    the one of the last scraper that lists the team, and the stored one when
    no scraper does. *)
Theorem scrape_all_accumulates (self : ScraperAggregator)
  (scrapers : list Scraper.t) :
  recommendations (player_data (scrape_all self scrapers))
  = (recommendations (player_data self)
     ++ concat (map (λ s, default [] (Scraper.scrape_player_recommendations s))
                    scrapers))%list
  ∧ injury_news (player_data (scrape_all self scrapers))
    = (injury_news (player_data self)
       ++ concat (map (λ s, default [] (Scraper.scrape_injury_news s)) scrapers))%list
  ∧ ∀ team,
      lineups (player_data (scrape_all self scrapers)) !! team
      = match omap (λ s, default ∅ (Scraper.scrape_expected_lineups s) !! team)
                   (rev scrapers) with
        | players :: _ => Some players
        | [] => lineups (player_data self) !! team
        end.
Proof.
  unfold scrape_all. simpl.
  destruct (scrape_all_data (player_data self) scrapers) as [Hr Hi].
  split; [exact Hr|]. split; [exact Hi|].
  intros team. apply scrape_all_lineup.
Qed.

Lemma py_sum_app (a b : list Q) : (py_sum (a ++ b) == py_sum a + py_sum b)%Q.
Proof.
  induction a as [|x a IH]; simpl.
  - unfold py_sum at 2. simpl. lra.
  - change ((x :: a) ++ b)%list with (x :: (a ++ b))%list.
    rewrite !py_sum_cons, IH. lra.
Qed.

Lemma Q_of_nat_add (n m : nat) : (Q_of_nat (n + m) == Q_of_nat n + Q_of_nat m)%Q.
Proof.
  unfold Q_of_nat. rewrite Nat2Z.inj_add, inject_Z_plus. reflexivity.
Qed.

Lemma str_contains_rows_app {A : Type} (col : A → string) (pat : string)
  (l1 l2 s1 s2 : list A) :
  str_contains_rows col pat l1 = Returns s1 →
  str_contains_rows col pat l2 = Returns s2 →
  str_contains_rows col pat (l1 ++ l2) = Returns (s1 ++ s2)%list.
Proof.
  unfold str_contains_rows. destruct (re_compile pat); [|discriminate..].
  intros [= <-] [= <-]. rewrite List.filter_app. reflexivity.
Qed.

(** X21: running [scrape_all] a second time on a fresh aggregator, with the
    scrapers returning the same as before, stores every recommendation
    twice: for every name the consensus then counts twice as many mentions,
    with the same consensus score. *)
Theorem scrape_all_twice_doubles (scrapers : list Scraper.t) (name : string)
  (c : ConsensusRecord) :
  get_player_consensus_score (scrape_all new_aggregator scrapers) name = Returns c →
  ∃ c', get_player_consensus_score
          (scrape_all (scrape_all new_aggregator scrapers) scrapers) name
        = Returns c'
      ∧ mention_count c' = (2 * mention_count c)%nat
      ∧ (consensus_score c' == consensus_score c)%Q.
Proof.
  intros H.
  set (agg1 := scrape_all new_aggregator scrapers) in *.
  set (agg2 := scrape_all agg1 scrapers).
  set (recs1 := recommendations (player_data agg1)).
  assert (Hrecs2 : recommendations (player_data agg2) = (recs1 ++ recs1)%list).
  { unfold agg2, scrape_all at 1. cbn [player_data].
    destruct (scrape_all_data (player_data agg1) scrapers) as [-> _].
    fold recs1. f_equal. unfold recs1, agg1, scrape_all. cbn [player_data].
    destruct (scrape_all_data (player_data new_aggregator) scrapers) as [-> _].
    reflexivity. }
  destruct (consensus_cases agg1 name c H)
    as [-> | (sel & Hne & Hsel & Hcount & Hscore)].
  - exists no_consensus. split; [|split; reflexivity].
    unfold get_player_consensus_score in *. rewrite Hrecs2. fold recs1 in H.
    destruct recs1 as [|r0 rs] eqn:Er; [reflexivity|].
    destruct (str_contains_rows Rec.player_name name (r0 :: rs))
      as [sel| |] eqn:Hsel; [|discriminate..].
    rewrite (str_contains_rows_app _ _ _ _ sel sel Hsel Hsel).
    simpl in H. destruct sel; [reflexivity|]. simpl in H. discriminate.
  - fold recs1 in Hsel.
    assert (Hsel2 : str_contains_rows Rec.player_name name
                      (recommendations (player_data agg2))
                    = Returns (sel ++ sel)%list).
    { rewrite Hrecs2. apply str_contains_rows_app; exact Hsel. }
    destruct (consensus_score_of_selection agg2 name (sel ++ sel)%list Hsel2)
      as (c' & Hc' & Hcount' & Hscore' & _).
    { destruct sel; [contradiction | discriminate]. }
    exists c'. split; [exact Hc'|]. split.
    + rewrite Hcount', Hcount, length_app. lia.
    + rewrite Hscore', Hscore, map_app, py_sum_app, length_app, Q_of_nat_add.
      assert (Hpos : (0 < Q_of_nat (length sel))%Q).
      { apply Q_of_nat_pos. destruct sel; [contradiction | simpl; lia]. }
      field. split; lra.
Qed.

Lemma scrape_all_twice_doubles_witness :
  ∃ c c', get_player_consensus_score (scrape_all new_aggregator two_scrapers) "salah"
          = Returns c
        ∧ get_player_consensus_score
            (scrape_all (scrape_all new_aggregator two_scrapers) two_scrapers) "salah"
          = Returns c'
        ∧ mention_count c = 2%nat ∧ mention_count c' = 4%nat.
Proof.
  destruct (get_player_consensus_score (scrape_all new_aggregator two_scrapers) "salah")
    as [c| |] eqn:E; [|vm_compute in E; discriminate..].
  destruct (scrape_all_twice_doubles two_scrapers "salah" c E) as (c' & Hc' & Hn & _).
  assert (Hc : mention_count c = 2%nat)
    by (vm_compute in E; injection E as <-; reflexivity).
  exists c, c'. split; [reflexivity|]. split; [exact Hc'|]. split; [exact Hc|].
  rewrite Hn, Hc. reflexivity.
Defined.

(** ** The current gameweek *)

(** X22: the gameweek chosen by [fetch_fpl_data].  A fresh download takes
    the id of the first event flagged [is_next] (1 when there is none) and
    never reads [is_current]; a cache hit takes the id of the first event
    flagged [is_current] and only falls back on the former.  The two
    disagree whenever the first current and the first next event differ in
    id. *)
Theorem gameweek_cached_or_fresh (events : list Event.t) :
  fresh_gameweek events
  = default 1%Z (head (map Event.id (List.filter Event.is_next events)))
  ∧ cached_gameweek events
    = default (fresh_gameweek events)
              (head (map Event.id (List.filter Event.is_current events)))
  ∧ ∀ current next,
      head (List.filter Event.is_current events) = Some current →
      head (List.filter Event.is_next events) = Some next →
      Event.id current ≠ Event.id next →
      cached_gameweek events = Event.id current
      ∧ fresh_gameweek events = Event.id next
      ∧ cached_gameweek events ≠ fresh_gameweek events.
Proof.
  assert (Hfresh : fresh_gameweek events
    = default 1%Z (head (map Event.id (List.filter Event.is_next events)))).
  { unfold fresh_gameweek, py_next.
    destruct (head (map Event.id (List.filter Event.is_next events))) as [g|];
      [|reflexivity].
    simpl. destruct (g =? 0)%Z; reflexivity. }
  split; [exact Hfresh|]. split.
  - unfold cached_gameweek. rewrite Hfresh. reflexivity.
  - intros current next Hc Hn Hne.
    assert (E1 : cached_gameweek events = Event.id current).
    { unfold cached_gameweek, py_next.
      destruct (List.filter Event.is_current events); [discriminate|].
      injection Hc as ->. reflexivity. }
    assert (E2 : fresh_gameweek events = Event.id next).
    { rewrite Hfresh.
      destruct (List.filter Event.is_next events); [discriminate|].
      injection Hn as ->. reflexivity. }
    split; [exact E1|]. split; [exact E2|]. rewrite E1, E2. exact Hne.
Qed.

Lemma gameweek_cached_or_fresh_witness :
  cached_gameweek [Event.mk 6 false false; Event.mk 7 true false;
                   Event.mk 8 false true] = 7%Z
  ∧ fresh_gameweek [Event.mk 6 false false; Event.mk 7 true false;
                    Event.mk 8 false true] = 8%Z.
Proof.
  destruct (gameweek_cached_or_fresh
              [Event.mk 6 false false; Event.mk 7 true false; Event.mk 8 false true])
    as (_ & _ & H).
  destruct (H (Event.mk 7 true false) (Event.mk 8 false true))
    as (E1 & E2 & _); [reflexivity | reflexivity | discriminate|].
  split; [exact E1 | exact E2].
Defined.

(** ** The Scout Selection scraper *)







Example scout_recommendations_example :
  map Rec.recommendation_type
      (scout_recommendations "Official PL Scout Selection" (Some "Haaland")
         ["Erling  Haaland"; "Bukayo Saka"] ["Bukayo Saka"; "Cole Palmer"])
  = ["captain"; "essential"; "essential"].
Proof. vm_compute. reflexivity. Qed.

(** * When the calls return *)

Lemma df_apply_returns {A B : Type} (f : A → outcome B) (l : list A) :
  (∀ x, x ∈ l → ∃ y, f x = Returns y) → ∃ l', df_apply f l = Returns l'.
Proof.
  induction l as [|x l IH]; intros Hf; simpl; [eexists; reflexivity|].
  destruct (Hf x) as (y & Hy); [left|]. rewrite Hy. simpl.
  destruct IH as (ys & Hys); [intros z Hz; apply Hf; right; exact Hz|].
  rewrite Hys. simpl. eexists. reflexivity.
Qed.

Lemma for_each_returns {A S : Type} (l : list A) (body : S → A → outcome S) (s : S) :
  (∀ s x, x ∈ l → ∃ s', body s x = Returns s') →
  ∃ s', for_each l body s = Returns s'.
Proof.
  revert s. induction l as [|x l IH]; intros s Hbody; simpl; [eexists; reflexivity|].
  destruct (Hbody s x) as (s1 & Hs1); [left|]. rewrite Hs1. simpl.
  apply IH. intros s0 y Hy. apply Hbody. right. exact Hy.
Qed.

Lemma bind_Returns_l {A B : Type} (a : A) (f : A → outcome B) :
  Returns a ≫= f = f a.
Proof. reflexivity. Qed.

Lemma consensus_plain_returns (agg : ScraperAggregator) (name : string) :
  re_plain name = true → ∃ c, get_player_consensus_score agg name = Returns c.
Proof.
  intros Hplain.
  destruct (consensus_selection_plain agg name Hplain)
    as (sel & c & _ & _ & _ & Hc & _).
  exists c. exact Hc.
Qed.

Lemma injury_plain_returns (agg : ScraperAggregator) (name : string) :
  re_plain name = true → ∃ r, get_injury_status agg name = Returns r.
Proof.
  intros Hplain. unfold get_injury_status.
  rewrite (str_contains_rows_plain _ _ _ Hplain).
  destruct (injury_news (player_data agg)) as [|e l]; [eexists; reflexivity|].
  match goal with
  | |- context [List.filter ?f ?l] => generalize (List.filter f l)
  end.
  intros sel. simpl. destruct sel; eexists; reflexivity.
Qed.

Lemma calculate_player_score_returns (self : FPLRecommender) (p : Element.t)
  (next_opponent : opponent) :
  names_plain self → p ∈ players_df self →
  ∃ score, calculate_player_score self p next_opponent = Returns score.
Proof.
  intros Hnames Hp. unfold calculate_player_score, integrate_web_data.
  destruct (use_web_data self); [|simpl; eexists; reflexivity].
  destruct (web_aggregator self) as [agg|] eqn:Eagg; [|simpl; eexists; reflexivity].
  destruct Hnames as [Hnone | Hplain]; [congruence|].
  destruct (consensus_plain_returns agg _ (Hplain p Hp)) as (c & ->).
  destruct (injury_plain_returns agg _ (Hplain p Hp)) as (r & ->).
  simpl. eexists. reflexivity.
Qed.

Lemma score_rows_returns (self : FPLRecommender) (d : gmap Z Z)
  (df : list Element.t) :
  names_plain self → (∀ p, p ∈ df → p ∈ players_df self) →
  probe_raises self = false ∨ df ≠ [] →
  ∃ scored, score_rows self d df = Returns scored.
Proof.
  intros Hnames Hsub Hrows. unfold score_rows.
  destruct df as [|x df].
  { destruct Hrows as [-> | Hne]; [eexists; reflexivity | contradiction]. }
  apply df_apply_returns.
  intros p Hp.
  destruct (calculate_player_score_returns self p
              (opponent_of_cell (series_map d (Element.team p))) Hnames (Hsub p Hp))
    as (score & ->).
  simpl. eexists. reflexivity.
Qed.

Lemma score_rows_nil (self : FPLRecommender) (d : gmap Z Z) :
  probe_raises self = true → score_rows self d [] = Raises ValueError.
Proof. intros H. unfold score_rows. rewrite H. reflexivity. Qed.

Lemma available_players_of_rows (self : FPLRecommender)
  (position_filter : option string) (p : Element.t) :
  p ∈ available_players_of self position_filter → p ∈ players_df self.
Proof.
  unfold available_players_of. intros Hp.
  destruct (str_truthy position_filter);
    [apply elem_of_List_filter in Hp as [Hp _]|];
    apply elem_of_List_filter in Hp as [Hp _]; exact Hp.
Qed.

Lemma squad_rows (self : FPLRecommender) (p : Element.t) :
  p ∈ get_current_squad_df self → p ∈ players_df self.
Proof.
  unfold get_current_squad_df. intros Hp.
  apply elem_of_List_filter in Hp as [Hp _]. exact Hp.
Qed.

(** [suggest_transfers] with its two frames named. *)
Lemma suggest_transfers_frames (self : FPLRecommender) (num_transfers : Z)
  (position_filter : option string) :
  suggest_transfers self num_transfers position_filter
  = (let d := team_next_opponent_of
                (get_fixtures_for_gameweek self (current_gameweek self)) in
     current_squad_df ← score_rows self d (get_current_squad_df self);
     available_players ←
       score_rows self d (available_players_of self position_filter);
     transfer_suggestions ←
       for_each ["GK"; "DEF"; "MID"; "FWD"]
                (consider_pos self position_filter current_squad_df
                   available_players) [];
     Returns (py_slice_to (num_transfers * 5)
                (sort_descending Transfer.improvement transfer_suggestions))).
Proof. reflexivity. Qed.

Lemma consider_in_returns (self : FPLRecommender) (counts : gmap Z nat)
  (pos : string) (o i : Scored.t) (acc : list Transfer.t) :
  names_plain self → Scored.row i ∈ players_df self →
  ∃ acc', consider_in self counts pos o acc i = Returns acc'.
Proof.
  intros Hnames Hi. unfold consider_in.
  destruct (_ && _); [eexists; reflexivity|].
  destruct (Qltb _ _); [|eexists; reflexivity].
  destruct (web_aggregator self) as [agg|] eqn:Eagg; [|simpl; eexists; reflexivity].
  destruct Hnames as [Hnone | Hplain]; [congruence|].
  destruct (consensus_plain_returns agg _ (Hplain _ Hi)) as (c & ->).
  simpl. eexists. reflexivity.
Qed.

(** X24: when no aggregator is loaded or no name of the player table holds a
    regular-expression character, [suggest_transfers] returns a list (an
    empty one when nothing improves) as long as the squad frame and the frame
    of available players both have rows, or the trial call that pandas makes
    on a frame without rows cannot raise (web data off, or nothing stored).
    With web data on and something stored, a squad without rows or an empty
    pool of available players makes it raise [ValueError]. *)
Theorem suggest_transfers_returns (self : FPLRecommender) (num_transfers : Z)
  (position_filter : option string) :
  names_plain self →
  (probe_raises self = false
   ∨ (get_current_squad_df self ≠ []
      ∧ available_players_of self position_filter ≠ []) →
   ∃ l, suggest_transfers self num_transfers position_filter = Returns l)
  ∧ (probe_raises self = true →
     get_current_squad_df self = []
     ∨ available_players_of self position_filter = [] →
     suggest_transfers self num_transfers position_filter = Raises ValueError).
Proof.
  intros Hnames. rewrite suggest_transfers_frames. cbv zeta.
  set (d := team_next_opponent_of
              (get_fixtures_for_gameweek self (current_gameweek self))).
  split.
  - intros Hrows.
    destruct (score_rows_returns self d (get_current_squad_df self) Hnames
                (squad_rows self)) as (squad & Hsquad);
      [destruct Hrows as [Hp | [Hs _]]; [left; exact Hp | right; exact Hs]|].
    rewrite Hsquad, bind_Returns_l.
    destruct (score_rows_returns self d
                (available_players_of self position_filter) Hnames
                (available_players_of_rows self position_filter))
      as (available & Havail);
      [destruct Hrows as [Hp | [_ Ha]]; [left; exact Hp | right; exact Ha]|].
    rewrite Havail, bind_Returns_l.
    assert (Hin : ∀ i, i ∈ available → Scored.row i ∈ players_df self).
    { intros i Hi. apply score_rows_rows in Havail.
      apply (available_players_of_rows self position_filter).
      rewrite <- Havail. apply list_elem_of_fmap.
      exists i. split; [reflexivity | exact Hi]. }
    match goal with
    | |- context [for_each ?l ?body ?s] =>
        destruct (for_each_returns l body s) as (sugg & Hsugg)
    end.
    { intros acc pos _. unfold consider_pos.
      destruct (match str_truthy position_filter with
                | Some wanted => negb (String.eqb pos wanted)
                | None => false
                end); [eexists; reflexivity|].
      apply for_each_returns. intros acc1 o _. unfold consider_out.
      destruct (List.filter _ (List.filter _ available)) as [|a0 aff] eqn:Eaff;
        [eexists; reflexivity|].
      apply for_each_returns. intros acc2 i Hi.
      apply consider_in_returns; [exact Hnames|]. apply Hin.
      apply subseteq_take, elem_of_stable_sort in Hi. rewrite <- Eaff in Hi.
      apply elem_of_List_filter in Hi as [Hi _].
      apply elem_of_List_filter in Hi as [Hi _]. exact Hi. }
    rewrite Hsugg, bind_Returns_l. eexists. reflexivity.
  - intros Hprobe Hempty.
    destruct (get_current_squad_df self) as [|p0 squad_df] eqn:Esquad.
    { rewrite (score_rows_nil self d Hprobe). reflexivity. }
    destruct Hempty as [Hs | Ha]; [discriminate|].
    destruct (score_rows_returns self d (p0 :: squad_df) Hnames) as (squad & Hsquad).
    { rewrite <- Esquad. apply squad_rows. }
    { right. discriminate. }
    rewrite Hsquad, bind_Returns_l, Ha, (score_rows_nil self d Hprobe).
    reflexivity.
Qed.

Lemma suggest_transfers_returns_witness :
  suggest_transfers captain_state 1 None = Raises ValueError
  ∧ ∃ l, suggest_transfers market_state 1 None = Returns l.
Proof.
  split.
  - apply (suggest_transfers_returns captain_state 1 None);
      [|reflexivity | right; reflexivity].
    right. intros p Hp.
    apply elem_of_cons in Hp as [-> | Hp]; [reflexivity|].
    apply list_elem_of_singleton in Hp. subst p. reflexivity.
  - apply (suggest_transfers_returns market_state 1 None);
      [left; reflexivity|].
    right. split; vm_compute; discriminate.
Defined.

Lemma web_captain_score_returns (self : FPLRecommender) (p : Element.t) :
  names_plain self → p ∈ players_df self →
  ∃ w, web_captain_score_of self p = Returns w.
Proof.
  intros Hnames Hp. unfold web_captain_score_of.
  destruct (web_aggregator self) as [agg|] eqn:Eagg; [|eexists; reflexivity].
  destruct Hnames as [Hnone | Hplain]; [congruence|].
  destruct (recommendations (player_data agg)) as [|r0 recs] eqn:Erecs;
    [eexists; reflexivity|].
  rewrite (str_contains_rows_plain _ _ _ (Hplain p Hp)), bind_Returns_l.
  match goal with
  | |- context [List.filter ?f (List.filter ?g ?l)] =>
      destruct (List.filter f (List.filter g l))
  end; [|eexists; reflexivity].
  destruct (consensus_plain_returns agg _ (Hplain p Hp)) as (c & ->).
  rewrite bind_Returns_l.
  destruct (0 <? mention_count c)%nat; eexists; reflexivity.
Qed.

(** X25: with no aggregator loaded, or with plain names throughout the player
    table, [suggest_captain] returns exactly when every team of the current
    gameweek's fixtures is listed in [data['teams']] (it raises [KeyError]
    otherwise), and then [suggest_vice_captain] returns as well. *)
Theorem suggest_captain_returns (self : FPLRecommender) (top_n : Z)
  (captain_choice : option string) :
  names_plain self →
  (Forall (teams_listed self)
          (get_fixtures_for_gameweek self (current_gameweek self))
   ↔ ∃ l, suggest_captain self top_n = Returns l)
  ∧ (Forall (teams_listed self)
            (get_fixtures_for_gameweek self (current_gameweek self))
     → ∃ r, suggest_vice_captain self captain_choice = Returns r)
  ∧ (¬ Forall (teams_listed self)
              (get_fixtures_for_gameweek self (current_gameweek self))
     → suggest_captain self top_n = Raises KeyError
       ∧ suggest_vice_captain self captain_choice = Raises KeyError).
Proof.
  intros Hnames.
  assert (Hok : ∀ n,
    Forall (teams_listed self)
           (get_fixtures_for_gameweek self (current_gameweek self))
    → ∃ l, suggest_captain self n = Returns l).
  { intros n Hall. unfold suggest_captain.
    destruct (gameweek_dicts_outcome self
                (get_fixtures_for_gameweek self (current_gameweek self)) Gw.empty)
      as [[_ (d & Hd)] | [Hex _]].
    - rewrite Hd. simpl.
      destruct (df_apply_returns (captain_candidate self d)
                  (get_current_squad_df self)) as (cands & Hcands).
      { intros p Hp. unfold get_current_squad_df in Hp.
        apply elem_of_List_filter in Hp as [Hp _].
        unfold captain_candidate.
        destruct (web_captain_score_returns self p Hnames Hp) as (w & ->).
        simpl. eexists. reflexivity. }
      rewrite Hcands. simpl. eexists. reflexivity.
    - exfalso. apply Exists_exists in Hex as (f & Hf & Hmiss).
      rewrite Forall_forall in Hall. destruct (Hall f Hf) as [Ha Hh].
      destruct Hmiss; contradiction. }
  assert (Hbad : ∀ n,
    ¬ Forall (teams_listed self)
             (get_fixtures_for_gameweek self (current_gameweek self))
    → suggest_captain self n = Raises KeyError).
  { intros n Hnot. unfold suggest_captain.
    destruct (gameweek_dicts_outcome self
                (get_fixtures_for_gameweek self (current_gameweek self)) Gw.empty)
      as [[Hall _] | [_ Hraise]]; [contradiction|].
    rewrite Hraise. reflexivity. }
  split; [|split].
  - split; [apply Hok|]. intros (l & Hl).
    destruct (decide (Forall (teams_listed self)
                (get_fixtures_for_gameweek self (current_gameweek self))))
      as [Hall | Hnot]; [exact Hall|].
    rewrite (Hbad top_n Hnot) in Hl. discriminate.
  - intros Hall. unfold suggest_vice_captain.
    destruct (Hok 15%Z Hall) as (options & ->). simpl. eexists. reflexivity.
  - intros Hnot. split; [apply Hbad, Hnot|].
    unfold suggest_vice_captain. rewrite (Hbad 15%Z Hnot). reflexivity.
Qed.

Lemma suggest_captain_returns_witness :
  ∃ l, suggest_captain captain_state 5 = Returns l.
Proof.
  destruct (suggest_captain_returns captain_state 5 None) as [[Hret _] _].
  - right. intros p Hp.
    apply elem_of_cons in Hp as [-> | Hp]; [reflexivity|].
    apply list_elem_of_singleton in Hp. subst p. reflexivity.
  - apply Hret. unfold teams_listed. vm_compute get_fixtures_for_gameweek.
    repeat (apply Forall_cons; split;
            [split; vm_compute; repeat (first [left | right])|]).
    apply Forall_nil_2.
Defined.

(** ** Ties *)

(** The head of a stable descending sort is the first item with the greatest
    key. *)
Lemma sort_descending_first_max {A : Type} (key : A → Q) (l : list A) (h : A) :
  head (sort_descending key l) = Some h →
  ∃ pre post, l = (pre ++ h :: post)%list
              ∧ (∀ y, y ∈ pre → (key y < key h)%Q)
              ∧ (∀ y, y ∈ post → (key y <= key h)%Q).
Proof.
  revert h. induction l as [|x l IH]; intros h Hh; [discriminate|].
  unfold sort_descending, stable_sort in Hh. simpl in Hh.
  fold (stable_sort (λ a b, Qle_bool (key b) (key a)) l) in Hh.
  fold (sort_descending key l) in Hh.
  destruct (sort_descending key l) as [|y s] eqn:Es.
  - simpl in Hh. injection Hh as <-.
    assert (Hl : l = []).
    { apply (f_equal length) in Es. unfold sort_descending in Es.
      rewrite length_stable_sort in Es. destruct l; [reflexivity | discriminate]. }
    subst l. exists [], []. split; [reflexivity|].
    split; intros z Hz; inversion Hz.
  - destruct (IH y eq_refl) as (pre & post & Hl & Hpre & Hpost).
    simpl in Hh. destruct (Qle_bool (key y) (key x)) eqn:E.
    + apply Qle_bool_iff in E. injection Hh as <-.
      exists [], l. split; [reflexivity|]. split; [intros z Hz; inversion Hz|].
      intros z Hz. rewrite Hl in Hz.
      apply elem_of_app in Hz as [Hz | Hz].
      * specialize (Hpre z Hz). lra.
      * apply elem_of_cons in Hz as [-> | Hz]; [exact E|].
        specialize (Hpost z Hz). lra.
    + apply Qle_bool_gt in E. simpl in Hh. injection Hh as <-.
      exists (x :: pre), post. split; [rewrite Hl; reflexivity|].
      split; [|exact Hpost].
      intros z Hz. apply elem_of_cons in Hz as [-> | Hz]; [exact E | apply Hpre, Hz].
Qed.

Lemma filter_split {A : Type} (f : A → bool) (l a b : list A) (c : A) :
  List.filter f l = (a ++ c :: b)%list →
  ∃ pre post, l = (pre ++ c :: post)%list
              ∧ List.filter f pre = a ∧ List.filter f post = b.
Proof.
  revert a. induction l as [|x l IH]; intros a; simpl.
  - intros H. destruct a; discriminate.
  - destruct (f x) eqn:Ex.
    + destruct a as [|a0 a]; simpl.
      * intros [= -> <-]. exists [], l. split; [reflexivity|].
        split; reflexivity.
      * intros [= -> H]. destruct (IH a H) as (pre & post & -> & <- & <-).
        exists (a0 :: pre), post. split; [reflexivity|].
        simpl. rewrite Ex. split; reflexivity.
    + intros H. destruct (IH a H) as (pre & post & -> & <- & <-).
      exists (x :: pre), post. split; [reflexivity|].
      simpl. rewrite Ex. split; reflexivity.
Qed.

Lemma filter_all {A : Type} (l : list A) : List.filter (λ _, true) l = l.
Proof. induction l as [|x l IH]; simpl; [reflexivity | rewrite IH; reflexivity]. Qed.

Lemma map_split {A B : Type} (f : A → B) (l : list A) (a b : list B) (c : B) :
  map f l = (a ++ c :: b)%list →
  ∃ pre x post, l = (pre ++ x :: post)%list
                ∧ map f pre = a ∧ f x = c ∧ map f post = b.
Proof.
  revert a. induction l as [|y l IH]; intros a; simpl.
  - intros H. destruct a; discriminate.
  - destruct a as [|a0 a]; simpl.
    + intros [= <- <-]. exists [], y, l. repeat split.
    + intros [= <- H]. destruct (IH a H) as (pre & x & post & -> & <- & <- & <-).
      exists (y :: pre), x, post. repeat split.
Qed.

(** X26: ties in [suggest_vice_captain].  The sort is stable, so the pick is
    the first option, in the order [suggest_captain] ranked them, among the
    options with the highest vice score that do not bear the captain's name:
    every option ranked before it bears that name or has a strictly lower
    vice score, and every option ranked after it bears that name or has no
    higher one. *)
Theorem suggest_vice_captain_first_best (self : FPLRecommender)
  (captain_choice : option string) (vice : Captain.t) :
  suggest_vice_captain self captain_choice = Returns (Some vice) →
  ∃ options before c after,
    suggest_captain self 15 = Returns options
    ∧ options = (before ++ c :: after)%list
    ∧ vice = set_vice_score c
    ∧ ¬ bears_name captain_choice c
    ∧ (∀ c', c' ∈ before →
         bears_name captain_choice c'
         ∨ (spec_vice_score c' < spec_vice_score c)%Q)
    ∧ (∀ c', c' ∈ after →
         bears_name captain_choice c'
         ∨ (spec_vice_score c' <= spec_vice_score c)%Q).
Proof.
  unfold suggest_vice_captain. intros H.
  apply bind_Returns in H as (options & Hopts & [= Hhead]).
  pose proof (λ c, vice_filter_spec self options captain_choice c Hopts) as Hspec.
  set (keep := match str_truthy captain_choice with
               | Some cc => λ opt, negb (String.eqb (str_lower (Captain.player_name opt))
                                                    (str_lower cc))
               | None => λ _, true
               end).
  assert (Hfilt : match str_truthy captain_choice with
                  | Some cc => List.filter
                      (λ opt, negb (String.eqb (str_lower (Captain.player_name opt))
                                               (str_lower cc))) options
                  | None => options
                  end = List.filter keep options).
  { unfold keep. destruct (str_truthy captain_choice); [reflexivity|].
    symmetry. apply filter_all. }
  assert (Hdrop : ∀ c', keep c' = false → bears_name captain_choice c').
  { intros c' Hk. unfold keep in Hk.
    destruct (str_truthy captain_choice) as [cc|] eqn:Ecc; [|discriminate].
    apply negb_false_iff, String.eqb_eq in Hk.
    exists cc. split; [|exact Hk].
    destruct captain_choice as [[|a s]|]; simpl in Ecc; congruence. }
  rewrite Hfilt in Hhead, Hspec.
  destruct (sort_descending_first_max vice_key _ vice Hhead)
    as (pre_v & post_v & Hmap & Hpre & Hpost).
  apply map_split in Hmap as (pre_f & c & post_f & Hf & <- & <- & <-).
  assert (Hcin : c ∈ List.filter keep options)
    by (rewrite Hf; apply elem_of_app; right; left).
  apply filter_split in Hf as (before & after & Hoptions & <- & <-).
  exists options, before, c, after.
  split; [exact Hopts|]. split; [exact Hoptions|]. split; [reflexivity|].
  split; [apply (Hspec c), Hcin|].
  split.
  - intros c' Hc'. destruct (keep c') eqn:Ek; [|left; apply Hdrop, Ek].
    right. rewrite <- !vice_score_of_spec.
    apply (Hpre (set_vice_score c')). apply list_elem_of_fmap.
    exists c'. split; [reflexivity|]. apply elem_of_List_filter. split; assumption.
  - intros c' Hc'. destruct (keep c') eqn:Ek; [|left; apply Hdrop, Ek].
    right. rewrite <- !vice_score_of_spec.
    apply (Hpost (set_vice_score c')). apply list_elem_of_fmap.
    exists c'. split; [reflexivity|]. apply elem_of_List_filter. split; assumption.
Qed.

Lemma suggest_vice_captain_first_best_witness :
  ∃ vice options before c after,
    suggest_vice_captain twins_state (Some "cap tain") = Returns (Some vice)
    ∧ suggest_captain twins_state 15 = Returns options
    ∧ map Captain.player_name options
      = ["Cap Tain"; "Dif Ferential"; "Al Pha"; "Al Bis"]
    ∧ options = (before ++ c :: after)%list
    ∧ vice = set_vice_score c
    ∧ Captain.player_name c = "Al Pha"
    ∧ map Captain.player_name after = ["Al Bis"]
    ∧ Forall (λ c', (spec_vice_score c' == spec_vice_score c)%Q) after.
Proof.
  destruct (suggest_vice_captain twins_state (Some "cap tain"))
    as [[vice|]| |] eqn:E; [|vm_compute in E; discriminate..].
  destruct (suggest_vice_captain_first_best twins_state (Some "cap tain") vice E)
    as (options & before & c & after & Hopts & Hsplit & Hvice & _).
  exists vice, options, before, c, after.
  split; [reflexivity|]. split; [exact Hopts|].
  assert (Hnames : map Captain.player_name options
                   = ["Cap Tain"; "Dif Ferential"; "Al Pha"; "Al Bis"]).
  { vm_compute in Hopts. injection Hopts as <-. reflexivity. }
  split; [exact Hnames|]. split; [exact Hsplit|]. split; [exact Hvice|].
  assert (Hc : Captain.player_name c = "Al Pha").
  { change (Captain.player_name c) with (Captain.player_name (set_vice_score c)).
    rewrite <- Hvice. vm_compute in E. injection E as Ev. rewrite <- Ev.
    reflexivity. }
  split; [exact Hc|].
  vm_compute in Hopts. injection Hopts as <-.
  destruct before as [|b0 [|b1 [|b2 [|b3 before]]]];
    simpl in Hsplit; injection Hsplit as; subst; try discriminate Hc.
  - split; [reflexivity|].
    apply Forall_cons. split; [vm_compute; reflexivity | apply Forall_nil_2].
  - destruct before; discriminate.
Defined.
